(** * LC-3 virtual machine (main.cc): a shallow embedding and its properties

    The development follows [main.cc] top to bottom: machine integers,
    the constants of namespace [lc3], [SignExtend] and [u16Swap], the
    register selectors, the [VM] object with [LoadImage], [UpdateFlag] and
    [MemRead], and one iteration of the loop of [VM::Run].

    Host conventions (the program targets POSIX: termios, select):
    [u16] is a 16-bit unsigned integer, [int] has 32 bits, [usize] 64 bits,
    the host is little-endian and plain [char] is signed.  A [u16] is a [Z]
    in [0, 65536); every conversion to [u16] is written out as [wrap16].

    C++ leaves an access outside an array undefined.  The embedding makes
    such an access a result of its own, [Err], carrying the index, instead
    of inventing a value for it. *)

From Stdlib Require Import ZArith Lia Bool.
From Stdlib Require Import Strings.Byte Strings.String.
From stdpp Require Import base list.

Local Open Scope Z_scope.

(** ** Machine integers *)

(** Conversion of an integer to [u16] (typedef uint16_t u16). *)
Definition wrap16 (z : Z) : Z := z mod 65536.

(** Conversion of an integer to [usize] (typedef size_t usize). *)
Definition wrap_usize (z : Z) : Z := z mod 2 ^ 64.

(** A C++ condition: an integer is true when it is not zero. *)
Definition truthy (z : Z) : bool := negb (z =? 0).

(** The value of a byte as [unsigned char]. *)
Definition byte_val (b : byte) : Z := Z.of_N (Byte.to_N b).

(** Conversion of an integer to [unsigned char], as [putc] does. *)
Definition byte_of_Z (z : Z) : byte :=
  match Byte.of_N (Z.to_N (z mod 256)) with
  | Some b => b
  | None => x00
  end.

(** Conversion of an integer to (signed) [char]. *)
Definition to_char (z : Z) : Z := (z + 128) mod 256 - 128.

(** ** Constants of namespace lc3 *)

Definition kR0 : Z := 0.
Definition kR1 : Z := 1.
Definition kR2 : Z := 2.
Definition kR3 : Z := 3.
Definition kR4 : Z := 4.
Definition kR5 : Z := 5.
Definition kR6 : Z := 6.
Definition kR7 : Z := 7.
Definition kRPC : Z := 8.
Definition kRCond : Z := 9.

Definition kRegCnt : Z := kRCond + 1.

Definition kOpAdd : Z := 0x1.
Definition kOpAnd : Z := 0x5.
Definition kOpBr : Z := 0x0.
Definition kOpJmp : Z := 0xC.
Definition kOpJsr : Z := 0x4.
Definition kOpLd : Z := 0x2.
Definition kOpLdi : Z := 0xA.
Definition kOpLdr : Z := 0x6.
Definition kOpLea : Z := 0xE.
Definition kOpNot : Z := 0x9.
Definition kOpRti : Z := 0x8.
Definition kOpRes : Z := 0xD.
Definition kOpSt : Z := 0x3.
Definition kOpSti : Z := 0xB.
Definition kOpStr : Z := 0x7.
Definition kOpTrap : Z := 0xF.

Definition kFlPos : Z := Z.shiftl 1 0.
Definition kFlZro : Z := Z.shiftl 1 1.
Definition kFlNeg : Z := Z.shiftl 1 2.

Definition kTrapGetc : Z := 0x20.
Definition kTrapOut : Z := 0x21.
Definition kTrapPuts : Z := 0x22.
Definition kTrapIn : Z := 0x23.
Definition kTrapPutsp : Z := 0x24.
Definition kTrapHalt : Z := 0x25.

Definition kKeyboardStatus : Z := 0xFE00.
Definition kKeyboardData : Z := 0xFE02.

(** constexpr int kMaxMemory = UINT16_MAX; *)
Definition UINT16_MAX : Z := 65535.
Definition kMaxMemory : Z := UINT16_MAX.

(** ** Free functions *)

(** u16 SignExtend(u16 x, int bits_cnt): the operands are promoted to
    [int], the result is converted back to [u16] on return. *)
Definition SignExtend (x : Z) (bits_cnt : Z) : Z :=
  if truthy (Z.land (Z.shiftr x (bits_cnt - 1)) 1)
  then wrap16 (Z.lor (Z.shiftl 0xFFFF bits_cnt) x)
  else x.

(** u16 u16Swap(u16 x) *)
Definition u16Swap (x : Z) : Z :=
  wrap16 (Z.lor (Z.shiftr x 8) (Z.shiftl x 8)).

(** Register selectors of an instruction word. *)
Definition R0 (instr : Z) : Z := Z.land (Z.shiftr instr 9) 0x7.
Definition R1 (instr : Z) : Z := Z.land (Z.shiftr instr 6) 0x7.
Definition R2 (instr : Z) : Z := Z.land instr 0x7.

(** ** Results of fallible code *)

(** What stops a computation short of a value. *)
Inductive fault : Type :=
| OobRead (i : Z)    (* memory_[i] read with i outside the array *)
| OobWrite (i : Z)   (* memory_[i] written with i outside the array *)
| ImageOverrun       (* the image buffer read past its last byte *)
| WouldBlock         (* a blocking read while nothing has been typed *)
| OutOfFuel.         (* the bound on loop iterations was reached *)

Inductive result (A : Type) : Type :=
| Ok (a : A)
| Err (f : fault).

Arguments Ok {A} a.
Arguments Err {A} f.

#[global] Instance result_ret : MRet result := @Ok.
#[global] Instance result_bind : MBind result :=
  λ A B (k : A → result B) (m : result A),
    match m with
    | Ok a => k a
    | Err f => Err f
    end.

(** ** The terminal *)

(** [stdin] holds the characters typed and not yet read, [stdout] the
    bytes written so far. *)
Record Terminal : Type := {
  stdin : list byte;
  stdout : list byte;
}.

(** u16 CheckKey(): select with a zero timeout, true when a read would
    not block.  select looks at the descriptor and getchar at the stream:
    both are taken to see the same pending characters, that is, the stream
    holds no character read ahead when the descriptor is polled (stdin is a
    terminal out of canonical mode and no more than one key is pending at a
    read). *)
Definition CheckKey (t : Terminal) : bool :=
  match stdin t with
  | [] => false
  | _ :: _ => true
  end.

(** getchar() and getc(stdin): the next character as an [int]. *)
Definition getchar (t : Terminal) : result (Z * Terminal) :=
  match stdin t with
  | [] => Err WouldBlock
  | c :: rest => Ok (byte_val c, {| stdin := rest; stdout := stdout t |})
  end.

(** putc(c, stdout) *)
Definition putc (c : Z) (t : Terminal) : Terminal :=
  {| stdin := stdin t; stdout := stdout t ++ [byte_of_Z c] |}.

(** printf(s) with a format that has no conversion. *)
Definition printf (s : string) (t : Terminal) : Terminal :=
  {| stdin := stdin t; stdout := stdout t ++ list_byte_of_string s |}.

(** puts(s): the string and a newline. *)
Definition puts (s : string) (t : Terminal) : Terminal :=
  putc 10 (printf s t).

(** ** class VM *)

(** u16 memory_[kMaxMemory] = {0}; u16 reg_[kRegCnt] = {0}; *)
Record VM : Type := {
  memory_ : list Z;
  reg_ : list Z;
}.

Definition VM_init : VM :=
  {| memory_ := replicate (Z.to_nat kMaxMemory) 0;
     reg_ := replicate (Z.to_nat kRegCnt) 0 |}.

(** reg_[r].  Every index the program uses is a constant below [kRegCnt]
    or a three-bit field. *)
Definition reg (vm : VM) (r : Z) : Z := default 0 (reg_ vm !! Z.to_nat r).

(** reg_[r] = v *)
Definition set_reg (r v : Z) (vm : VM) : VM :=
  {| memory_ := memory_ vm; reg_ := <[Z.to_nat r := v]> (reg_ vm) |}.

(** memory_[i] as an rvalue; the indices of the program are unsigned. *)
Definition load (mem : list Z) (i : Z) : result Z :=
  match mem !! Z.to_nat i with
  | Some w => Ok w
  | None => Err (OobRead i)
  end.

(** memory_[i] = v *)
Definition store (mem : list Z) (i v : Z) : result (list Z) :=
  match mem !! Z.to_nat i with
  | Some _ => Ok (<[Z.to_nat i := v]> mem)
  | None => Err (OobWrite i)
  end.

Definition mem_store (i v : Z) (vm : VM) : result VM :=
  mem ← store (memory_ vm) i v;
  Ok {| memory_ := mem; reg_ := reg_ vm |}.

(** *** LoadImage *)

(** image[i] as an unsigned byte. *)
Definition image_byte (img : list byte) (i : Z) : result Z :=
  match img !! Z.to_nat i with
  | Some b => Ok (byte_val b)
  | None => Err ImageOverrun
  end.

(** memcpy(&origin, image, sizeof(origin)): the first byte is the low byte
    of the word. *)
Definition read_origin (img : list byte) : result Z :=
  lo ← image_byte img 0;
  hi ← image_byte img 1;
  Ok (Z.lor lo (Z.shiftl hi 8)).

(** The array seen as bytes, as memcpy sees it: the byte at the even
    offset 2i is the low byte of word i, the byte at 2i + 1 its high byte. *)
Definition byte_at (mem : list Z) (off : Z) : option Z :=
  (λ w, if Z.even off then w mod 256 else w / 256)
    <$> mem !! Z.to_nat (off / 2).

(** One byte stored at byte offset [off] of the array; the other byte of
    the word stays. *)
Definition store_byte (mem : list Z) (off : Z) (b : Z) : result (list Z) :=
  let i := off / 2 in
  match mem !! Z.to_nat i with
  | Some w =>
      Ok (<[Z.to_nat i :=
              if Z.even off
              then 256 * (w / 256) + b
              else w mod 256 + 256 * b]> mem)
  | None => Err (OobWrite i)
  end.

(** memcpy(memory_ + origin, image + sizeof(origin), n), byte by byte:
    [src] is the buffer from image + 2 on, [off] the byte offset of the
    destination in memory_. *)
Fixpoint memcpy (mem : list Z) (off : Z) (src : list byte) (n : Z)
  : result (list Z) :=
  if n =? 0 then Ok mem
  else match src with
       | [] => Err ImageOverrun
       | b :: src' =>
           mem' ← store_byte mem off (byte_val b);
           memcpy mem' (off + 1) src' (n - 1)
       end.

(** while (n-- > 0) { *p = u16Swap( *p); ++p; } where [cells] is the array
    from p to its end and [p] the index p points at. *)
Fixpoint swap_loop (cells : list Z) (p : Z) (n : Z) : result (list Z) :=
  if n =? 0 then Ok cells
  else match cells with
       | [] => Err (OobRead p)
       | w :: rest =>
           rest' ← swap_loop rest (p + 1) (n - 1);
           Ok (u16Swap w :: rest')
       end.

(** bool LoadImage(const char *image, int image_size); a null pointer is
    [None]. *)
Definition LoadImage (image : option (list byte)) (image_size : Z) (vm : VM)
  : result (bool * VM) :=
  match image with
  | None => Ok (false, vm)
  | Some img =>
      if (image_size =? 0) || (image_size >? kMaxMemory) then Ok (false, vm)
      else
        raw ← read_origin img;
        let origin := u16Swap raw in
        let n := wrap_usize (image_size - 2) in
        mem1 ← memcpy (memory_ vm) (2 * origin) (drop 2 img) n;
        cells ← swap_loop (drop (Z.to_nat origin) mem1) origin n;
        Ok (true, {| memory_ := take (Z.to_nat origin) mem1 ++ cells;
                     reg_ := reg_ vm |})
  end.

(** *** UpdateFlag and MemRead *)

Definition UpdateFlag (r : Z) (vm : VM) : VM :=
  if reg vm r =? 0 then set_reg kRCond kFlZro vm
  else if truthy (Z.shiftr (reg vm r) 15) then set_reg kRCond kFlNeg vm
  else set_reg kRCond kFlPos vm.

(** The body of the test on the address in MemRead. *)
Definition poll_keyboard (vm : VM) (t : Terminal) : result (VM * Terminal) :=
  if CheckKey t then
    vm1 ← mem_store kKeyboardStatus (wrap16 (Z.shiftl 1 15)) vm;
    '(c, t1) ← getchar t;
    vm2 ← mem_store kKeyboardData (wrap16 c) vm1;
    Ok (vm2, t1)
  else
    vm1 ← mem_store kKeyboardStatus 0 vm;
    Ok (vm1, t).

(** u16 MemRead(size_t addr) *)
Definition MemRead (addr : Z) (vm : VM) (t : Terminal)
  : result (Z * VM * Terminal) :=
  '(vm', t') ← (if addr =? kKeyboardStatus then poll_keyboard vm t
                else Ok (vm, t));
  w ← load (memory_ vm') addr;
  Ok (w, vm', t').

(** ** VM::Run *)

(** The scan of TRAP PUTS: while ( *c) { putc((char)*c, stdout); ++c; }
    where [cells] is the array from c to its end and [c] the index c
    points at. *)
Fixpoint puts_loop (cells : list Z) (c : Z) (t : Terminal) : result Terminal :=
  match cells with
  | [] => Err (OobRead c)
  | w :: rest =>
      if truthy w then puts_loop rest (c + 1) (putc (to_char w) t)
      else Ok t
  end.

(** The scan of TRAP PUTSP. *)
Fixpoint putsp_loop (cells : list Z) (c : Z) (t : Terminal) : result Terminal :=
  match cells with
  | [] => Err (OobRead c)
  | w :: rest =>
      if truthy w then
        let c1 := to_char (Z.land w 0xFF) in
        let t1 := putc c1 t in
        let c2 := to_char (Z.shiftr w 8) in
        putsp_loop rest (c + 1) (if truthy c2 then putc c2 t1 else t1)
      else Ok t
  end.

(** switch (instr & 0xFF) of case kOpTrap.  The third component is the
    value of [running] after the case. *)
Definition trap (instr : Z) (vm : VM) (t : Terminal)
  : result (VM * Terminal * bool) :=
  let code := Z.land instr 0xFF in
  if code =? kTrapGetc then
    '(c, t1) ← getchar t;
    Ok (UpdateFlag kR0 (set_reg kR0 (wrap16 c) vm), t1, true)
  else if code =? kTrapOut then
    Ok (vm, putc (reg vm kR0) t, true)
  else if code =? kTrapPuts then
    t1 ← puts_loop (drop (Z.to_nat (reg vm kR0)) (memory_ vm)) (reg vm kR0) t;
    Ok (vm, t1, true)
  else if code =? kTrapIn then
    '(ch, t1) ← getchar (printf "Enter a character: " t);
    let c := to_char ch in
    Ok (UpdateFlag kR0 (set_reg kR0 (wrap16 c) vm), putc c t1, true)
  else if code =? kTrapPutsp then
    t1 ← putsp_loop (drop (Z.to_nat (reg vm kR0)) (memory_ vm)) (reg vm kR0) t;
    Ok (vm, t1, true)
  else if code =? kTrapHalt then
    Ok (vm, puts "halt" t, false)
  else
    Ok (vm, t, true).

(** reg_[kRPC] + SignExtend(instr & 0x1FF, 9) as a [u16]. *)
Definition pc_offset9 (instr : Z) (vm : VM) : Z :=
  wrap16 (reg vm kRPC + SignExtend (Z.land instr 0x1FF) 9).

(** reg_[R1(instr)] + SignExtend(instr & 0x3F, 6) as a [u16]. *)
Definition base_offset6 (instr : Z) (vm : VM) : Z :=
  wrap16 (reg vm (R1 instr) + SignExtend (Z.land instr 0x3F) 6).

(** switch (op) of the loop body, after the fetch. *)
Definition exec (instr : Z) (vm : VM) (t : Terminal)
  : result (VM * Terminal * bool) :=
  let op := Z.shiftr instr 12 in
  if op =? kOpAdd then
    let r0 := R0 instr in
    let r1 := R1 instr in
    let vm1 :=
      if truthy (Z.land (Z.shiftr instr 5) 0x1)
      then set_reg r0 (wrap16 (reg vm r1 + SignExtend (Z.land instr 0x1F) 5)) vm
      else set_reg r0 (wrap16 (reg vm r1 + reg vm (R2 instr))) vm in
    Ok (UpdateFlag r0 vm1, t, true)
  else if op =? kOpAnd then
    let r0 := R0 instr in
    let r1 := R1 instr in
    let vm1 :=
      if truthy (Z.land (Z.shiftr instr 5) 0x1)
      then set_reg r0
             (wrap16 (Z.land (reg vm r1) (SignExtend (Z.land instr 0x1F) 5))) vm
      else set_reg r0 (wrap16 (Z.land (reg vm r1) (reg vm (R2 instr)))) vm in
    Ok (UpdateFlag r0 vm1, t, true)
  else if op =? kOpBr then
    if truthy (Z.land (reg vm kRCond) (Z.land (Z.shiftr instr 9) 0x7))
    then Ok (set_reg kRPC (pc_offset9 instr vm) vm, t, true)
    else Ok (vm, t, true)
  else if op =? kOpJmp then
    Ok (set_reg kRPC (reg vm (R1 instr)) vm, t, true)
  else if op =? kOpJsr then
    let vm1 := set_reg kR7 (reg vm kRPC) vm in
    if truthy (Z.land (Z.shiftr instr 11) 0x1)
    then Ok (set_reg kRPC
               (wrap16 (reg vm1 kRPC + SignExtend (Z.land instr 0x7FF) 11)) vm1,
             t, true)
    else Ok (set_reg kRPC (reg vm1 (R1 instr)) vm1, t, true)
  else if op =? kOpLd then
    let r0 := R0 instr in
    '(w, vm1, t1) ← MemRead (pc_offset9 instr vm) vm t;
    Ok (UpdateFlag r0 (set_reg r0 w vm1), t1, true)
  else if op =? kOpLdi then
    let r0 := R0 instr in
    '(a, vm1, t1) ← MemRead (pc_offset9 instr vm) vm t;
    '(w, vm2, t2) ← MemRead a vm1 t1;
    Ok (UpdateFlag r0 (set_reg r0 w vm2), t2, true)
  else if op =? kOpLdr then
    let r0 := R0 instr in
    '(w, vm1, t1) ← MemRead (base_offset6 instr vm) vm t;
    Ok (UpdateFlag r0 (set_reg r0 w vm1), t1, true)
  else if op =? kOpLea then
    let r0 := R0 instr in
    Ok (UpdateFlag r0 (set_reg r0 (pc_offset9 instr vm) vm), t, true)
  else if op =? kOpNot then
    let r0 := R0 instr in
    Ok (UpdateFlag r0 (set_reg r0 (wrap16 (Z.lnot (reg vm (R1 instr)))) vm),
        t, true)
  else if (op =? kOpRti) || (op =? kOpRes) then
    Ok (vm, printf "bad opcode" t, false)
  else if op =? kOpSt then
    vm1 ← mem_store (pc_offset9 instr vm) (reg vm (R0 instr)) vm;
    Ok (vm1, t, true)
  else if op =? kOpSti then
    '(a, vm1, t1) ← MemRead (pc_offset9 instr vm) vm t;
    vm2 ← mem_store a (reg vm1 (R0 instr)) vm1;
    Ok (vm2, t1, true)
  else if op =? kOpStr then
    vm1 ← mem_store (base_offset6 instr vm) (reg vm (R0 instr)) vm;
    Ok (vm1, t, true)
  else if op =? kOpTrap then
    trap instr vm t
  else
    Ok (vm, printf "bad opcode" t, false).

(** u16 addr = reg_[kRPC]++; u16 instr = MemRead(addr); *)
Definition fetch (vm : VM) (t : Terminal) : result (Z * VM * Terminal) :=
  let addr := reg vm kRPC in
  MemRead addr (set_reg kRPC (wrap16 (addr + 1)) vm) t.

(** One iteration of while (running). *)
Definition step (vm : VM) (t : Terminal) : result (VM * Terminal * bool) :=
  '(instr, vm1, t1) ← fetch vm t;
  exec instr vm1 t1.

(** The initial state set at the head of Run. *)
Definition Run_init (vm : VM) : VM :=
  set_reg kRPC 0x3000 (set_reg kRCond kFlZro vm).

(** The loop of Run, cut off after [fuel] iterations. *)
Fixpoint run_loop (fuel : nat) (vm : VM) (t : Terminal)
  : result (VM * Terminal) :=
  match fuel with
  | O => Err OutOfFuel
  | S fuel' =>
      '(vm1, t1, running) ← step vm t;
      if (running : bool) then run_loop fuel' vm1 t1 else Ok (vm1, t1)
  end.

Definition Run (fuel : nat) (vm : VM) (t : Terminal) : result (VM * Terminal) :=
  run_loop fuel (Run_init vm) t.

(** ** Well-formed machines and reachable states *)

Definition is_u16 (z : Z) : bool := (0 <=? z) && (z <? 65536).

(** The arrays have their declared sizes and hold [u16] values. *)
Definition VM_wf (vm : VM) : bool :=
  (length (memory_ vm) =? Z.to_nat kMaxMemory)%nat
  && (length (reg_ vm) =? Z.to_nat kRegCnt)%nat
  && forallb is_u16 (memory_ vm)
  && forallb is_u16 (reg_ vm).

(** States of the loop of Run: the state at its head, the state after an
    iteration that leaves [running] true, and the same state once more
    characters have been typed. *)
Inductive reachable : VM → Terminal → Prop :=
| reach_init (vm : VM) (t : Terminal) :
    VM_wf vm = true → reachable (Run_init vm) t
| reach_step (vm : VM) (t : Terminal) (vm' : VM) (t' : Terminal) :
    reachable vm t → step vm t = Ok (vm', t', true) → reachable vm' t'
| reach_typed (vm : VM) (t : Terminal) (keys : list byte) :
    reachable vm t →
    reachable vm {| stdin := stdin t ++ keys; stdout := stdout t |}.

(** ** main *)

(** The body of main once the file is open: the buffer has one byte more
    than the file, left as it was allocated ([pad]); the length of the file
    is passed as [image_size] and the result of LoadImage is not
    examined. *)
Definition main_body (fuel : nat) (file : list byte) (pad : byte) (t : Terminal)
  : result (VM * Terminal) :=
  '(_, vm) ← LoadImage (Some (file ++ [pad])) (Z.of_nat (length file)) VM_init;
  Run fuel vm t.

(** ** Sample inputs *)

(** Nothing typed, nothing written. *)
Definition tty_idle : Terminal := {| stdin := []; stdout := [] |}.

(** The key "a" typed and not yet read. *)
Definition tty_key_a : Terminal := {| stdin := [x61]; stdout := [] |}.

(** The loop of the comment at the head of main.cc, at x3000:
    AND R0,R0,0; ADD R0,R0,1; ADD R1,R0,-10; BRn -3; TRAP x25. *)
Definition image_count_to_ten : list byte :=
  [x30; x00; x50; x20; x10; x21; x12; x36; x09; xfd; xf0; x25].

(** LEA R0,2; TRAP x22; TRAP x25; then the words 72, 105, 0. *)
Definition image_puts_hi : list byte :=
  [x30; x00; xe0; x02; xf0; x22; xf0; x25; x00; x48; x00; x69; x00; x00].

(** NOT R1,R1; LDR R0,R1,0; TRAP x25: a load from address xFFFF. *)
Definition image_load_last : list byte :=
  [x30; x00; x92; x7f; x60; x40; xf0; x25].

(** NOT R1,R1; STR R0,R1,0; TRAP x25: a store to address xFFFF. *)
Definition image_store_last : list byte :=
  [x30; x00; x92; x7f; x70; x40; xf0; x25].

(** The fresh machine with the word [w] at address [a]. *)
Definition vm_with (a w : Z) : VM :=
  {| memory_ := <[Z.to_nat a := w]> (memory_ VM_init);
     reg_ := reg_ VM_init |}.

(** The fresh machine with the word [w] at x3000, where Run starts. *)
Definition vm_one (w : Z) : VM := vm_with 0x3000 w.

(** ** Terminal settings *)

(** struct termios; the program touches [c_lflag] only. *)
Record termios : Type := {
  c_iflag : Z;
  c_oflag : Z;
  c_cflag : Z;
  c_lflag : Z;
  c_cc : list Z;
}.

(** The settings of the terminal on stdin, which tcgetattr reads and
    tcsetattr replaces (stdin is taken to be a terminal, so both succeed),
    and the global [original_tio]. *)
Record Host : Type := {
  tty_settings : termios;
  original_tio : termios;
}.

(** Conversion of an integer to [tcflag_t] (unsigned int). *)
Definition wrap_tcflag (z : Z) : Z := z mod 2 ^ 32.

(** Conversion of an integer to [int]. *)
Definition wrap_int (z : Z) : Z := (z + 2 ^ 31) mod 2 ^ 32 - 2 ^ 31.

(** The string of one newline character. *)
Definition nl : string := String (Ascii.ascii_of_nat 10) EmptyString.

(** void RestoreInputBuffering() *)
Definition RestoreInputBuffering (h : Host) : Host :=
  {| tty_settings := original_tio h; original_tio := original_tio h |}.

(** void HandleInterrupt(int signal): the host and the output it leaves,
    and the status passed to exit. *)
Definition HandleInterrupt (h : Host) (t : Terminal) : Host * Terminal * Z :=
  (RestoreInputBuffering h, printf nl t, -2).

Section Termios.

(** The flag bits ICANON and ECHO of <termios.h>. *)
Variables ICANON ECHO : Z.

(** void DisableInputBuffering() *)
Definition DisableInputBuffering (h : Host) : Host :=
  let original := tty_settings h in
  {| tty_settings :=
       {| c_iflag := c_iflag original;
          c_oflag := c_oflag original;
          c_cflag := c_cflag original;
          c_lflag := Z.land (c_lflag original)
                       (wrap_tcflag (Z.land (Z.lnot ICANON) (Z.lnot ECHO)));
          c_cc := c_cc original |};
     original_tio := original |}.

(** VM::Run as a whole: DisableInputBuffering, the initial state and the
    loop, then RestoreInputBuffering.  (signal installs HandleInterrupt,
    which the host runs on SIGINT.) *)
Definition Run_session (fuel : nat) (vm : VM) (t : Terminal) (h : Host)
  : result (VM * Terminal * Host) :=
  let h1 := DisableInputBuffering h in
  '(vm1, t1) ← Run fuel vm t;
  Ok (vm1, t1, RestoreInputBuffering h1).

(** int main(int argc, char **argv): [argv] with the program name first,
    [fopen] the files that can be opened, [pad] the last byte of the
    buffer, which fread leaves as allocated.  The result has the value
    main returns. *)
Definition main (fuel : nat) (argv : list string)
    (fopen : string → option (list byte)) (pad : byte)
    (t : Terminal) (h : Host)
  : result (Z * Terminal * Host) :=
  match argv with
  | [_; path] =>
      match fopen path with
      | None =>
          Ok (0, printf (String.append "can't open file: "
                           (String.append path nl)) t, h)
      | Some file =>
          let n := Z.of_nat (length file) in
          '(_, vm) ← LoadImage (Some (file ++ [pad])) (wrap_int n) VM_init;
          '(_, t1, h1) ← Run_session fuel vm t h;
          Ok (0, t1, h1)
      end
  | _ => Ok (0, printf (String.append "Usage: lc3 <image-file>" nl) t, h)
  end.

End Termios.

(** Settings of a terminal in canonical mode with echo, with the Linux
    values of the flags (ISIG 1, ICANON 2, ECHO 8, ...). *)
Definition host_cooked : Host :=
  {| tty_settings :=
       {| c_iflag := 0x4500; c_oflag := 0x5; c_cflag := 0xBF;
          c_lflag := 0x8A3B; c_cc := [3; 28; 127; 21; 4] |};
     original_tio :=
       {| c_iflag := 0; c_oflag := 0; c_cflag := 0; c_lflag := 0;
          c_cc := [] |} |}.

(** ** Terminal histories *)

(** [t'] comes after [t]: input has only been taken from the front of what
    was typed, output has only been appended. *)
Definition io_extends (t t' : Terminal) : Prop :=
  (∃ consumed, stdin t = consumed ++ stdin t')
  ∧ (∃ out, stdout t' = stdout t ++ out).

(** * Properties *)

(** ** Machine integers *)

Lemma wrap16_range (z : Z) : 0 <= wrap16 z < 65536.
Proof. unfold wrap16. apply Z.mod_pos_bound. lia. Qed.

Lemma wrap16_small (z : Z) : 0 <= z < 65536 → wrap16 z = z.
Proof. intros Hz. unfold wrap16. apply Z.mod_small. exact Hz. Qed.

Lemma is_u16_spec (z : Z) : is_u16 z = true ↔ 0 <= z < 65536.
Proof. unfold is_u16. rewrite andb_true_iff, Z.leb_le, Z.ltb_lt. tauto. Qed.

Lemma is_u16_wrap16 (z : Z) : is_u16 (wrap16 z) = true.
Proof. apply is_u16_spec, wrap16_range. Qed.

Lemma truthy_b2z (b : bool) : truthy (Z.b2z b) = b.
Proof. destruct b; reflexivity. Qed.

(** (x >> k) & 1 is bit [k] of [x]. *)
Lemma land_shiftr_1 (x k : Z) :
  0 <= k → Z.land (Z.shiftr x k) 1 = Z.b2z (Z.testbit x k).
Proof.
  intros Hk. change 1 with (Z.ones 1) at 1.
  rewrite Z.land_ones by lia. change (2 ^ 1) with 2.
  rewrite <- Z.bit0_mod, Z.shiftr_spec by lia. reflexivity.
Qed.

Lemma testbit_above (x n i : Z) :
  0 <= n → 0 <= x < 2 ^ n → n <= i → Z.testbit x i = false.
Proof.
  intros Hn Hx Hi. rewrite <- (Z.mod_small x (2 ^ n)) by exact Hx.
  apply Z.mod_pow2_bits_high. lia.
Qed.

(** Two integers with no bit in common: their bitwise or is their sum. *)
Lemma lor_disjoint_add (a b : Z) : Z.land a b = 0 → Z.lor a b = a + b.
Proof.
  intros H. rewrite <- (Z.lxor_lor a b H). symmetry.
  apply Z.add_nocarry_lxor. exact H.
Qed.

Lemma land_shiftl_low (a x n : Z) :
  0 <= n → 0 <= x < 2 ^ n → Z.land (Z.shiftl a n) x = 0.
Proof.
  intros Hn Hx. apply Z.bits_inj'. intros i Hi.
  rewrite Z.land_spec, Z.bits_0.
  destruct (Z.lt_ge_cases i n) as [Hlt | Hge].
  - rewrite Z.shiftl_spec_low by lia. reflexivity.
  - rewrite (testbit_above x n i) by lia. apply andb_false_r.
Qed.

(** ** SignExtend *)

Section SignExtend.

Variables (x n : Z).
Hypothesis Hn : 1 <= n <= 15.
Hypothesis Hx : 0 <= x < 2 ^ n.

Lemma SignExtend_nonneg : Z.testbit x (n - 1) = false → SignExtend x n = x.
Proof.
  intros Hb. unfold SignExtend.
  rewrite land_shiftr_1 by lia. rewrite Hb. reflexivity.
Qed.

Lemma SignExtend_neg_lor :
  Z.testbit x (n - 1) = true →
  SignExtend x n = wrap16 (Z.lor (Z.shiftl 0xFFFF n) x).
Proof.
  intros Hb. unfold SignExtend.
  rewrite land_shiftr_1 by lia. rewrite Hb. reflexivity.
Qed.

Lemma SignExtend_neg :
  Z.testbit x (n - 1) = true → SignExtend x n = x - 2 ^ n + 65536.
Proof.
  intros Hb. rewrite SignExtend_neg_lor by exact Hb.
  rewrite lor_disjoint_add by (apply land_shiftl_low; lia).
  rewrite Z.shiftl_mul_pow2 by lia. unfold wrap16.
  assert (Hp : 2 <= 2 ^ n <= 2 ^ 15).
  { split.
    - change 2 with (2 ^ 1) at 1. apply Z.pow_le_mono_r; lia.
    - apply Z.pow_le_mono_r; lia. }
  change (2 ^ 15) with 32768 in Hp.
  replace (65535 * 2 ^ n + x) with (x - 2 ^ n + 65536 + (2 ^ n - 1) * 65536)
    by ring.
  rewrite Z_mod_plus_full. apply Z.mod_small. lia.
Qed.

Lemma SignExtend_high_bits (i : Z) :
  Z.testbit x (n - 1) = true → n <= i < 16 →
  Z.testbit (SignExtend x n) i = true.
Proof.
  intros Hb Hi. rewrite SignExtend_neg_lor by exact Hb. unfold wrap16.
  change 65536 with (2 ^ 16). rewrite Z.mod_pow2_bits_low by lia.
  rewrite Z.lor_spec, Z.shiftl_spec by lia.
  change 65535 with (Z.ones 16). rewrite Z.ones_spec_low by lia.
  reflexivity.
Qed.

Lemma SignExtend_low_bits (i : Z) :
  0 <= i < n → Z.testbit (SignExtend x n) i = Z.testbit x i.
Proof.
  intros Hi. destruct (Z.testbit x (n - 1)) eqn:Hb.
  - rewrite SignExtend_neg_lor by exact Hb. unfold wrap16.
    change 65536 with (2 ^ 16). rewrite Z.mod_pow2_bits_low by lia.
    rewrite Z.lor_spec, Z.shiftl_spec_low by lia. reflexivity.
  - rewrite SignExtend_nonneg by exact Hb. reflexivity.
Qed.

Lemma SignExtend_range : 0 <= SignExtend x n < 65536.
Proof.
  destruct (Z.testbit x (n - 1)) eqn:Hb.
  - rewrite SignExtend_neg_lor by exact Hb. apply wrap16_range.
  - rewrite SignExtend_nonneg by exact Hb.
    assert (2 ^ n <= 2 ^ 15) by (apply Z.pow_le_mono_r; lia).
    change (2 ^ 15) with 32768 in *. lia.
Qed.

End SignExtend.

(** C10.  Sign extension of an n-bit field, n one of 5, 6, 9 and 11, to
    16 bits follows two's complement: when bit n-1 of the field x is 1 the
    result is x - 2^n modulo 2^16, its bits n to 15 are all 1 and its low n
    bits are those of x; when bit n-1 is 0 the result is x.  Extending
    0b11111 from 5 bits gives 0xFFFF, extending 0b00001 gives 0x0001. *)
Theorem SignExtend_twos_complement (n x : Z) :
  n = 5 ∨ n = 6 ∨ n = 9 ∨ n = 11 →
  0 <= x < 2 ^ n →
  (Z.testbit x (n - 1) = true →
     SignExtend x n = (x - 2 ^ n) mod 2 ^ 16
     ∧ (∀ i, n <= i < 16 → Z.testbit (SignExtend x n) i = true)
     ∧ (∀ i, 0 <= i < n → Z.testbit (SignExtend x n) i = Z.testbit x i))
  ∧ (Z.testbit x (n - 1) = false → SignExtend x n = x)
  ∧ SignExtend 0x1F 5 = 0xFFFF
  ∧ SignExtend 0x01 5 = 0x0001.
Proof.
  intros Hn Hx.
  assert (Hn' : 1 <= n <= 15) by lia.
  split; [| split; [| split; reflexivity]].
  - intros Hb. split; [| split].
    + rewrite (SignExtend_neg x n Hn' Hx Hb).
      assert (2 ^ n <= 2 ^ 15) by (apply Z.pow_le_mono_r; lia).
      change (2 ^ 15) with 32768 in *. change (2 ^ 16) with 65536.
      symmetry. rewrite <- (Z_mod_plus_full (x - 2 ^ n) 1 65536).
      apply Z.mod_small. lia.
    + intros i Hi. apply SignExtend_high_bits; assumption.
    + intros i Hi. apply SignExtend_low_bits; assumption.
  - apply SignExtend_nonneg; assumption.
Qed.

Lemma SignExtend_twos_complement_witness :
  (Z.testbit 0x1FD (9 - 1) = true →
     SignExtend 0x1FD 9 = (0x1FD - 2 ^ 9) mod 2 ^ 16
     ∧ (∀ i, 9 <= i < 16 → Z.testbit (SignExtend 0x1FD 9) i = true)
     ∧ (∀ i, 0 <= i < 9 →
          Z.testbit (SignExtend 0x1FD 9) i = Z.testbit 0x1FD i))
  ∧ (Z.testbit 0x1FD (9 - 1) = false → SignExtend 0x1FD 9 = 0x1FD)
  ∧ SignExtend 0x1F 5 = 0xFFFF
  ∧ SignExtend 0x01 5 = 0x0001.
Proof.
  apply (SignExtend_twos_complement 9 0x1FD).
  - right; right; left; reflexivity.
  - lia.
Defined.

(** ** The result monad *)

Lemma bind_Ok_inv {A B : Type} (k : A → result B) (m : result A) (b : B) :
  m ≫= k = Ok b → ∃ a, m = Ok a ∧ k a = Ok b.
Proof. destruct m as [a | f]; [eauto | discriminate]. Qed.

(** Splits a hypothesis [x ← m; k = Ok b] into [m = Ok a] and [k a = Ok b]. *)
Ltac bind_inv H :=
  let a := fresh "a" in
  let Ha := fresh "Hm" in
  apply bind_Ok_inv in H; destruct H as (a & Ha & H).

(** Closes a goal on array indices once the constants are numerals. *)
Ltac idx :=
  unfold kKeyboardStatus, kKeyboardData, kMaxMemory, UINT16_MAX, kRegCnt,
    kRCond, kRPC, kR0, kR7 in *;
  lia.

(** ** Registers and memory cells *)

Lemma byte_val_range (b : byte) : 0 <= byte_val b < 256.
Proof. unfold byte_val. pose proof (Byte.to_N_bounded b). lia. Qed.

Lemma VM_wf_spec (vm : VM) :
  VM_wf vm = true ↔
  length (memory_ vm) = Z.to_nat kMaxMemory
  ∧ length (reg_ vm) = Z.to_nat kRegCnt
  ∧ Forall (λ z, is_u16 z = true) (memory_ vm)
  ∧ Forall (λ z, is_u16 z = true) (reg_ vm).
Proof.
  unfold VM_wf. rewrite !andb_true_iff, !Nat.eqb_eq.
  rewrite !Forall_forall, !forallb_forall.
  setoid_rewrite list_elem_of_In. tauto.
Qed.

Lemma reg_u16 (vm : VM) (r : Z) : VM_wf vm = true → 0 <= reg vm r < 65536.
Proof.
  intros (_ & _ & _ & Hr)%VM_wf_spec. unfold reg.
  destruct (reg_ vm !! Z.to_nat r) as [v |] eqn:E; simpl; [| lia].
  apply is_u16_spec. exact (proj1 (Forall_lookup _ _) Hr _ _ E).
Qed.

Lemma reg_set_reg_eq (vm : VM) (r v : Z) :
  (Z.to_nat r < length (reg_ vm))%nat → reg (set_reg r v vm) r = v.
Proof.
  intros Hr. unfold reg, set_reg; simpl.
  rewrite list_lookup_insert_eq by exact Hr. reflexivity.
Qed.

Lemma reg_set_reg_ne (vm : VM) (r r' v : Z) :
  0 <= r → 0 <= r' → r ≠ r' → reg (set_reg r v vm) r' = reg vm r'.
Proof.
  intros Hr Hr' Hne. unfold reg, set_reg; simpl.
  rewrite list_lookup_insert_ne by lia. reflexivity.
Qed.

Lemma set_reg_wf (vm : VM) (r v : Z) :
  VM_wf vm = true → 0 <= v < 65536 → VM_wf (set_reg r v vm) = true.
Proof.
  rewrite !VM_wf_spec. intros (Hm & Hl & Hmu & Hru) Hv. unfold set_reg; simpl.
  rewrite length_insert. repeat split; try assumption.
  apply Forall_insert; [assumption | apply is_u16_spec; exact Hv].
Qed.

Lemma land_ones_range (x k : Z) : 0 <= k → 0 <= Z.land x (Z.ones k) < 2 ^ k.
Proof.
  intros Hk. rewrite Z.land_ones by exact Hk. apply Z.mod_pos_bound.
  apply Z.pow_pos_nonneg; lia.
Qed.

Lemma R0_range (instr : Z) : 0 <= R0 instr <= 7.
Proof.
  pose proof (land_ones_range (Z.shiftr instr 9) 3 ltac:(lia)) as H.
  change (Z.ones 3) with 7 in H. change (2 ^ 3) with 8 in H. unfold R0. lia.
Qed.

Lemma R1_range (instr : Z) : 0 <= R1 instr <= 7.
Proof.
  pose proof (land_ones_range (Z.shiftr instr 6) 3 ltac:(lia)) as H.
  change (Z.ones 3) with 7 in H. change (2 ^ 3) with 8 in H. unfold R1. lia.
Qed.

Lemma load_inv (mem : list Z) (i w : Z) :
  load mem i = Ok w → mem !! Z.to_nat i = Some w.
Proof. unfold load. destruct (mem !! Z.to_nat i); congruence. Qed.

Lemma load_in_bounds (mem : list Z) (i : Z) :
  (Z.to_nat i < length mem)%nat →
  ∃ w, mem !! Z.to_nat i = Some w ∧ load mem i = Ok w.
Proof.
  intros Hi. destruct (lookup_lt_is_Some_2 mem _ Hi) as [w Hw].
  exists w. unfold load. rewrite Hw. auto.
Qed.

Lemma load_out_of_bounds (mem : list Z) (i : Z) :
  (length mem <= Z.to_nat i)%nat → load mem i = Err (OobRead i).
Proof.
  intros Hi. unfold load. rewrite (lookup_ge_None_2 mem _ Hi). reflexivity.
Qed.

Lemma store_in_bounds (mem : list Z) (i v : Z) :
  (Z.to_nat i < length mem)%nat →
  store mem i v = Ok (<[Z.to_nat i := v]> mem).
Proof.
  intros Hi. destruct (lookup_lt_is_Some_2 mem _ Hi) as [w Hw].
  unfold store. rewrite Hw. reflexivity.
Qed.

Lemma store_out_of_bounds (mem : list Z) (i v : Z) :
  (length mem <= Z.to_nat i)%nat → store mem i v = Err (OobWrite i).
Proof.
  intros Hi. unfold store. rewrite (lookup_ge_None_2 mem _ Hi). reflexivity.
Qed.

Lemma store_inv (mem mem' : list Z) (i v : Z) :
  store mem i v = Ok mem' →
  (Z.to_nat i < length mem)%nat ∧ mem' = <[Z.to_nat i := v]> mem.
Proof.
  unfold store. destruct (mem !! Z.to_nat i) as [w |] eqn:E; [| discriminate].
  intros [= <-]. split; [| reflexivity]. eapply lookup_lt_Some, E.
Qed.

Lemma mem_store_inv (vm vm' : VM) (i v : Z) :
  mem_store i v vm = Ok vm' →
  (Z.to_nat i < length (memory_ vm))%nat
  ∧ vm' = {| memory_ := <[Z.to_nat i := v]> (memory_ vm); reg_ := reg_ vm |}.
Proof.
  unfold mem_store. intros H. bind_inv H. apply store_inv in Hm as [Hi ->].
  injection H as <-. auto.
Qed.

Lemma mem_store_in_bounds (vm : VM) (i v : Z) :
  (Z.to_nat i < length (memory_ vm))%nat →
  mem_store i v vm
  = Ok {| memory_ := <[Z.to_nat i := v]> (memory_ vm); reg_ := reg_ vm |}.
Proof.
  intros Hi. unfold mem_store. rewrite (store_in_bounds _ _ _ Hi). reflexivity.
Qed.

Lemma mem_store_wf (vm vm' : VM) (i v : Z) :
  VM_wf vm = true → 0 <= v < 65536 → mem_store i v vm = Ok vm' →
  VM_wf vm' = true.
Proof.
  intros Hwf Hv (_ & ->)%mem_store_inv. revert Hwf. rewrite !VM_wf_spec; simpl.
  intros (Hm & Hl & Hmu & Hru). rewrite length_insert.
  repeat split; try assumption.
  apply Forall_insert; [assumption | apply is_u16_spec; exact Hv].
Qed.

Lemma mem_store_reg (vm vm' : VM) (i v r : Z) :
  mem_store i v vm = Ok vm' → reg vm' r = reg vm r.
Proof. intros (_ & ->)%mem_store_inv. reflexivity. Qed.

(** ** UpdateFlag *)

Lemma shiftr_15_sign (v : Z) :
  0 <= v < 65536 → truthy (Z.shiftr v 15) = Z.testbit v 15.
Proof.
  intros Hv. rewrite <- (truthy_b2z (Z.testbit v 15)).
  rewrite <- land_shiftr_1 by lia.
  assert (Hq : Z.shiftr v 15 = 0 ∨ Z.shiftr v 15 = 1).
  { rewrite Z.shiftr_div_pow2 by lia. change (2 ^ 15) with 32768.
    assert (0 <= v / 32768 < 2); [| lia].
    split; [apply Z.div_pos; lia | apply Z.div_lt_upper_bound; lia]. }
  destruct Hq as [-> | ->]; reflexivity.
Qed.

Lemma UpdateFlag_cases (r : Z) (vm : VM) :
  ∃ f, (f = kFlPos ∨ f = kFlZro ∨ f = kFlNeg)
       ∧ UpdateFlag r vm = set_reg kRCond f vm.
Proof.
  unfold UpdateFlag.
  destruct (reg vm r =? 0); [eauto |].
  destruct (truthy (Z.shiftr (reg vm r) 15)); eauto.
Qed.

Lemma UpdateFlag_memory (r : Z) (vm : VM) :
  memory_ (UpdateFlag r vm) = memory_ vm.
Proof. destruct (UpdateFlag_cases r vm) as (f & _ & ->). reflexivity. Qed.

Lemma UpdateFlag_reg (r r' : Z) (vm : VM) :
  0 <= r' → r' ≠ kRCond → reg (UpdateFlag r vm) r' = reg vm r'.
Proof.
  intros Hr Hne. destruct (UpdateFlag_cases r vm) as (f & _ & ->).
  apply reg_set_reg_ne; unfold kRCond in *; lia.
Qed.

Lemma UpdateFlag_wf (r : Z) (vm : VM) :
  VM_wf vm = true → VM_wf (UpdateFlag r vm) = true.
Proof.
  intros Hwf. destruct (UpdateFlag_cases r vm) as (f & Hf & ->).
  apply set_reg_wf; [exact Hwf |].
  destruct Hf as [-> | [-> | ->]]; vm_compute; split; congruence.
Qed.

Lemma reg_length_wf (vm : VM) :
  VM_wf vm = true → length (reg_ vm) = Z.to_nat kRegCnt.
Proof. intros (_ & H & _)%VM_wf_spec. exact H. Qed.

Lemma mem_length_wf (vm : VM) :
  VM_wf vm = true → length (memory_ vm) = Z.to_nat kMaxMemory.
Proof. intros (H & _)%VM_wf_spec. exact H. Qed.

(** The flag rule: the flags written for the value of register [r]. *)
Lemma UpdateFlag_flags (r : Z) (vm : VM) :
  VM_wf vm = true →
  reg (UpdateFlag r vm) kRCond
  = if Z.testbit (reg vm r) 15 then kFlNeg
    else if reg vm r =? 0 then kFlZro else kFlPos.
Proof.
  intros Hwf. pose proof (reg_u16 vm r Hwf) as Hv.
  pose proof (reg_length_wf vm Hwf) as Hl.
  assert (Hc : (Z.to_nat kRCond < length (reg_ vm))%nat)
    by (rewrite Hl; idx).
  unfold UpdateFlag. rewrite shiftr_15_sign by exact Hv.
  destruct (Z.eqb_spec (reg vm r) 0) as [E | E].
  - rewrite E. simpl. apply reg_set_reg_eq, Hc.
  - destruct (Z.testbit (reg vm r) 15); apply reg_set_reg_eq, Hc.
Qed.

(** ** MemRead *)

Lemma poll_keyboard_pending (vm : VM) (t : Terminal) (c : byte) (rest : list byte) :
  VM_wf vm = true → stdin t = c :: rest →
  poll_keyboard vm t
  = Ok ({| memory_ := <[Z.to_nat kKeyboardData := byte_val c]>
                        (<[Z.to_nat kKeyboardStatus := 0x8000]> (memory_ vm));
           reg_ := reg_ vm |},
        {| stdin := rest; stdout := stdout t |}).
Proof.
  intros Hwf Hin. pose proof (mem_length_wf vm Hwf) as Hl.
  unfold poll_keyboard, CheckKey, getchar. rewrite Hin.
  rewrite mem_store_in_bounds by (rewrite Hl; idx).
  cbn [mbind result_bind].
  rewrite mem_store_in_bounds
    by (cbn [memory_]; rewrite length_insert, Hl; idx).
  cbn [mbind result_bind memory_ reg_].
  rewrite (wrap16_small (byte_val c)) by (pose proof (byte_val_range c); lia).
  reflexivity.
Qed.

Lemma poll_keyboard_idle (vm : VM) (t : Terminal) :
  VM_wf vm = true → stdin t = [] →
  poll_keyboard vm t
  = Ok ({| memory_ := <[Z.to_nat kKeyboardStatus := 0]> (memory_ vm);
           reg_ := reg_ vm |}, t).
Proof.
  intros Hwf Hin. pose proof (mem_length_wf vm Hwf) as Hl.
  unfold poll_keyboard, CheckKey. rewrite Hin.
  rewrite mem_store_in_bounds by (rewrite Hl; idx).
  reflexivity.
Qed.

Lemma poll_keyboard_total (vm : VM) (t : Terminal) :
  VM_wf vm = true →
  ∃ vm' t', poll_keyboard vm t = Ok (vm', t')
            ∧ VM_wf vm' = true ∧ reg_ vm' = reg_ vm ∧ stdout t' = stdout t.
Proof.
  intros Hwf. destruct (stdin t) as [| c rest] eqn:Hin.
  - rewrite (poll_keyboard_idle vm t Hwf Hin). do 2 eexists. split; [reflexivity |].
    split; [| auto].
    eapply (mem_store_wf vm _ kKeyboardStatus 0 Hwf); [lia |].
    apply mem_store_in_bounds. rewrite (mem_length_wf vm Hwf). idx.
  - rewrite (poll_keyboard_pending vm t c rest Hwf Hin).
    do 2 eexists. split; [reflexivity |]. split; [| auto].
    revert Hwf. rewrite !VM_wf_spec. cbn [memory_ reg_].
    intros (Hm & Hl & Hmu & Hru). rewrite !length_insert.
    repeat split; try assumption.
    apply Forall_insert; [apply Forall_insert; [assumption | reflexivity] |].
    apply is_u16_spec. pose proof (byte_val_range c). lia.
Qed.

(** A read at an address other than the keyboard status register is a
    plain array access. *)
Lemma MemRead_plain (addr : Z) (vm : VM) (t : Terminal) :
  addr ≠ kKeyboardStatus →
  MemRead addr vm t = (w ← load (memory_ vm) addr; Ok (w, vm, t)).
Proof.
  intros Hne. unfold MemRead.
  destruct (Z.eqb_spec addr kKeyboardStatus); [contradiction | reflexivity].
Qed.

Lemma MemRead_status (vm : VM) (t : Terminal) :
  MemRead kKeyboardStatus vm t
  = ('(vm', t') ← poll_keyboard vm t;
     w ← load (memory_ vm') kKeyboardStatus;
     Ok (w, vm', t')).
Proof. reflexivity. Qed.

Lemma MemRead_inv (addr w : Z) (vm vm' : VM) (t t' : Terminal) :
  VM_wf vm = true → MemRead addr vm t = Ok (w, vm', t') →
  VM_wf vm' = true ∧ reg_ vm' = reg_ vm ∧ stdout t' = stdout t
  ∧ 0 <= w < 65536
  ∧ (addr ≠ kKeyboardStatus → vm' = vm ∧ t' = t).
Proof.
  intros Hwf H. unfold MemRead in H.
  destruct (Z.eqb_spec addr kKeyboardStatus) as [-> | Hne].
  - destruct (poll_keyboard_total vm t Hwf) as (vm1 & t1 & Hp & Hwf1 & Hr & Ht).
    rewrite Hp in H. cbn [mbind result_bind] in H.
    bind_inv H. injection H as <- <- <-. apply load_inv in Hm.
    repeat split; try assumption; try contradiction.
    + apply is_u16_spec.
      apply VM_wf_spec in Hwf1 as (_ & _ & Hmu & _).
      exact (proj1 (Forall_lookup _ _) Hmu _ _ Hm).
    + apply is_u16_spec.
      apply VM_wf_spec in Hwf1 as (_ & _ & Hmu & _).
      exact (proj1 (Forall_lookup _ _) Hmu _ _ Hm).
  - cbn [mbind result_bind] in H. bind_inv H. injection H as <- <- <-.
    apply load_inv in Hm.
    assert (Hw : is_u16 a = true).
    { apply VM_wf_spec in Hwf as (_ & _ & Hmu & _).
      exact (proj1 (Forall_lookup _ _) Hmu _ _ Hm). }
    apply is_u16_spec in Hw. repeat split; auto; lia.
Qed.

Lemma MemRead_in_bounds (addr : Z) (vm : VM) (t : Terminal) :
  VM_wf vm = true → 0 <= addr < kMaxMemory →
  ∃ w vm' t', MemRead addr vm t = Ok (w, vm', t').
Proof.
  intros Hwf Ha. unfold MemRead.
  destruct (Z.eqb_spec addr kKeyboardStatus) as [-> | Hne].
  - destruct (poll_keyboard_total vm t Hwf) as (vm1 & t1 & Hp & Hwf1 & _).
    rewrite Hp. cbn [mbind result_bind].
    destruct (load_in_bounds (memory_ vm1) kKeyboardStatus) as (w & _ & Hw).
    { rewrite (mem_length_wf vm1 Hwf1). idx. }
    rewrite Hw. eauto.
  - cbn [mbind result_bind].
    destruct (load_in_bounds (memory_ vm) addr) as (w & _ & Hw).
    { rewrite (mem_length_wf vm Hwf). idx. }
    rewrite Hw. eauto.
Qed.

Lemma MemRead_status_pending
  (vm : VM) (t : Terminal) (c : byte) (rest : list byte) :
  VM_wf vm = true → stdin t = c :: rest →
  MemRead kKeyboardStatus vm t
  = Ok (0x8000,
        {| memory_ := <[Z.to_nat kKeyboardData := byte_val c]>
                        (<[Z.to_nat kKeyboardStatus := 0x8000]> (memory_ vm));
           reg_ := reg_ vm |},
        {| stdin := rest; stdout := stdout t |}).
Proof.
  intros Hwf Hin. pose proof (mem_length_wf vm Hwf) as Hl.
  rewrite MemRead_status, (poll_keyboard_pending vm t c rest Hwf Hin).
  cbn [mbind result_bind memory_]. unfold load.
  rewrite list_lookup_insert_ne by idx.
  rewrite list_lookup_insert_eq by (rewrite Hl; idx). reflexivity.
Qed.

Lemma MemRead_status_idle (vm : VM) (t : Terminal) :
  VM_wf vm = true → stdin t = [] →
  MemRead kKeyboardStatus vm t
  = Ok (0,
        {| memory_ := <[Z.to_nat kKeyboardStatus := 0]> (memory_ vm);
           reg_ := reg_ vm |}, t).
Proof.
  intros Hwf Hin. pose proof (mem_length_wf vm Hwf) as Hl.
  rewrite MemRead_status, (poll_keyboard_idle vm t Hwf Hin).
  cbn [mbind result_bind memory_]. unfold load.
  rewrite list_lookup_insert_eq by (rewrite Hl; idx). reflexivity.
Qed.

Lemma MemRead_cells (addr w : Z) (vm vm' : VM) (t t' : Terminal) :
  VM_wf vm = true → MemRead addr vm t = Ok (w, vm', t') →
  ∀ a, 0 <= a → a ≠ kKeyboardStatus → a ≠ kKeyboardData →
       memory_ vm' !! Z.to_nat a = memory_ vm !! Z.to_nat a.
Proof.
  intros Hwf H a Ha Hs Hd.
  destruct (Z.eq_dec addr kKeyboardStatus) as [-> | Hne].
  - destruct (stdin t) as [| c rest] eqn:Hin.
    + rewrite (MemRead_status_idle vm t Hwf Hin) in H.
      injection H as _ <- _. cbn [memory_].
      apply list_lookup_insert_ne. idx.
    + rewrite (MemRead_status_pending vm t c rest Hwf Hin) in H.
      injection H as _ <- _. cbn [memory_].
      rewrite !list_lookup_insert_ne by idx. reflexivity.
  - destruct (MemRead_inv _ _ _ _ _ _ Hwf H) as (_ & _ & _ & _ & Hsame).
    destruct (Hsame Hne) as [-> _]. reflexivity.
Qed.

(** C1, as amended.  A read at address 0xFE00, in bounds like every 16-bit
    address below 0xFFFF, first polls the keyboard: with a character
    pending Memory[0xFE00] becomes 0x8000 (bit 15 set) and the character is
    moved into Memory[0xFE02], with none pending Memory[0xFE00] is cleared;
    the word at 0xFE00 is returned after that.  A read at any other address
    does not poll: it returns the word there and leaves memory and the
    pending input as they were.  LDI reads twice through MemRead, so each
    of its reads polls exactly when its own address is 0xFE00. *)
Theorem MemRead_polls_at_status_only (vm : VM) (t : Terminal) (addr : Z) :
  VM_wf vm = true → 0 <= addr < kMaxMemory →
  (addr = kKeyboardStatus →
     (∀ c rest, stdin t = c :: rest →
        MemRead addr vm t
        = Ok (0x8000,
              {| memory_ := <[Z.to_nat kKeyboardData := byte_val c]>
                              (<[Z.to_nat kKeyboardStatus := 0x8000]> (memory_ vm));
                 reg_ := reg_ vm |},
              {| stdin := rest; stdout := stdout t |}))
     ∧ (stdin t = [] →
        MemRead addr vm t
        = Ok (0,
              {| memory_ := <[Z.to_nat kKeyboardStatus := 0]> (memory_ vm);
                 reg_ := reg_ vm |},
              t)))
  ∧ (addr ≠ kKeyboardStatus →
     ∃ w, memory_ vm !! Z.to_nat addr = Some w
          ∧ MemRead addr vm t = Ok (w, vm, t))
  ∧ (∀ instr, Z.shiftr instr 12 = kOpLdi →
     exec instr vm t
     = ('(a, vm1, t1) ← MemRead (pc_offset9 instr vm) vm t;
        '(w, vm2, t2) ← MemRead a vm1 t1;
        Ok (UpdateFlag (R0 instr) (set_reg (R0 instr) w vm2), t2, true))).
Proof.
  intros Hwf Ha. pose proof (mem_length_wf vm Hwf) as Hl.
  split; [| split].
  - intros ->. rewrite MemRead_status. split.
    + intros c rest Hin. rewrite (poll_keyboard_pending vm t c rest Hwf Hin).
      cbn [mbind result_bind memory_]. unfold load.
      rewrite list_lookup_insert_ne by idx.
      rewrite list_lookup_insert_eq by (rewrite Hl; idx). reflexivity.
    + intros Hin. rewrite (poll_keyboard_idle vm t Hwf Hin).
      cbn [mbind result_bind memory_]. unfold load.
      rewrite list_lookup_insert_eq by (rewrite Hl; idx). reflexivity.
  - intros Hne. rewrite (MemRead_plain addr vm t Hne).
    destruct (load_in_bounds (memory_ vm) addr) as (w & Hw & Hload).
    { rewrite Hl. idx. }
    exists w. rewrite Hload. auto.
  - intros instr Hop. unfold exec. rewrite Hop. reflexivity.
Qed.

Lemma MemRead_polls_at_status_only_witness :
  MemRead kKeyboardStatus VM_init tty_key_a
  = Ok (0x8000,
        {| memory_ := <[Z.to_nat kKeyboardData := byte_val x61]>
                        (<[Z.to_nat kKeyboardStatus := 0x8000]> (memory_ VM_init));
           reg_ := reg_ VM_init |},
        {| stdin := []; stdout := stdout tty_key_a |}).
Proof.
  refine (proj1 (proj1 (MemRead_polls_at_status_only VM_init tty_key_a
                          kKeyboardStatus _ _) _) x61 [] _).
  - vm_compute. reflexivity.
  - idx.
  - reflexivity.
  - reflexivity.
Defined.

(** C1 as stated fails: with the key "a" pending, a read at x3000 returns
    the word there and polls nothing; bit 15 of Memory[0xFE00] stays clear,
    Memory[0xFE02] stays 0 and the key stays pending. *)
Lemma MemRead_ordinary_address_no_poll :
  ∃ w vm' t',
    CheckKey tty_key_a = true
    ∧ MemRead 0x3000 VM_init tty_key_a = Ok (w, vm', t')
    ∧ (λ s, Z.testbit s 15) <$> memory_ vm' !! Z.to_nat kKeyboardStatus
      = Some false
    ∧ memory_ vm' !! Z.to_nat kKeyboardData = Some 0
    ∧ stdin t' = [x61].
Proof.
  exists 0, VM_init, tty_key_a. repeat split; vm_compute; reflexivity.
Qed.

(** C2.  The array has UINT16_MAX = 65535 words, so its last index is
    0xFFFE: address 0xFFFF is outside it, for a read and for a write, and
    a program that loads from or stores to 0xFFFF leaves defined
    behaviour. *)
Theorem memory_last_address_out_of_bounds :
  Z.of_nat (length (memory_ VM_init)) = 65535
  ∧ load (memory_ VM_init) 0xFFFF = Err (OobRead 0xFFFF)
  ∧ store (memory_ VM_init) 0xFFFF 0 = Err (OobWrite 0xFFFF)
  ∧ MemRead 0xFFFF VM_init tty_idle = Err (OobRead 0xFFFF)
  ∧ main_body 10 image_load_last x00 tty_idle = Err (OobRead 0xFFFF)
  ∧ main_body 10 image_store_last x00 tty_idle = Err (OobWrite 0xFFFF).
Proof. repeat split; vm_compute; reflexivity. Qed.

(** ** One iteration of the loop *)

Lemma opcode_cases (instr : Z) :
  0 <= instr < 65536 → 0 <= Z.shiftr instr 12 < 16.
Proof.
  intros Hi. rewrite Z.shiftr_div_pow2 by lia. change (2 ^ 12) with 4096.
  split; [apply Z.div_pos; lia | apply Z.div_lt_upper_bound; lia].
Qed.

(** Splits an [Ok] result of a sequence of binds into its steps. *)
Ltac inv_result H :=
  repeat first
    [ progress (cbn beta iota in H)
    | match type of H with
      | (let '(_, _) := ?p in _) = _ => destruct p
      | _ ≫= _ = Ok _ =>
          let a := fresh "a" in
          let E := fresh "E" in
          apply bind_Ok_inv in H; destruct H as (a & E & H)
      end ];
  try (injection H as <- <- <-).

(** Case analysis on the tests of [exec] or [trap] in a hypothesis. *)
Ltac split_tests H :=
  repeat match type of H with
         | context [if ?b then _ else _] => destruct b eqn:?
         end.

Lemma trap_inv (instr : Z) (vm vm' : VM) (t t' : Terminal) (running : bool) :
  VM_wf vm = true → trap instr vm t = Ok (vm', t', running) →
  VM_wf vm' = true
  ∧ memory_ vm' = memory_ vm
  ∧ (∀ r, 1 <= r <= 8 → reg vm' r = reg vm r)
  ∧ running = negb (Z.land instr 0xFF =? kTrapHalt)
  ∧ (Z.land instr 0xFF = kTrapGetc ∨ Z.land instr 0xFF = kTrapIn →
     ∃ vm1, VM_wf vm1 = true ∧ vm' = UpdateFlag kR0 vm1)
  ∧ (Z.land instr 0xFF ≠ kTrapGetc → Z.land instr 0xFF ≠ kTrapIn →
     reg vm' kRCond = reg vm kRCond).
Proof.
  intros Hwf H. unfold trap in H.
  assert (Hset : ∀ v, VM_wf (set_reg kR0 (wrap16 v) vm) = true)
    by (intros v; apply set_reg_wf; [exact Hwf | apply wrap16_range]).
  assert (Hflag : ∀ v,
    VM_wf (UpdateFlag kR0 (set_reg kR0 (wrap16 v) vm)) = true
    ∧ memory_ (UpdateFlag kR0 (set_reg kR0 (wrap16 v) vm)) = memory_ vm
    ∧ (∀ r, 1 <= r <= 8 →
         reg (UpdateFlag kR0 (set_reg kR0 (wrap16 v) vm)) r = reg vm r)).
  { intros v. rewrite UpdateFlag_memory. repeat split.
    - apply UpdateFlag_wf, Hset.
    - intros r Hr. rewrite UpdateFlag_reg by idx. apply reg_set_reg_ne; idx. }
  split_tests H; inv_result H;
    repeat match goal with
           | E : (_ =? _) = true |- _ => apply Z.eqb_eq in E; rewrite E in *
           | E : (_ =? _) = false |- _ => apply Z.eqb_neq in E
           end;
    try (destruct (Hflag z) as (? & ? & ?));
    try (destruct (Hflag (to_char z)) as (? & ? & ?));
    repeat split; auto;
    try (intros [? | ?]; first [congruence | discriminate]);
    try (intros; congruence);
    try (destruct (Z.eqb_spec (Z.land instr 255) kTrapHalt);
         [contradiction | reflexivity]);
    eauto.
Qed.

Ltac eqb_facts :=
  repeat match goal with
         | E : (_ =? _) = true |- _ => apply Z.eqb_eq in E
         | E : (_ =? _) = false |- _ => apply Z.eqb_neq in E
         | E : (_ || _) = true |- _ => apply orb_true_iff in E
         | E : (_ || _) = false |- _ => apply orb_false_iff in E; destruct E
         end.

Ltac op_lia :=
  unfold kOpAdd, kOpAnd, kOpBr, kOpJmp, kOpJsr, kOpLd, kOpLdi, kOpLdr, kOpLea,
    kOpNot, kOpRti, kOpRes, kOpSt, kOpSti, kOpStr, kOpTrap,
    kTrapGetc, kTrapOut, kTrapPuts, kTrapIn, kTrapPutsp, kTrapHalt in *;
  lia.

(** Rewrites [exec instr vm t] in [H] to the case of the opcode given by
    [Hop : Z.shiftr instr 12 = kOp...]. *)
Ltac exec_case Hop H :=
  unfold exec in H; rewrite Hop in H;
  cbv beta iota zeta delta
    [Z.eqb Pos.eqb orb kOpAdd kOpAnd kOpBr kOpJmp kOpJsr kOpLd kOpLdi kOpLdr
     kOpLea kOpNot kOpRti kOpRes kOpSt kOpSti kOpStr kOpTrap] in H.

Ltac exec_case_goal Hop :=
  unfold exec; rewrite Hop;
  cbv beta iota zeta delta
    [Z.eqb Pos.eqb orb kOpAdd kOpAnd kOpBr kOpJmp kOpJsr kOpLd kOpLdi kOpLdr
     kOpLea kOpNot kOpRti kOpRes kOpSt kOpSti kOpStr kOpTrap].

Lemma MemRead_reg (addr w : Z) (vm vm' : VM) (t t' : Terminal) (r : Z) :
  VM_wf vm = true → MemRead addr vm t = Ok (w, vm', t') → reg vm' r = reg vm r.
Proof.
  intros Hwf H. apply MemRead_inv in H as (_ & Hr & _); [| exact Hwf].
  unfold reg. rewrite Hr. reflexivity.
Qed.

(** Facts on the results of the reads and stores found in the context. *)
Ltac use_reads :=
  repeat match goal with
         | Hwf : VM_wf ?vm = true, E : MemRead _ ?vm _ = Ok (_, _, _) |- _ =>
             let Hr := fresh "Hr" in
             pose proof (λ r, MemRead_reg _ _ _ _ _ _ r Hwf E) as Hr;
             apply MemRead_inv in E;
             [destruct E as (? & _ & ? & ? & ?) | exact Hwf]
         end.

Ltac wf_tac :=
  repeat first
    [ assumption
    | apply UpdateFlag_wf
    | apply set_reg_wf
    | apply wrap16_range
    | apply reg_u16
    | match goal with
      | E : mem_store _ _ ?vm = Ok ?vm' |- VM_wf ?vm' = true =>
          apply (mem_store_wf vm vm' _ _) with (3 := E)
      end ].

Lemma exec_wf (instr : Z) (vm vm' : VM) (t t' : Terminal) (running : bool) :
  VM_wf vm = true → exec instr vm t = Ok (vm', t', running) → VM_wf vm' = true.
Proof.
  intros Hwf H. unfold exec in H.
  split_tests H; inv_result H; use_reads; unfold pc_offset9, base_offset6 in *;
    try (wf_tac; fail).
  exact (proj1 (trap_inv _ _ _ _ _ _ Hwf H)).
Qed.

Lemma step_wf (vm vm' : VM) (t t' : Terminal) (running : bool) :
  VM_wf vm = true → step vm t = Ok (vm', t', running) → VM_wf vm' = true.
Proof.
  intros Hwf H. unfold step, fetch in H. inv_result H.
  assert (Hwf1 : VM_wf (set_reg kRPC (wrap16 (reg vm kRPC + 1)) vm) = true)
    by wf_tac.
  use_reads. eapply exec_wf; [| exact H]. assumption.
Qed.

Lemma Run_init_wf (vm : VM) : VM_wf vm = true → VM_wf (Run_init vm) = true.
Proof. intros Hwf. unfold Run_init. wf_tac; vm_compute; split; congruence. Qed.

Lemma reachable_wf (vm : VM) (t : Terminal) : reachable vm t → VM_wf vm = true.
Proof.
  induction 1 as [vm t Hwf | vm t vm' t' _ IH Hstep | vm t keys _ IH].
  - apply Run_init_wf, Hwf.
  - eapply step_wf; eassumption.
  - exact IH.
Qed.

(** Only the HALT trap and the two unused opcodes clear [running]. *)
Lemma exec_running (instr : Z) (vm vm' : VM) (t t' : Terminal) (running : bool) :
  0 <= instr < 65536 → exec instr vm t = Ok (vm', t', running) →
  running = false ↔
  Z.shiftr instr 12 = kOpRti ∨ Z.shiftr instr 12 = kOpRes
  ∨ (Z.shiftr instr 12 = kOpTrap ∧ Z.land instr 0xFF = kTrapHalt).
Proof.
  intros Hi H. pose proof (opcode_cases instr Hi) as Hop. unfold exec in H.
  split_tests H; [.. | unfold trap in H; split_tests H | ];
    inv_result H; eqb_facts; split; try discriminate; try op_lia; auto.
Qed.
Lemma fetch_inv (vm vm1 : VM) (t t1 : Terminal) (instr : Z) :
  VM_wf vm = true → fetch vm t = Ok (instr, vm1, t1) →
  VM_wf vm1 = true
  ∧ 0 <= instr < 65536
  ∧ reg vm1 kRPC = wrap16 (reg vm kRPC + 1)
  ∧ (∀ r, 0 <= r → r ≠ kRPC → reg vm1 r = reg vm r)
  ∧ stdout t1 = stdout t
  ∧ (reg vm kRPC ≠ kKeyboardStatus → memory_ vm1 = memory_ vm ∧ t1 = t).
Proof.
  intros Hwf H. unfold fetch in H.
  assert (Hwf1 : VM_wf (set_reg kRPC (wrap16 (reg vm kRPC + 1)) vm) = true)
    by wf_tac.
  pose proof (reg_length_wf vm Hwf) as Hl.
  use_reads. split; [assumption |]. split; [assumption |].
  split; [| split; [| split; [assumption |]]].
  - rewrite Hr. apply reg_set_reg_eq. rewrite Hl. idx.
  - intros r Hr0 Hne. rewrite Hr. apply reg_set_reg_ne; idx.
  - intros Hne.
    match goal with
    | Hsame : _ ≠ kKeyboardStatus → _ |- _ => destruct (Hsame Hne) as [-> ->]
    end.
    split; reflexivity.
Qed.

Lemma fetch_in_bounds (vm : VM) (t : Terminal) :
  VM_wf vm = true → reg vm kRPC < kMaxMemory →
  ∃ instr vm1 t1, fetch vm t = Ok (instr, vm1, t1).
Proof.
  intros Hwf Hpc. unfold fetch. apply MemRead_in_bounds; [wf_tac |].
  pose proof (reg_u16 vm kRPC Hwf). lia.
Qed.

(** C6, as amended.  When the fetched instruction has one of the two
    unused opcodes (0x8 RTI, 0xD reserved), executing it appends the text
    bad opcode to the output, clears [running] and returns the machine of
    after the fetch as it is: memory, the eight general registers and the
    condition flags are not touched by the instruction.  Compared with the
    state before the fetch, the general registers and the flags are the
    same and the program counter is one more; memory and the pending input
    are the same too, unless the instruction was fetched from 0xFE00.  In
    that case the poll of the fetch found a key: the instruction is the
    status word 0x8000 (an RTI), the key has gone to Memory[0xFE02],
    Memory[0xFE00] holds 0x8000 and every other cell is as before. *)
Theorem reserved_opcode_halts
  (vm vm1 : VM) (t t1 : Terminal) (instr : Z) :
  VM_wf vm = true → fetch vm t = Ok (instr, vm1, t1) →
  Z.shiftr instr 12 = kOpRti ∨ Z.shiftr instr 12 = kOpRes →
  exec instr vm1 t1 = Ok (vm1, printf "bad opcode" t1, false)
  ∧ step vm t = Ok (vm1, printf "bad opcode" t1, false)
  ∧ stdin (printf "bad opcode" t1) = stdin t1
  ∧ stdout (printf "bad opcode" t1)
    = stdout t ++ [x62; x61; x64; x20; x6f; x70; x63; x6f; x64; x65]
  ∧ (∀ r, 0 <= r <= 7 → reg vm1 r = reg vm r)
  ∧ reg vm1 kRCond = reg vm kRCond
  ∧ reg vm1 kRPC = wrap16 (reg vm kRPC + 1)
  ∧ (reg vm kRPC ≠ kKeyboardStatus → memory_ vm1 = memory_ vm ∧ t1 = t)
  ∧ (reg vm kRPC = kKeyboardStatus →
     instr = 0x8000
     ∧ (∃ c, stdin t = c :: stdin t1
             ∧ memory_ vm1 !! Z.to_nat kKeyboardData = Some (byte_val c))
     ∧ memory_ vm1 !! Z.to_nat kKeyboardStatus = Some 0x8000
     ∧ (∀ a, 0 <= a → a ≠ kKeyboardStatus → a ≠ kKeyboardData →
             memory_ vm1 !! Z.to_nat a = memory_ vm !! Z.to_nat a)).
Proof.
  intros Hwf Hf Hop.
  assert (Hexec : exec instr vm1 t1 = Ok (vm1, printf "bad opcode" t1, false))
    by (destruct Hop as [Hop | Hop]; exec_case_goal Hop; reflexivity).
  destruct (fetch_inv vm vm1 t t1 instr Hwf Hf)
    as (_ & _ & Hpc & Hregs & Hout & Hmem).
  assert (Hwf0 : VM_wf (set_reg kRPC (wrap16 (reg vm kRPC + 1)) vm) = true)
    by wf_tac.
  pose proof (mem_length_wf vm Hwf) as Hl.
  split; [exact Hexec |].
  split; [unfold step; rewrite Hf; exact Hexec |].
  split; [reflexivity |].
  split; [cbn [printf stdout]; rewrite Hout; reflexivity |].
  split; [intros r Hr; apply Hregs; idx |].
  split; [apply Hregs; idx |].
  split; [exact Hpc |].
  split; [exact Hmem |].
  intros Hat. unfold fetch in Hf. rewrite Hat in Hf, Hwf0.
  destruct (stdin t) as [| c rest] eqn:Hin.
  - rewrite (MemRead_status_idle _ t Hwf0 Hin) in Hf.
    injection Hf as <- _ _. destruct Hop as [Hop | Hop]; discriminate Hop.
  - rewrite (MemRead_status_pending _ t c rest Hwf0 Hin) in Hf.
    injection Hf as <- <- <-. cbn [memory_ set_reg stdin].
    split; [reflexivity |]. split; [| split].
    + exists c. split; [reflexivity |].
      apply list_lookup_insert_eq. rewrite length_insert, Hl. idx.
    + rewrite list_lookup_insert_ne by idx.
      apply list_lookup_insert_eq. rewrite Hl. idx.
    + intros a Ha Hs Hd. rewrite !list_lookup_insert_ne by idx. reflexivity.
Qed.

Lemma reserved_opcode_halts_witness :
  step (Run_init (vm_one 0xD000)) tty_key_a
  = Ok (set_reg kRPC 0x3001 (Run_init (vm_one 0xD000)),
        printf "bad opcode" tty_key_a, false).
Proof.
  refine (proj1 (proj2 (reserved_opcode_halts
                          (Run_init (vm_one 0xD000))
                          (set_reg kRPC 0x3001 (Run_init (vm_one 0xD000)))
                          tty_key_a tty_key_a 0xD000 _ _ _))).
  - reflexivity.
  - reflexivity.
  - right. reflexivity.
Defined.

(** C6 as stated fails: more than the increment of the program counter can
    have occurred.  With the program counter at 0xFE00, cleared memory and
    the key "a" pending, the fetch polls the keyboard and returns the status
    word 0x8000, whose opcode is 0x8: the step stops with the diagnostic,
    and by then Memory[0xFE00] and Memory[0xFE02] have changed and the key
    has been taken. *)
Lemma reserved_opcode_fetched_from_status :
  VM_wf (set_reg kRPC kKeyboardStatus (Run_init VM_init)) = true
  ∧ Z.shiftr 0x8000 12 = kOpRti
  ∧ fetch (set_reg kRPC kKeyboardStatus (Run_init VM_init)) tty_key_a
    = Ok (0x8000,
          {| memory_ := <[Z.to_nat kKeyboardData := 0x61]>
                          (<[Z.to_nat kKeyboardStatus := 0x8000]>
                             (memory_ VM_init));
             reg_ := reg_ (set_reg kRPC 0xFE01 (Run_init VM_init)) |},
          tty_idle)
  ∧ step (set_reg kRPC kKeyboardStatus (Run_init VM_init)) tty_key_a
    = Ok ({| memory_ := <[Z.to_nat kKeyboardData := 0x61]>
                          (<[Z.to_nat kKeyboardStatus := 0x8000]>
                             (memory_ VM_init));
             reg_ := reg_ (set_reg kRPC 0xFE01 (Run_init VM_init)) |},
          {| stdin := [];
             stdout := [x62; x61; x64; x20; x6f; x70; x63; x6f; x64; x65] |},
          false)
  ∧ memory_ (set_reg kRPC kKeyboardStatus (Run_init VM_init))
      !! Z.to_nat kKeyboardStatus = Some 0
  ∧ memory_ (set_reg kRPC kKeyboardStatus (Run_init VM_init))
      !! Z.to_nat kKeyboardData = Some 0
  ∧ stdin tty_key_a = [x61].
Proof. repeat split; reflexivity. Qed.

(** C9.  In a reachable state with a fetched instruction, an iteration of
    the loop clears [running] exactly when the instruction is TRAP with
    code 0x25 (HALT) or has one of the two unused opcodes; those three do
    clear it, a TRAP with a code outside 0x20..0x25 changes nothing and
    leaves [running] set, and the loop goes on exactly while [running] is
    set.  (SIGINT ends the process from its handler, outside this loop.) *)
Theorem halting_conditions_exhaustive
  (vm vm1 : VM) (t t1 : Terminal) (instr : Z) :
  reachable vm t → fetch vm t = Ok (instr, vm1, t1) →
  (∀ vm' t' running, step vm t = Ok (vm', t', running) →
     (running = false ↔
      Z.shiftr instr 12 = kOpRti ∨ Z.shiftr instr 12 = kOpRes
      ∨ (Z.shiftr instr 12 = kOpTrap ∧ Z.land instr 0xFF = kTrapHalt))
     ∧ (∀ fuel, run_loop (S fuel) vm t
                = if running then run_loop fuel vm' t' else Ok (vm', t')))
  ∧ (Z.shiftr instr 12 = kOpRti ∨ Z.shiftr instr 12 = kOpRes →
     step vm t = Ok (vm1, printf "bad opcode" t1, false))
  ∧ (Z.shiftr instr 12 = kOpTrap ∧ Z.land instr 0xFF = kTrapHalt →
     step vm t = Ok (vm1, puts "halt" t1, false))
  ∧ (Z.shiftr instr 12 = kOpTrap →
     Z.land instr 0xFF < kTrapGetc ∨ kTrapHalt < Z.land instr 0xFF →
     step vm t = Ok (vm1, t1, true)).
Proof.
  intros Hreach Hf. pose proof (reachable_wf vm t Hreach) as Hwf.
  destruct (fetch_inv vm vm1 t t1 instr Hwf Hf) as (_ & Hi & _).
  assert (Hstep : step vm t = exec instr vm1 t1)
    by (unfold step; rewrite Hf; reflexivity).
  split; [| split; [| split]].
  - intros vm' t' running H. split.
    + rewrite Hstep in H. exact (exec_running instr vm1 vm' t1 t' running Hi H).
    + intros fuel. cbn [run_loop]. rewrite H. reflexivity.
  - intros Hop. rewrite Hstep.
    destruct Hop as [Hop | Hop]; exec_case_goal Hop; reflexivity.
  - intros [Hop Hcode]. rewrite Hstep. exec_case_goal Hop.
    unfold trap. rewrite Hcode. reflexivity.
  - intros Hop Hcode. rewrite Hstep. exec_case_goal Hop. unfold trap.
    repeat match goal with
           | |- context [?a =? ?b] =>
               destruct (Z.eqb_spec a b); [exfalso; op_lia |]
           end.
    reflexivity.
Qed.

Lemma halting_conditions_exhaustive_witness :
  step (Run_init (vm_one 0xF025)) tty_idle
  = Ok (set_reg kRPC 0x3001 (Run_init (vm_one 0xF025)),
        puts "halt" tty_idle, false).
Proof.
  refine (proj1 (proj2 (proj2 (halting_conditions_exhaustive
                                 (Run_init (vm_one 0xF025))
                                 (set_reg kRPC 0x3001 (Run_init (vm_one 0xF025)))
                                 tty_idle tty_idle 0xF025 _ _))) _).
  - apply reach_init. reflexivity.
  - reflexivity.
  - split; reflexivity.
Defined.
(** C7.  Every fetch increments the program counter by one modulo 65536
    before it reads the instruction.  When the read is inside the array the
    instruction runs on the state with the incremented counter: BR (when
    taken), LD, LDI, LEA, ST, STI and JSR all add their sign-extended
    offset to the incremented counter, and JSR saves the incremented
    counter in R7. *)
Theorem pc_incremented_before_execute (vm : VM) (t : Terminal) :
  VM_wf vm = true →
  fetch vm t
  = MemRead (reg vm kRPC) (set_reg kRPC (wrap16 (reg vm kRPC + 1)) vm) t
  ∧ reg (set_reg kRPC (wrap16 (reg vm kRPC + 1)) vm) kRPC
    = (reg vm kRPC + 1) mod 65536
  ∧ (reg vm kRPC < kMaxMemory →
     ∃ instr vm1 t1,
       fetch vm t = Ok (instr, vm1, t1)
       ∧ step vm t = exec instr vm1 t1
       ∧ reg vm1 kRPC = wrap16 (reg vm kRPC + 1)
       ∧ let pc := wrap16 (reg vm kRPC + 1) in
         let ea := wrap16 (pc + SignExtend (Z.land instr 0x1FF) 9) in
         (Z.shiftr instr 12 = kOpBr →
          exec instr vm1 t1
          = Ok (if truthy (Z.land (reg vm1 kRCond)
                             (Z.land (Z.shiftr instr 9) 0x7))
                then set_reg kRPC ea vm1 else vm1, t1, true))
         ∧ (Z.shiftr instr 12 = kOpLd →
            exec instr vm1 t1
            = ('(w, vm2, t2) ← MemRead ea vm1 t1;
               Ok (UpdateFlag (R0 instr) (set_reg (R0 instr) w vm2), t2, true)))
         ∧ (Z.shiftr instr 12 = kOpLdi →
            exec instr vm1 t1
            = ('(a, vm2, t2) ← MemRead ea vm1 t1;
               '(w, vm3, t3) ← MemRead a vm2 t2;
               Ok (UpdateFlag (R0 instr) (set_reg (R0 instr) w vm3), t3, true)))
         ∧ (Z.shiftr instr 12 = kOpLea →
            exec instr vm1 t1
            = Ok (UpdateFlag (R0 instr) (set_reg (R0 instr) ea vm1), t1, true))
         ∧ (Z.shiftr instr 12 = kOpSt →
            exec instr vm1 t1
            = (vm2 ← mem_store ea (reg vm1 (R0 instr)) vm1; Ok (vm2, t1, true)))
         ∧ (Z.shiftr instr 12 = kOpSti →
            exec instr vm1 t1
            = ('(a, vm2, t2) ← MemRead ea vm1 t1;
               vm3 ← mem_store a (reg vm2 (R0 instr)) vm2;
               Ok (vm3, t2, true)))
         ∧ (Z.shiftr instr 12 = kOpJsr →
            truthy (Z.land (Z.shiftr instr 11) 0x1) = true →
            exec instr vm1 t1
            = Ok (set_reg kRPC
                    (wrap16 (pc + SignExtend (Z.land instr 0x7FF) 11))
                    (set_reg kR7 pc vm1), t1, true))).
Proof.
  intros Hwf.
  split; [reflexivity |].
  split; [apply reg_set_reg_eq; rewrite (reg_length_wf vm Hwf); idx |].
  intros Hpc.
  destruct (fetch_in_bounds vm t Hwf Hpc) as (instr & vm1 & t1 & Hf).
  destruct (fetch_inv vm vm1 t t1 instr Hwf Hf) as (Hwf1 & _ & Hpc1 & _).
  exists instr, vm1, t1.
  split; [exact Hf |]. split; [unfold step; rewrite Hf; reflexivity |].
  split; [exact Hpc1 |]. cbv zeta. rewrite <- Hpc1.
  repeat split; intros Hop; try intros Hbit; exec_case_goal Hop;
    unfold pc_offset9; try reflexivity.
  - destruct (truthy _); reflexivity.
  - rewrite Hbit. rewrite reg_set_reg_ne by idx. reflexivity.
Qed.

Lemma pc_incremented_before_execute_witness :
  ∃ vm', step (Run_init (vm_one 0xE002)) tty_idle = Ok (vm', tty_idle, true)
         ∧ reg vm' kRPC = 0x3001
         ∧ reg vm' kR0 = 0x3003.
Proof.
  destruct (pc_incremented_before_execute (Run_init (vm_one 0xE002)) tty_idle)
    as (_ & _ & H); [reflexivity |].
  destruct H as (instr & vm1 & t1 & Hf & Hstep & _ & _ & _ & _ & Hlea & _).
  - reflexivity.
  - assert (Hf' : fetch (Run_init (vm_one 0xE002)) tty_idle
                  = Ok (0xE002, set_reg kRPC 0x3001 (Run_init (vm_one 0xE002)),
                        tty_idle)) by reflexivity.
    rewrite Hf' in Hf. injection Hf as <- <- <-.
    eexists. split; [rewrite Hstep, Hlea by reflexivity; reflexivity |].
    split; reflexivity.
Defined.
(** ** Condition flags *)

Lemma UpdateFlag_one_hot (r : Z) (vm : VM) :
  VM_wf vm = true →
  reg (UpdateFlag r vm) kRCond = kFlPos
  ∨ reg (UpdateFlag r vm) kRCond = kFlZro
  ∨ reg (UpdateFlag r vm) kRCond = kFlNeg.
Proof.
  intros Hwf. destruct (UpdateFlag_cases r vm) as (f & Hf & ->).
  rewrite reg_set_reg_eq by (rewrite (reg_length_wf vm Hwf); idx). exact Hf.
Qed.

Lemma UpdateFlag_rule (r : Z) (vm : VM) :
  VM_wf vm = true → 0 <= r <= 7 →
  reg (UpdateFlag r vm) kRCond
  = if Z.testbit (reg (UpdateFlag r vm) r) 15 then kFlNeg
    else if reg (UpdateFlag r vm) r =? 0 then kFlZro else kFlPos.
Proof.
  intros Hwf Hr. rewrite (UpdateFlag_reg r r vm) by idx.
  apply UpdateFlag_flags, Hwf.
Qed.

Ltac keep_flags :=
  repeat first
    [ rewrite reg_set_reg_ne by idx
    | match goal with
      | E : mem_store _ _ ?vm = Ok ?vm' |- context [reg ?vm' _] =>
          rewrite (mem_store_reg vm vm' _ _ _ E)
      | Hr : ∀ r, reg ?vm' r = reg _ r |- context [reg ?vm' _] => rewrite Hr
      end ].

Lemma exec_flags_one_hot
  (instr : Z) (vm vm' : VM) (t t' : Terminal) (running : bool) :
  VM_wf vm = true → exec instr vm t = Ok (vm', t', running) →
  reg vm kRCond = kFlPos ∨ reg vm kRCond = kFlZro ∨ reg vm kRCond = kFlNeg →
  reg vm' kRCond = kFlPos ∨ reg vm' kRCond = kFlZro ∨ reg vm' kRCond = kFlNeg.
Proof.
  intros Hwf H Hoh. unfold exec in H.
  split_tests H; inv_result H; use_reads;
    try (apply UpdateFlag_one_hot; wf_tac; fail);
    try (keep_flags; exact Hoh).
  destruct (trap_inv _ _ _ _ _ _ Hwf H) as (_ & _ & _ & _ & Hset & Hkeep).
  destruct (Z.eq_dec (Z.land instr 0xFF) kTrapGetc) as [Hg | Hg];
    [| destruct (Z.eq_dec (Z.land instr 0xFF) kTrapIn) as [Hn | Hn]].
  - destruct Hset as (vm1 & Hwf1 & ->); [auto |]. apply UpdateFlag_one_hot, Hwf1.
  - destruct Hset as (vm1 & Hwf1 & ->); [auto |]. apply UpdateFlag_one_hot, Hwf1.
  - rewrite (Hkeep Hg Hn). exact Hoh.
Qed.

Lemma reachable_flags_one_hot (vm : VM) (t : Terminal) :
  reachable vm t →
  reg vm kRCond = kFlPos ∨ reg vm kRCond = kFlZro ∨ reg vm kRCond = kFlNeg.
Proof.
  induction 1 as [vm t Hwf | vm t vm' t' Hreach IH Hstep | vm t keys _ IH].
  - right; left. unfold Run_init. rewrite reg_set_reg_ne by idx.
    apply reg_set_reg_eq. rewrite (reg_length_wf vm Hwf). idx.
  - pose proof (reachable_wf vm t Hreach) as Hwf.
    unfold step in Hstep. inv_result Hstep.
    destruct (fetch_inv _ _ _ _ _ Hwf E) as (Hwf1 & _ & _ & Hregs & _).
    eapply exec_flags_one_hot; [exact Hwf1 | exact Hstep |].
    rewrite Hregs by idx. exact IH.
  - exact IH.
Qed.
(** C5.  In every state reachable from the head of Run the condition
    flags register holds one of POS, ZERO and NEG.  After ADD, AND, LD,
    LDI, LDR, LEA and NOT, whose destination is the register of bits 11-9,
    and after the traps GETC and IN, whose destination is R0, the flags are
    NEG when bit 15 of the value now in the destination is 1, else ZERO
    when it is 0, else POS.  The register-only instructions always
    complete, the loads when their addresses are inside the array, the two
    traps when a character is pending. *)
Theorem flags_follow_written_value (vm : VM) (t : Terminal) :
  reachable vm t →
  (reg vm kRCond = kFlPos ∨ reg vm kRCond = kFlZro ∨ reg vm kRCond = kFlNeg)
  ∧ kFlPos ≠ kFlZro ∧ kFlPos ≠ kFlNeg ∧ kFlZro ≠ kFlNeg
  ∧ ∀ instr vm1 t1,
      fetch vm t = Ok (instr, vm1, t1) →
      (∀ vm' t' running,
         exec instr vm1 t1 = Ok (vm', t', running) →
         (Z.shiftr instr 12 = kOpAdd ∨ Z.shiftr instr 12 = kOpAnd
          ∨ Z.shiftr instr 12 = kOpLd ∨ Z.shiftr instr 12 = kOpLdi
          ∨ Z.shiftr instr 12 = kOpLdr ∨ Z.shiftr instr 12 = kOpLea
          ∨ Z.shiftr instr 12 = kOpNot →
          reg vm' kRCond
          = if Z.testbit (reg vm' (R0 instr)) 15 then kFlNeg
            else if reg vm' (R0 instr) =? 0 then kFlZro else kFlPos)
         ∧ (Z.shiftr instr 12 = kOpTrap →
            Z.land instr 0xFF = kTrapGetc ∨ Z.land instr 0xFF = kTrapIn →
            reg vm' kRCond
            = if Z.testbit (reg vm' kR0) 15 then kFlNeg
              else if reg vm' kR0 =? 0 then kFlZro else kFlPos))
      ∧ (Z.shiftr instr 12 = kOpAdd ∨ Z.shiftr instr 12 = kOpAnd
         ∨ Z.shiftr instr 12 = kOpLea ∨ Z.shiftr instr 12 = kOpNot →
         ∃ vm', exec instr vm1 t1 = Ok (vm', t1, true))
      ∧ (Z.shiftr instr 12 = kOpLd → pc_offset9 instr vm1 < kMaxMemory →
         ∃ vm' t', exec instr vm1 t1 = Ok (vm', t', true))
      ∧ (Z.shiftr instr 12 = kOpLdr → base_offset6 instr vm1 < kMaxMemory →
         ∃ vm' t', exec instr vm1 t1 = Ok (vm', t', true))
      ∧ (Z.shiftr instr 12 = kOpLdi →
         ∀ a vm2 t2,
           MemRead (pc_offset9 instr vm1) vm1 t1 = Ok (a, vm2, t2) →
           a < kMaxMemory →
           ∃ vm' t', exec instr vm1 t1 = Ok (vm', t', true))
      ∧ (Z.shiftr instr 12 = kOpTrap →
         Z.land instr 0xFF = kTrapGetc ∨ Z.land instr 0xFF = kTrapIn →
         stdin t1 ≠ [] →
         ∃ vm' t', exec instr vm1 t1 = Ok (vm', t', true)).
Proof.
  intros Hreach. pose proof (reachable_wf vm t Hreach) as Hwf.
  split; [exact (reachable_flags_one_hot vm t Hreach) |].
  do 3 (split; [discriminate |]).
  intros instr vm1 t1 Hf.
  destruct (fetch_inv vm vm1 t t1 instr Hwf Hf) as (Hwf1 & Hi & _).
  pose proof (R0_range instr) as Hr0.
  split; [| split; [| split; [| split; [| split]]]].
  - intros vm' t' running H. split.
    + intros Hop.
      destruct Hop as [Hop | [Hop | [Hop | [Hop | [Hop | [Hop | Hop]]]]]];
        exec_case Hop H; split_tests H; inv_result H; use_reads;
        apply UpdateFlag_rule; try exact Hr0; unfold pc_offset9; wf_tac.
    + intros Hop Hcode. exec_case Hop H.
      destruct (trap_inv _ _ _ _ _ _ Hwf1 H) as (_ & _ & _ & _ & Hset & _).
      destruct (Hset Hcode) as (vm2 & Hwf2 & ->).
      apply UpdateFlag_rule; [exact Hwf2 | idx].
  - intros [Hop | [Hop | [Hop | Hop]]]; exec_case_goal Hop;
      try destruct (truthy _); eauto.
  - intros Hop Hea. exec_case_goal Hop.
    destruct (MemRead_in_bounds (pc_offset9 instr vm1) vm1 t1 Hwf1)
      as (w & vm2 & t2 & Hread).
    { split; [apply wrap16_range | exact Hea]. }
    rewrite Hread. cbn. eauto.
  - intros Hop Hea. exec_case_goal Hop.
    destruct (MemRead_in_bounds (base_offset6 instr vm1) vm1 t1 Hwf1)
      as (w & vm2 & t2 & Hread).
    { split; [apply wrap16_range | exact Hea]. }
    rewrite Hread. cbn. eauto.
  - intros Hop a vm2 t2 Hread Ha. exec_case_goal Hop. rewrite Hread. cbn.
    destruct (MemRead_inv _ _ _ _ _ _ Hwf1 Hread) as (Hwf2 & _ & _ & Hau & _).
    destruct (MemRead_in_bounds a vm2 t2 Hwf2) as (w & vm3 & t3 & Hread2);
      [lia |].
    rewrite Hread2. cbn. eauto.
  - intros Hop Hcode Hin. exec_case_goal Hop. unfold trap, getchar.
    destruct (stdin t1) as [| c rest] eqn:Hstdin; [contradiction |].
    destruct Hcode as [-> | ->]; cbn; rewrite ?Hstdin; cbn; eauto.
Qed.

Lemma flags_follow_written_value_witness :
  ∃ vm', step (Run_init (vm_one 0x927F)) tty_idle = Ok (vm', tty_idle, true)
         ∧ reg vm' kR1 = 0xFFFF
         ∧ reg vm' kRCond = kFlNeg.
Proof.
  destruct (flags_follow_written_value (Run_init (vm_one 0x927F)) tty_idle)
    as (_ & _ & _ & _ & H).
  - apply reach_init. reflexivity.
  - destruct (H 0x927F (set_reg kRPC 0x3001 (Run_init (vm_one 0x927F))) tty_idle)
      as (Hrule & Hreg & _); [reflexivity |].
    destruct Hreg as (vm' & Hexec); [do 3 right; reflexivity |].
    destruct (Hrule vm' tty_idle true Hexec) as (Hflags & _).
    exists vm'. split; [exact Hexec |].
    assert (Hr1 : reg vm' kR1 = 0xFFFF).
    { assert (Hexec' : exec 0x927F
                         (set_reg kRPC 0x3001 (Run_init (vm_one 0x927F))) tty_idle
                       = Ok (UpdateFlag kR1
                               (set_reg kR1 0xFFFF
                                  (set_reg kRPC 0x3001 (Run_init (vm_one 0x927F)))),
                             tty_idle, true)) by reflexivity.
      rewrite Hexec' in Hexec. injection Hexec as <-. reflexivity. }
    split; [exact Hr1 |].
    rewrite Hflags by (do 6 right; reflexivity).
    change (R0 0x927F) with kR1. rewrite Hr1. reflexivity.
Defined.
(** ** Bytes and words *)

Lemma u16Swap_bytes (x : Z) :
  0 <= x < 65536 → u16Swap x = x / 256 + 256 * (x mod 256).
Proof.
  intros Hx. unfold u16Swap, wrap16.
  rewrite Z.shiftr_div_pow2, Z.shiftl_mul_pow2 by lia. change (2 ^ 8) with 256.
  assert (Hq : 0 <= x / 256 < 256)
    by (split; [apply Z.div_pos; lia | apply Z.div_lt_upper_bound; lia]).
  pose proof (Z.mod_pos_bound x 256 ltac:(lia)) as Hr.
  rewrite Z.lor_comm, lor_disjoint_add.
  - rewrite (Z.div_mod x 256) at 1 by lia.
    replace ((256 * (x / 256) + x mod 256) * 256 + x / 256)
      with (x / 256 + 256 * (x mod 256) + (x / 256) * 65536) by ring.
    rewrite Z_mod_plus_full. apply Z.mod_small. lia.
  - replace (x * 256) with (Z.shiftl x 8)
      by (rewrite Z.shiftl_mul_pow2 by lia; reflexivity).
    apply land_shiftl_low; [lia |]. change (2 ^ 8) with 256. exact Hq.
Qed.

Lemma u16Swap_range (x : Z) : 0 <= u16Swap x < 65536.
Proof. apply wrap16_range. Qed.

(** The word whose low byte is [lo] and high byte [hi], swapped. *)
Lemma u16Swap_pair (lo hi : Z) :
  0 <= lo < 256 → 0 <= hi < 256 → u16Swap (lo + 256 * hi) = 256 * lo + hi.
Proof.
  intros Hlo Hhi. rewrite u16Swap_bytes by lia.
  replace (lo + 256 * hi) with (lo + hi * 256) by ring.
  rewrite Z.div_add, Z_mod_plus_full by lia.
  rewrite Z.div_small, Z.mod_small by lia. ring.
Qed.

Lemma read_origin_pair (b0 b1 : byte) (rest : list byte) :
  read_origin (b0 :: b1 :: rest) = Ok (byte_val b0 + 256 * byte_val b1).
Proof.
  unfold read_origin, image_byte.
  change (Z.to_nat 0) with 0%nat. change (Z.to_nat 1) with 1%nat.
  cbn [lookup list_lookup mbind result_bind].
  pose proof (byte_val_range b0). pose proof (byte_val_range b1).
  rewrite Z.lor_comm, lor_disjoint_add.
  - rewrite Z.shiftl_mul_pow2 by lia. f_equal. change (2 ^ 8) with 256. ring.
  - apply land_shiftl_low; [lia |]. change (2 ^ 8) with 256. lia.
Qed.
Lemma even_double (i : Z) : Z.even (2 * i) = true.
Proof. rewrite Z.even_mul. reflexivity. Qed.

Lemma even_double_succ (i : Z) : Z.even (2 * i + 1) = false.
Proof. rewrite Z.even_add, even_double. reflexivity. Qed.

Lemma even_cases (n : Z) :
  (Z.even n = true ∧ n = 2 * (n / 2)) ∨ (Z.even n = false ∧ n = 2 * (n / 2) + 1).
Proof.
  pose proof (Zmod_even n) as Hm. pose proof (Z.div_mod n 2 ltac:(lia)) as Hd.
  destruct (Z.even n); [left | right]; split; try reflexivity; lia.
Qed.

Lemma div2_double (i : Z) : 2 * i / 2 = i.
Proof. symmetry. apply Z.div_unique with (r := 0); lia. Qed.

Lemma div2_double_succ (i : Z) : (2 * i + 1) / 2 = i.
Proof. symmetry. apply Z.div_unique with (r := 1); lia. Qed.

Lemma word_of_bytes (mem : list Z) (i lo hi : Z) :
  0 <= i → byte_at mem (2 * i) = Some lo → byte_at mem (2 * i + 1) = Some hi →
  mem !! Z.to_nat i = Some (lo + 256 * hi).
Proof.
  intros Hi. unfold byte_at. rewrite even_double, even_double_succ.
  rewrite div2_double, div2_double_succ.
  destruct (mem !! Z.to_nat i) as [w |]; [| discriminate]. cbn.
  intros [= <-] [= <-]. f_equal. pose proof (Z.div_mod w 256 ltac:(lia)). lia.
Qed.

Lemma word_unchanged (mem mem' : list Z) (i : Z) :
  0 <= i → byte_at mem' (2 * i) = byte_at mem (2 * i) →
  byte_at mem' (2 * i + 1) = byte_at mem (2 * i + 1) →
  mem' !! Z.to_nat i = mem !! Z.to_nat i.
Proof.
  intros Hi. unfold byte_at. rewrite even_double, even_double_succ.
  rewrite div2_double, div2_double_succ.
  destruct (mem' !! Z.to_nat i) as [w' |], (mem !! Z.to_nat i) as [w |];
    cbn; try discriminate; try reflexivity.
  intros [= Hlo] [= Hhi]. f_equal.
  pose proof (Z.div_mod w 256 ltac:(lia)).
  pose proof (Z.div_mod w' 256 ltac:(lia)). lia.
Qed.

Lemma store_byte_spec (mem : list Z) (off b : Z) :
  0 <= off → (Z.to_nat (off / 2) < length mem)%nat → 0 <= b < 256 →
  Forall (λ z, is_u16 z = true) mem →
  ∃ mem', store_byte mem off b = Ok mem'
          ∧ length mem' = length mem
          ∧ Forall (λ z, is_u16 z = true) mem'
          ∧ byte_at mem' off = Some b
          ∧ ∀ j, 0 <= j → j ≠ off → byte_at mem' j = byte_at mem j.
Proof.
  intros Hoff Hlen Hb Hu.
  destruct (lookup_lt_is_Some_2 mem _ Hlen) as [w Hw].
  assert (Hwu : 0 <= w < 65536)
    by (apply is_u16_spec; exact (proj1 (Forall_lookup _ _) Hu _ _ Hw)).
  assert (Hq : 0 <= w / 256 < 256)
    by (split; [apply Z.div_pos; lia | apply Z.div_lt_upper_bound; lia]).
  pose proof (Z.mod_pos_bound w 256 ltac:(lia)) as Hr.
  unfold store_byte. rewrite Hw. eexists. split; [reflexivity |].
  split; [apply length_insert |]. split; [| split].
  - apply Forall_insert; [exact Hu |]. apply is_u16_spec.
    destruct (Z.even off); lia.
  - unfold byte_at. rewrite list_lookup_insert_eq by exact Hlen. cbn. f_equal.
    destruct (Z.even off).
    + rewrite Z.add_comm, Z.mul_comm, Z_mod_plus_full. apply Z.mod_small. lia.
    + rewrite Z.mul_comm, Z.div_add by lia. rewrite Z.div_small by lia. lia.
  - intros j Hj Hne. unfold byte_at.
    destruct (Z.eq_dec (j / 2) (off / 2)) as [Heq | Hneq].
    + rewrite Heq, list_lookup_insert_eq, Hw by exact Hlen. cbn. f_equal.
      destruct (even_cases j) as [[Ej Hj2] | [Ej Hj2]],
               (even_cases off) as [[Eo Ho2] | [Eo Ho2]];
        rewrite Ej, Eo; try lia.
      * rewrite Z.mul_comm, Z_mod_plus_full. apply Z.mod_mod. lia.
      * rewrite Z.add_comm, Z.mul_comm, Z.div_add by lia.
        rewrite (Z.div_small b) by lia. lia.
    + rewrite list_lookup_insert_ne; [reflexivity |].
      assert (0 <= j / 2) by (apply Z.div_pos; lia).
      assert (0 <= off / 2) by (apply Z.div_pos; lia). lia.
Qed.

(** ** memcpy and the swap loop *)

Lemma memcpy_nil (mem : list Z) (off n : Z) :
  memcpy mem off [] n = if n =? 0 then Ok mem else Err ImageOverrun.
Proof. reflexivity. Qed.

Lemma memcpy_cons (mem : list Z) (off n : Z) (b : byte) (src : list byte) :
  memcpy mem off (b :: src) n
  = if n =? 0 then Ok mem
    else mem' ← store_byte mem off (byte_val b); memcpy mem' (off + 1) src (n - 1).
Proof. reflexivity. Qed.

Lemma memcpy_ok (src : list byte) :
  ∀ (mem : list Z) (off n : Z),
    0 <= off → 0 <= n <= Z.of_nat (length src) →
    off + n <= 2 * Z.of_nat (length mem) →
    Forall (λ z, is_u16 z = true) mem →
    ∃ mem', memcpy mem off src n = Ok mem'
            ∧ length mem' = length mem
            ∧ Forall (λ z, is_u16 z = true) mem'
            ∧ (∀ k b, 0 <= k < n → src !! Z.to_nat k = Some b →
                 byte_at mem' (off + k) = Some (byte_val b))
            ∧ (∀ j, 0 <= j → j < off ∨ off + n <= j →
                 byte_at mem' j = byte_at mem j).
Proof.
  induction src as [| b src IH]; intros mem off n Hoff Hn Hfit Hu.
  - rewrite memcpy_nil. cbn [length] in Hn.
    destruct (Z.eqb_spec n 0) as [-> | Hne]; [| lia].
    exists mem. repeat split; auto. intros k c Hk. lia.
  - rewrite memcpy_cons. destruct (Z.eqb_spec n 0) as [-> | Hne].
    { exists mem. repeat split; auto. intros k c Hk. lia. }
    cbn [length] in Hn.
    destruct (store_byte_spec mem off (byte_val b)) as (mem1 & Hst & Hl1 & Hu1 & Hb1 & Hk1);
      [lia | | apply byte_val_range | exact Hu |].
    { assert (off / 2 < Z.of_nat (length mem))
        by (apply Z.div_lt_upper_bound; lia).
      assert (0 <= off / 2) by (apply Z.div_pos; lia). lia. }
    rewrite Hst. cbn [mbind result_bind].
    destruct (IH mem1 (off + 1) (n - 1)) as (mem' & Hcp & Hl & Hu' & Hb & Hk);
      [lia | lia | rewrite Hl1; lia | exact Hu1 |].
    exists mem'. split; [exact Hcp |]. split; [congruence |].
    split; [exact Hu' |]. split.
    + intros k c Hkn Hsrc. destruct (Z.eq_dec k 0) as [-> | Hk0].
      * cbn in Hsrc. injection Hsrc as <-. rewrite Z.add_0_r.
        rewrite Hk by lia. exact Hb1.
      * replace (off + k) with (off + 1 + (k - 1)) by ring.
        apply Hb; [lia |].
        replace (Z.to_nat k) with (S (Z.to_nat (k - 1))) in Hsrc by lia.
        exact Hsrc.
    + intros j Hj Hout. rewrite Hk by lia. apply Hk1; lia.
Qed.


Lemma swap_loop_ok (cells : list Z) :
  ∀ (p n : Z),
    0 <= n <= Z.of_nat (length cells) →
    swap_loop cells p n
    = Ok ((u16Swap <$> take (Z.to_nat n) cells) ++ drop (Z.to_nat n) cells).
Proof.
  induction cells as [| w cells IH]; intros p n Hn; cbn [swap_loop length] in *.
  - destruct (Z.eqb_spec n 0) as [-> | Hne]; [reflexivity | lia].
  - destruct (Z.eqb_spec n 0) as [-> | Hne]; [reflexivity |].
    rewrite IH by lia. cbn [mbind result_bind].
    replace (Z.to_nat n) with (S (Z.to_nat (n - 1))) by lia. reflexivity.
Qed.

(** ** LoadImage *)

Lemma swapped_lookup (mem : list Z) (o n a : nat) :
  (o + n <= length mem)%nat →
  (take o mem ++ (u16Swap <$> take n (drop o mem)) ++ drop n (drop o mem)) !! a
  = if decide (o <= a < o + n)%nat then u16Swap <$> mem !! a else mem !! a.
Proof.
  intros Hlen. destruct (decide (a < o)%nat) as [Hlo | Hlo].
  - rewrite lookup_app_l by (rewrite length_take; lia).
    rewrite lookup_take_lt by lia. rewrite decide_False by lia. reflexivity.
  - rewrite lookup_app_r by (rewrite length_take; lia).
    rewrite length_take_le by lia.
    destruct (decide (a < o + n)%nat) as [Hin | Hout].
    + rewrite lookup_app_l
        by (rewrite length_fmap, length_take, length_drop; lia).
      rewrite list_lookup_fmap, lookup_take_lt, lookup_drop by lia.
      rewrite decide_True by lia. do 2 f_equal. lia.
    + rewrite lookup_app_r
        by (rewrite length_fmap, length_take, length_drop; lia).
      rewrite length_fmap, length_take, length_drop, !lookup_drop.
      rewrite decide_False by lia. f_equal. lia.
Qed.

(** A buffer of at least two bytes passed with a size from 2 to 65535 gets
    through the test at the head of LoadImage; its origin is the big-endian
    value of its first two bytes and [n] is the number of bytes of [body].
    The buffer may be longer than [image_size] says ([extra]), as it is in
    main. *)
Lemma LoadImage_accepted (vm : VM) (b0 b1 : byte) (body extra : list byte) :
  Z.of_nat (length body) + 2 <= kMaxMemory →
  LoadImage (Some (b0 :: b1 :: body ++ extra)) (Z.of_nat (length body) + 2) vm
  = (mem1 ← memcpy (memory_ vm) (2 * (256 * byte_val b0 + byte_val b1))
              (body ++ extra) (Z.of_nat (length body));
     cells ← swap_loop (drop (Z.to_nat (256 * byte_val b0 + byte_val b1)) mem1)
               (256 * byte_val b0 + byte_val b1) (Z.of_nat (length body));
     Ok (true,
         {| memory_ := take (Z.to_nat (256 * byte_val b0 + byte_val b1)) mem1
                       ++ cells;
            reg_ := reg_ vm |})).
Proof.
  intros Hsize. unfold LoadImage.
  destruct (Z.eqb_spec (Z.of_nat (length body) + 2) 0) as [E | _]; [lia |].
  destruct (Z.gtb_spec (Z.of_nat (length body) + 2) kMaxMemory) as [E | _];
    [lia |].
  cbn [orb]. rewrite read_origin_pair. cbn [mbind result_bind].
  rewrite u16Swap_pair by apply byte_val_range.
  replace (wrap_usize (Z.of_nat (length body) + 2 - 2))
    with (Z.of_nat (length body)); [reflexivity |].
  unfold wrap_usize. rewrite Z.add_simpl_r. symmetry. apply Z.mod_small.
  unfold kMaxMemory, UINT16_MAX in Hsize. lia.
Qed.

Lemma LoadImage_fits (vm : VM) (b0 b1 : byte) (body extra : list byte) :
  VM_wf vm = true →
  Z.of_nat (length body) + 2 <= kMaxMemory →
  256 * byte_val b0 + byte_val b1 + Z.of_nat (length body) <= kMaxMemory →
  ∃ mem1,
    memcpy (memory_ vm) (2 * (256 * byte_val b0 + byte_val b1)) (body ++ extra)
      (Z.of_nat (length body)) = Ok mem1
    ∧ length mem1 = length (memory_ vm)
    ∧ (∀ k b, 0 <= k → body !! Z.to_nat k = Some b →
         byte_at mem1 (2 * (256 * byte_val b0 + byte_val b1) + k)
         = Some (byte_val b))
    ∧ (∀ j, 0 <= j →
         j < 2 * (256 * byte_val b0 + byte_val b1)
         ∨ 2 * (256 * byte_val b0 + byte_val b1) + Z.of_nat (length body) <= j →
         byte_at mem1 j = byte_at (memory_ vm) j)
    ∧ LoadImage (Some (b0 :: b1 :: body ++ extra))
        (Z.of_nat (length body) + 2) vm
      = Ok (true,
            {| memory_ :=
                 take (Z.to_nat (256 * byte_val b0 + byte_val b1)) mem1
                 ++ (u16Swap <$> take (length body)
                       (drop (Z.to_nat (256 * byte_val b0 + byte_val b1)) mem1))
                 ++ drop (length body)
                      (drop (Z.to_nat (256 * byte_val b0 + byte_val b1)) mem1);
               reg_ := reg_ vm |}).
Proof.
  intros Hwf Hsize Hfit.
  pose proof (byte_val_range b0) as H0. pose proof (byte_val_range b1) as H1.
  pose proof (mem_length_wf vm Hwf) as Hl.
  apply VM_wf_spec in Hwf as (_ & _ & Hu & _).
  destruct (memcpy_ok (body ++ extra) (memory_ vm)
              (2 * (256 * byte_val b0 + byte_val b1)) (Z.of_nat (length body)))
    as (mem1 & Hcp & Hl1 & _ & Hb & Hk);
    [lia | rewrite length_app; lia | rewrite Hl; idx | exact Hu |].
  exists mem1. split; [exact Hcp |]. split; [exact Hl1 |]. split; [| split].
  - intros k b Hk0 Hbody. pose proof (lookup_lt_Some _ _ _ Hbody) as Hlt.
    apply Hb; [lia |]. rewrite lookup_app_l by exact Hlt. exact Hbody.
  - exact Hk.
  - rewrite (LoadImage_accepted vm b0 b1 body extra Hsize), Hcp.
    cbn [mbind result_bind].
    rewrite swap_loop_ok by (rewrite length_drop, Hl1, Hl; idx).
    rewrite Nat2Z.id. reflexivity.
Qed.

Lemma store_byte_inv (mem mem' : list Z) (off b : Z) :
  0 <= b < 256 → Forall (λ z, is_u16 z = true) mem →
  store_byte mem off b = Ok mem' →
  length mem' = length mem ∧ Forall (λ z, is_u16 z = true) mem'.
Proof.
  intros Hb Hu. unfold store_byte.
  destruct (mem !! Z.to_nat (off / 2)) as [w |] eqn:Hw; [| discriminate].
  intros [= <-]. split; [apply length_insert |].
  assert (Hwu : 0 <= w < 65536)
    by (apply is_u16_spec; exact (proj1 (Forall_lookup _ _) Hu _ _ Hw)).
  assert (Hq : 0 <= w / 256 < 256)
    by (split; [apply Z.div_pos; lia | apply Z.div_lt_upper_bound; lia]).
  pose proof (Z.mod_pos_bound w 256 ltac:(lia)) as Hr.
  apply Forall_insert; [exact Hu |]. apply is_u16_spec.
  destruct (Z.even off); lia.
Qed.

Lemma memcpy_inv (src : list byte) :
  ∀ (mem mem' : list Z) (off n : Z),
    Forall (λ z, is_u16 z = true) mem →
    memcpy mem off src n = Ok mem' →
    length mem' = length mem ∧ Forall (λ z, is_u16 z = true) mem'.
Proof.
  induction src as [| b src IH]; intros mem mem' off n Hu H.
  - rewrite memcpy_nil in H. destruct (n =? 0); [| discriminate].
    injection H as <-. auto.
  - rewrite memcpy_cons in H. destruct (n =? 0); [injection H as <-; auto |].
    inv_result H.
    destruct (store_byte_inv mem a off (byte_val b) (byte_val_range b) Hu E)
      as [Hl1 Hu1].
    destruct (IH a mem' (off + 1) (n - 1) Hu1 H) as [Hl Hu'].
    split; [congruence | exact Hu'].
Qed.

Lemma swap_loop_inv (cells : list Z) :
  ∀ (cells' : list Z) (p n : Z),
    Forall (λ z, is_u16 z = true) cells →
    swap_loop cells p n = Ok cells' →
    length cells' = length cells ∧ Forall (λ z, is_u16 z = true) cells'.
Proof.
  induction cells as [| w cells IH]; intros cells' p n Hu H;
    cbn [swap_loop] in H.
  - destruct (n =? 0); [| discriminate]. injection H as <-. auto.
  - destruct (n =? 0); [injection H as <-; auto |].
    inv_result H. injection H as <-.
    apply Forall_cons in Hu as [_ Hu].
    destruct (IH a (p + 1) (n - 1) Hu E) as [Hl Hu'].
    split; [cbn [length]; congruence |].
    apply Forall_cons. split; [apply is_u16_spec, u16Swap_range | exact Hu'].
Qed.

(** Loading keeps the arrays at their sizes and their cells 16 bits wide:
    the machine that Run starts from is well formed. *)
Lemma LoadImage_wf
  (image : option (list byte)) (image_size : Z) (vm vm' : VM) (ok : bool) :
  VM_wf vm = true → LoadImage image image_size vm = Ok (ok, vm') →
  VM_wf vm' = true.
Proof.
  intros Hwf H. unfold LoadImage in H.
  destruct image as [img |]; [| injection H as <- <-; exact Hwf].
  destruct ((image_size =? 0) || (image_size >? kMaxMemory));
    [injection H as <- <-; exact Hwf |].
  inv_result H. injection H as <- <-.
  apply VM_wf_spec in Hwf as (Hl & Hlr & Hu & Hur).
  destruct (memcpy_inv _ _ _ _ _ Hu E0) as [Hl1 Hu1].
  destruct (swap_loop_inv _ _ _ _ (Forall_drop _ _ _ Hu1) E1) as [Hl2 Hu2].
  apply VM_wf_spec. cbn [memory_ reg_].
  split; [| split; [exact Hlr | split; [| exact Hur]]].
  - rewrite length_app, Hl2, length_take, length_drop. lia.
  - apply Forall_app. split; [apply Forall_take, Hu1 | exact Hu2].
Qed.

(** C3, as amended.  For an accepted image of at least two bytes, with
    origin O (the big-endian value of its first two bytes) and N body
    bytes, such that O + N <= 65535: the load returns success; for every
    k < N/2 the cell Memory[O + k] holds the body bytes 2k and 2k+1 read as
    one host word and byte-swapped once, which is their big-endian value;
    the registers and every cell outside Memory[O .. O + N) are as before
    the load.  (The buffer may extend past the image, as the one main
    allocates does.) *)
Theorem LoadImage_round_trip
  (vm : VM) (b0 b1 : byte) (body extra : list byte) :
  VM_wf vm = true →
  Z.of_nat (length body) + 2 <= kMaxMemory →
  256 * byte_val b0 + byte_val b1 + Z.of_nat (length body) <= kMaxMemory →
  ∃ vm',
    LoadImage (Some (b0 :: b1 :: body ++ extra)) (Z.of_nat (length body) + 2) vm
    = Ok (true, vm')
    ∧ reg_ vm' = reg_ vm
    ∧ length (memory_ vm') = length (memory_ vm)
    ∧ (∀ k hi lo,
         0 <= k →
         body !! Z.to_nat (2 * k) = Some hi →
         body !! Z.to_nat (2 * k + 1) = Some lo →
         memory_ vm' !! Z.to_nat (256 * byte_val b0 + byte_val b1 + k)
         = Some (u16Swap (byte_val hi + 256 * byte_val lo))
         ∧ u16Swap (byte_val hi + 256 * byte_val lo)
           = 256 * byte_val hi + byte_val lo)
    ∧ (∀ a,
         0 <= a →
         a < 256 * byte_val b0 + byte_val b1
         ∨ 256 * byte_val b0 + byte_val b1 + Z.of_nat (length body) <= a →
         memory_ vm' !! Z.to_nat a = memory_ vm !! Z.to_nat a).
Proof.
  intros Hwf Hsize Hfit.
  pose proof (byte_val_range b0) as H0. pose proof (byte_val_range b1) as H1.
  pose proof (mem_length_wf vm Hwf) as Hl.
  destruct (LoadImage_fits vm b0 b1 body extra Hwf Hsize Hfit)
    as (mem1 & _ & Hl1 & Hb & Hk & Hload).
  set (O := 256 * byte_val b0 + byte_val b1) in *.
  assert (Hin : (Z.to_nat O + length body <= length mem1)%nat)
    by (rewrite Hl1, Hl; idx).
  eexists. split; [exact Hload |]. cbn [memory_ reg_].
  split; [reflexivity |]. split; [| split].
  - rewrite !length_app, length_fmap, !length_take, !length_drop. lia.
  - intros k hi lo Hk0 Hhi Hlo.
    pose proof (lookup_lt_Some _ _ _ Hlo) as Hkn.
    split; [| apply u16Swap_pair; apply byte_val_range].
    rewrite swapped_lookup by exact Hin. rewrite decide_True by lia.
    rewrite (word_of_bytes mem1 (O + k) (byte_val hi) (byte_val lo)); try lia.
    + reflexivity.
    + replace (2 * (O + k)) with (2 * O + 2 * k) by ring.
      apply Hb; [lia | exact Hhi].
    + replace (2 * (O + k) + 1) with (2 * O + (2 * k + 1)) by ring.
      apply Hb; [lia | exact Hlo].
  - intros a Ha Hout.
    rewrite swapped_lookup by exact Hin. rewrite decide_False by lia.
    apply word_unchanged; [exact Ha | apply Hk; lia | apply Hk; lia].
Qed.

Lemma LoadImage_round_trip_witness :
  ∃ vm',
    LoadImage (Some [x30; x00; x12; x34; x00]) 4 VM_init = Ok (true, vm')
    ∧ memory_ vm' !! Z.to_nat 0x3000 = Some 0x1234
    ∧ memory_ vm' !! Z.to_nat 0x2FFF = Some 0.
Proof.
  destruct (LoadImage_round_trip VM_init x30 x00 [x12; x34] [x00])
    as (vm' & Hload & _ & _ & Hwords & Hrest).
  - reflexivity.
  - cbn [length]. idx.
  - cbn [length]. change (byte_val x30) with 48. change (byte_val x00) with 0.
    idx.
  - exists vm'. split; [exact Hload |]. split.
    + destruct (Hwords 0 x12 x34) as [Hw Hv]; try reflexivity.
      rewrite Hv in Hw. exact Hw.
    + rewrite (Hrest 0x2FFF) by (cbn; lia). reflexivity.
Defined.

(** C3 as stated fails.  A cell after the words of the body is changed: on
    the machine left by loading the image 30 01 12 34, loading 30 00 AA BB
    (origin x3000, N = 2, one word) also byte-swaps Memory[x3001] from
    x1234 to x3412.  And on a fresh machine the image 30 00 AB (N = 1, no
    whole word) changes Memory[x3000] from 0 to xAB00. *)
Lemma LoadImage_changes_cells_after_body :
  LoadImage (Some [x30; x01; x12; x34]) 4 VM_init
  = Ok (true, vm_with 0x3001 0x1234)
  ∧ LoadImage (Some [x30; x00; xaa; xbb]) 4 (vm_with 0x3001 0x1234)
    = Ok (true,
          {| memory_ := <[Z.to_nat 0x3000 := 0xAABB]>
                          (<[Z.to_nat 0x3001 := 0x3412]> (memory_ VM_init));
             reg_ := reg_ VM_init |})
  ∧ LoadImage (Some [x30; x00; xab]) 3 VM_init
    = Ok (true, vm_with 0x3000 0xAB00).
Proof. repeat split; reflexivity. Qed.

(** The result of LoadImage is a failure only through the test at its
    head, and then the machine is returned as it was. *)
Lemma LoadImage_failure_inv
  (image : option (list byte)) (image_size : Z) (vm vm' : VM) :
  LoadImage image image_size vm = Ok (false, vm') →
  vm' = vm
  ∧ (image = None ∨ image_size = 0 ∨ kMaxMemory < image_size).
Proof.
  unfold LoadImage. destruct image as [img |]; [| intros [= <-]; auto].
  destruct (Z.eqb_spec image_size 0) as [-> | Hne]; cbn [orb].
  - intros [= <-]. auto.
  - destruct (Z.gtb_spec image_size kMaxMemory) as [Hgt | Hle].
    + intros [= <-]. split; [reflexivity |]. right; right. lia.
    + intros H. inv_result H. discriminate.
Qed.

Lemma LoadImage_rejected
  (image : option (list byte)) (image_size : Z) (vm : VM) :
  image = None ∨ image_size = 0 ∨ kMaxMemory < image_size →
  LoadImage image image_size vm = Ok (false, vm).
Proof.
  unfold LoadImage. intros [-> | Hsize]; [reflexivity |].
  destruct image as [img |]; [| reflexivity].
  destruct (Z.eqb_spec image_size 0) as [-> | Hne]; [reflexivity |].
  destruct (Z.gtb_spec image_size kMaxMemory) as [Hgt | Hle]; [reflexivity | lia].
Qed.




(** C8, as amended.  LoadImage returns failure exactly when the buffer is
    null, or its size is 0 or more than 65535, and then the machine is as
    it was.  Every other buffer of at least two bytes whose origin O and
    body length N satisfy O + N <= 65535 is loaded with success. *)
Theorem LoadImage_fails_iff_rejected (vm : VM) :
  VM_wf vm = true →
  (∀ image_size, LoadImage None image_size vm = Ok (false, vm))
  ∧ (∀ img image_size vm',
       LoadImage (Some img) image_size vm = Ok (false, vm') ↔
       (image_size = 0 ∨ kMaxMemory < image_size) ∧ vm' = vm)
  ∧ (∀ b0 b1 body extra,
       Z.of_nat (length body) + 2 <= kMaxMemory →
       256 * byte_val b0 + byte_val b1 + Z.of_nat (length body) <= kMaxMemory →
       ∃ vm',
         LoadImage (Some (b0 :: b1 :: body ++ extra))
           (Z.of_nat (length body) + 2) vm
         = Ok (true, vm')).
Proof.
  intros Hwf. split; [reflexivity |]. split.
  - intros img image_size vm'. split.
    + intros H. apply LoadImage_failure_inv in H as (-> & [H | H]);
        [discriminate | auto].
    + intros [Hrej ->]. apply LoadImage_rejected. right. exact Hrej.
  - intros b0 b1 body extra Hsize Hfit.
    destruct (LoadImage_fits vm b0 b1 body extra Hwf Hsize Hfit)
      as (mem1 & _ & _ & _ & _ & H).
    eauto.
Qed.

Lemma LoadImage_fails_iff_rejected_witness :
  LoadImage (Some []) 0 VM_init = Ok (false, VM_init)
  ∧ ∃ vm', LoadImage (Some image_count_to_ten) 12 VM_init = Ok (true, vm').
Proof.
  destruct (LoadImage_fails_iff_rejected VM_init) as (_ & Hrej & Hacc);
    [reflexivity |].
  split.
  - apply (proj2 (Hrej [] 0 VM_init)). split; [left |]; reflexivity.
  - apply (Hacc x30 x00 [x50; x20; x10; x21; x12; x36; x09; xfd; xf0; x25] []).
    + cbn [length]. idx.
    + vm_compute. discriminate.
Defined.

(** C8 as stated fails: these buffers are non-null, non-empty and shorter
    than 65536 bytes, and LoadImage does not return success for them.  The
    one-byte image (alone, or in the two-byte buffer main allocates for
    it) makes [n] wrap to 2^64 - 1, and memcpy runs off the buffer; the
    image FF FF 12 34 has its body copied outside the array. *)
Lemma LoadImage_accepted_without_success :
  LoadImage (Some [x41]) 1 VM_init = Err ImageOverrun
  ∧ LoadImage (Some [x41; x00]) 1 VM_init = Err ImageOverrun
  ∧ LoadImage (Some [xff; xff; x12; x34]) 4 VM_init = Err (OobWrite 65535).
Proof. repeat split; reflexivity. Qed.

(** ** Two programs, end to end *)

(** Counting to ten leaves 10 in R0 and stops at TRAP HALT. *)
Example count_to_ten_halts :
  (λ r, (reg r.1 kR0, stdout r.2))
    <$> match main_body 100 image_count_to_ten x00 tty_idle with
        | Ok r => Some r
        | Err _ => None
        end
  = Some (10, list_byte_of_string "halt" ++ [x0a]).
Proof. vm_compute. reflexivity. Qed.

(** TRAP PUTS on the words 72, 105, 0 writes "Hi" and no terminator. *)
Example puts_writes_hi :
  (λ r, stdout r.2)
    <$> match main_body 100 image_puts_hi x00 tty_idle with
        | Ok r => Some r
        | Err _ => None
        end
  = Some (list_byte_of_string "Hihalt" ++ [x0a]).
Proof. vm_compute. reflexivity. Qed.
(** * Further properties of the program *)

(** ** Words and fields *)

(** X1.  u16Swap is its own inverse on 16-bit words: swapping the two
    bytes twice gives the word back. *)
Theorem u16Swap_involutive (x : Z) :
  0 <= x < 65536 → u16Swap (u16Swap x) = x.
Proof.
  intros Hx. rewrite (u16Swap_bytes x Hx).
  assert (Hq : 0 <= x / 256 < 256)
    by (split; [apply Z.div_pos; lia | apply Z.div_lt_upper_bound; lia]).
  pose proof (Z.mod_pos_bound x 256 ltac:(lia)) as Hr.
  rewrite u16Swap_pair by lia.
  pose proof (Z.div_mod x 256 ltac:(lia)). lia.
Qed.

Lemma u16Swap_involutive_witness : u16Swap (u16Swap 0x1234) = 0x1234.
Proof. apply (u16Swap_involutive 0x1234). lia. Defined.

Lemma R2_range (instr : Z) : 0 <= R2 instr <= 7.
Proof.
  pose proof (land_ones_range instr 3 ltac:(lia)) as H.
  change (Z.ones 3) with 7 in H. change (2 ^ 3) with 8 in H. unfold R2. lia.
Qed.

(** X2.  The three register fields of an instruction word, whatever the
    word, select one of the eight general registers: none of them can name
    the program counter or the condition flags. *)
Theorem register_fields_select_general_registers (instr : Z) :
  (0 <= R0 instr <= kR7 ∧ 0 <= R1 instr <= kR7 ∧ 0 <= R2 instr <= kR7)
  ∧ R0 instr ≠ kRPC ∧ R1 instr ≠ kRPC ∧ R2 instr ≠ kRPC
  ∧ R0 instr ≠ kRCond ∧ R1 instr ≠ kRCond ∧ R2 instr ≠ kRCond.
Proof.
  pose proof (R0_range instr). pose proof (R1_range instr).
  pose proof (R2_range instr). unfold kR7, kRPC, kRCond. lia.
Qed.

(** Bit n-1 of an n-bit field is set exactly when the field is at least
    2^(n-1). *)
Lemma testbit_top (x n : Z) :
  1 <= n → 0 <= x < 2 ^ n → Z.testbit x (n - 1) = (2 ^ (n - 1) <=? x).
Proof.
  intros Hn Hx.
  assert (Hp : 2 ^ n = 2 * 2 ^ (n - 1)).
  { replace n with (Z.succ (n - 1)) at 1 by lia. apply Z.pow_succ_r. lia. }
  assert (Hpos : 0 < 2 ^ (n - 1)) by (apply Z.pow_pos_nonneg; lia).
  rewrite Z.testbit_odd, Z.shiftr_div_pow2 by lia.
  destruct (Z.leb_spec (2 ^ (n - 1)) x) as [Hge | Hlt].
  - replace (x / 2 ^ (n - 1)) with 1; [reflexivity |].
    apply Z.div_unique with (r := x - 2 ^ (n - 1)); lia.
  - rewrite Z.div_small by lia. reflexivity.
Qed.

(** Adding a sign-extended field is adding the signed value of the field,
    modulo 2^16. *)
Lemma add_SignExtend (a x n : Z) :
  1 <= n <= 15 → 0 <= x < 2 ^ n →
  wrap16 (a + SignExtend x n)
  = (a + (if 2 ^ (n - 1) <=? x then x - 2 ^ n else x)) mod 65536.
Proof.
  intros Hn Hx. rewrite <- (testbit_top x n) by lia. unfold wrap16.
  destruct (Z.testbit x (n - 1)) eqn:Hb.
  - rewrite (SignExtend_neg x n Hn Hx Hb).
    replace (a + (x - 2 ^ n + 65536)) with (a + (x - 2 ^ n) + 1 * 65536) by ring.
    apply Z_mod_plus_full.
  - rewrite (SignExtend_nonneg x n Hn Hb). reflexivity.
Qed.

(** X3.  The offsets of the addressing modes are signed: PCoffset9 moves
    the program counter by -256 to 255, offset6 moves a base register by
    -32 to 31 and the PCoffset11 of JSR moves the counter by -1024 to 1023,
    always modulo 2^16. *)
Theorem offsets_are_signed (instr : Z) (vm : VM) :
  (∃ s, -256 <= s <= 255
        ∧ s = (if 256 <=? Z.land instr 0x1FF
               then Z.land instr 0x1FF - 512 else Z.land instr 0x1FF)
        ∧ pc_offset9 instr vm = (reg vm kRPC + s) mod 65536)
  ∧ (∃ s, -32 <= s <= 31
          ∧ s = (if 32 <=? Z.land instr 0x3F
                 then Z.land instr 0x3F - 64 else Z.land instr 0x3F)
          ∧ base_offset6 instr vm = (reg vm (R1 instr) + s) mod 65536)
  ∧ (∃ s, -1024 <= s <= 1023
          ∧ s = (if 1024 <=? Z.land instr 0x7FF
                 then Z.land instr 0x7FF - 2048 else Z.land instr 0x7FF)
          ∧ wrap16 (reg vm kRPC + SignExtend (Z.land instr 0x7FF) 11)
            = (reg vm kRPC + s) mod 65536).
Proof.
  pose proof (land_ones_range instr 9 ltac:(lia)) as H9.
  pose proof (land_ones_range instr 6 ltac:(lia)) as H6.
  pose proof (land_ones_range instr 11 ltac:(lia)) as H11.
  change (Z.ones 9) with 0x1FF in H9. change (Z.ones 6) with 0x3F in H6.
  change (Z.ones 11) with 0x7FF in H11.
  change (2 ^ 9) with 512 in H9. change (2 ^ 6) with 64 in H6.
  change (2 ^ 11) with 2048 in H11.
  split; [| split]; eexists; (split; [| split; [reflexivity |]]).
  - destruct (Z.leb_spec 256 (Z.land instr 511)); lia.
  - unfold pc_offset9. apply (add_SignExtend _ _ 9); [lia | exact H9].
  - destruct (Z.leb_spec 32 (Z.land instr 63)); lia.
  - unfold base_offset6. apply (add_SignExtend _ _ 6); [lia | exact H6].
  - destruct (Z.leb_spec 1024 (Z.land instr 2047)); lia.
  - apply (add_SignExtend _ _ 11); [lia | exact H11].
Qed.
(** ** Memory cells and the keyboard registers *)

(** X4.  A word stored in a cell of the array other than 0xFE00 is what a
    read of that cell returns next, no other cell and no register changes,
    and the read changes nothing.  A word stored at 0xFE00 is never read
    back: the read polls the keyboard first and returns 0 or 0x8000.  At
    an address from 65535 on, the store and the read are outside the
    array. *)
Theorem stored_word_is_read_back (vm : VM) (t : Terminal) (a v : Z) :
  VM_wf vm = true → 0 <= a →
  (a < kMaxMemory →
   ∃ vm', mem_store a v vm = Ok vm'
          ∧ reg_ vm' = reg_ vm
          ∧ (∀ b, 0 <= b → b ≠ a →
               memory_ vm' !! Z.to_nat b = memory_ vm !! Z.to_nat b)
          ∧ (a ≠ kKeyboardStatus → MemRead a vm' t = Ok (v, vm', t))
          ∧ (a = kKeyboardStatus → 0 <= v < 65536 →
             ∃ w vm'' t', MemRead a vm' t = Ok (w, vm'', t')
                          ∧ (w = 0 ∨ w = 0x8000)))
  ∧ (kMaxMemory <= a →
     mem_store a v vm = Err (OobWrite a)
     ∧ MemRead a vm t = Err (OobRead a)).
Proof.
  intros Hwf Ha. pose proof (mem_length_wf vm Hwf) as Hl. split.
  - intros Hlt.
    assert (Hin : (Z.to_nat a < length (memory_ vm))%nat) by (rewrite Hl; idx).
    rewrite (mem_store_in_bounds vm a v Hin). eexists. split; [reflexivity |].
    cbn [memory_ reg_]. split; [reflexivity |]. split; [| split].
    + intros b Hb Hne. apply list_lookup_insert_ne. lia.
    + intros Hne. rewrite MemRead_plain by exact Hne. cbn [memory_].
      unfold load. rewrite list_lookup_insert_eq by exact Hin. reflexivity.
    + intros -> Hv.
      assert (Hwf' : VM_wf {| memory_ := <[Z.to_nat kKeyboardStatus := v]>
                                           (memory_ vm);
                              reg_ := reg_ vm |} = true).
      { apply (mem_store_wf vm _ kKeyboardStatus v Hwf Hv).
        apply mem_store_in_bounds, Hin. }
      destruct (stdin t) as [| c rest] eqn:Hstdin.
      * rewrite (MemRead_status_idle _ t Hwf' Hstdin). eauto 6.
      * rewrite (MemRead_status_pending _ t c rest Hwf' Hstdin). eauto 6.
  - intros Hge. split.
    + unfold mem_store. rewrite store_out_of_bounds by (rewrite Hl; idx).
      reflexivity.
    + rewrite MemRead_plain by idx. rewrite load_out_of_bounds by (rewrite Hl; idx).
      reflexivity.
Qed.

Lemma stored_word_is_read_back_witness :
  ∃ vm', mem_store 0x4000 0xBEEF VM_init = Ok vm'
         ∧ MemRead 0x4000 vm' tty_key_a = Ok (0xBEEF, vm', tty_key_a).
Proof.
  destruct (stored_word_is_read_back VM_init tty_key_a 0x4000 0xBEEF)
    as [H _]; [reflexivity | lia |].
  destruct H as (vm' & Hst & _ & _ & Hrd & _); [idx |].
  exists vm'. split; [exact Hst |]. apply Hrd. idx.
Defined.

(** X5.  A read of the status register 0xFE00 with a key pending takes
    that key from the input, once, and puts it in the data register 0xFE02:
    the read returns 0x8000, and a read of the data register then returns
    the key and takes nothing.  With no key pending the status read returns
    0, takes nothing and leaves in the data register what it held.  In both
    cases no register and no other cell changes. *)
Theorem status_read_takes_one_key (vm : VM) (t : Terminal) :
  VM_wf vm = true →
  (∀ c rest,
     stdin t = c :: rest →
     ∃ vm1 t1,
       MemRead kKeyboardStatus vm t = Ok (0x8000, vm1, t1)
       ∧ stdin t1 = rest ∧ stdout t1 = stdout t
       ∧ reg_ vm1 = reg_ vm
       ∧ MemRead kKeyboardData vm1 t1 = Ok (byte_val c, vm1, t1)
       ∧ (∀ a, 0 <= a → a ≠ kKeyboardStatus → a ≠ kKeyboardData →
               memory_ vm1 !! Z.to_nat a = memory_ vm !! Z.to_nat a))
  ∧ (stdin t = [] →
     ∃ vm1 w,
       MemRead kKeyboardStatus vm t = Ok (0, vm1, t)
       ∧ reg_ vm1 = reg_ vm
       ∧ memory_ vm !! Z.to_nat kKeyboardData = Some w
       ∧ MemRead kKeyboardData vm1 t = Ok (w, vm1, t)
       ∧ (∀ a, 0 <= a → a ≠ kKeyboardStatus →
               memory_ vm1 !! Z.to_nat a = memory_ vm !! Z.to_nat a)).
Proof.
  intros Hwf. pose proof (mem_length_wf vm Hwf) as Hl. split.
  - intros c rest Hin.
    pose proof (MemRead_status_pending vm t c rest Hwf Hin) as Hrd.
    do 2 eexists. split; [exact Hrd |].
    split; [reflexivity |]. split; [reflexivity |]. split; [reflexivity |].
    split.
    + rewrite MemRead_plain by idx. cbn [memory_]. unfold load.
      rewrite list_lookup_insert_eq by (rewrite length_insert, Hl; idx).
      reflexivity.
    + exact (MemRead_cells _ _ _ _ _ _ Hwf Hrd).
  - intros Hin.
    pose proof (MemRead_status_idle vm t Hwf Hin) as Hrd.
    destruct (lookup_lt_is_Some_2 (memory_ vm) (Z.to_nat kKeyboardData))
      as [w Hw]; [rewrite Hl; idx |].
    exists {| memory_ := <[Z.to_nat kKeyboardStatus := 0]> (memory_ vm);
              reg_ := reg_ vm |}, w.
    split; [exact Hrd |]. split; [reflexivity |]. split; [exact Hw |].
    split.
    + rewrite MemRead_plain by idx. cbn [memory_]. unfold load.
      rewrite list_lookup_insert_ne by idx. rewrite Hw. reflexivity.
    + intros a Ha Hs. cbn [memory_]. apply list_lookup_insert_ne. idx.
Qed.

Lemma status_read_takes_one_key_witness :
  ∃ vm1 t1,
    MemRead kKeyboardStatus VM_init tty_key_a = Ok (0x8000, vm1, t1)
    ∧ stdin t1 = [] ∧ stdout t1 = stdout tty_key_a
    ∧ reg_ vm1 = reg_ VM_init
    ∧ MemRead kKeyboardData vm1 t1 = Ok (byte_val x61, vm1, t1)
    ∧ (∀ a, 0 <= a → a ≠ kKeyboardStatus → a ≠ kKeyboardData →
            memory_ vm1 !! Z.to_nat a = memory_ VM_init !! Z.to_nat a).
Proof.
  exact (proj1 (status_read_takes_one_key VM_init tty_key_a eq_refl)
           x61 [] eq_refl).
Defined.
(** ** What the instructions leave alone *)

(** X6.  ADD, AND, BR, JMP, JSR/JSRR, LEA and NOT always complete, leave
    [running] set, and touch neither memory nor the terminal: they work on
    the registers only. *)
Theorem register_instructions_keep_memory
  (instr : Z) (vm : VM) (t : Terminal) :
  Z.shiftr instr 12 = kOpAdd ∨ Z.shiftr instr 12 = kOpAnd
  ∨ Z.shiftr instr 12 = kOpBr ∨ Z.shiftr instr 12 = kOpJmp
  ∨ Z.shiftr instr 12 = kOpJsr ∨ Z.shiftr instr 12 = kOpLea
  ∨ Z.shiftr instr 12 = kOpNot →
  ∃ vm', exec instr vm t = Ok (vm', t, true) ∧ memory_ vm' = memory_ vm.
Proof.
  intros [Hop | [Hop | [Hop | [Hop | [Hop | [Hop | Hop]]]]]];
    exec_case_goal Hop;
    repeat match goal with
           | |- context [if truthy ?c then _ else _] => destruct (truthy c)
           end;
    eexists; (split; [reflexivity |]); rewrite ?UpdateFlag_memory; reflexivity.
Qed.

Lemma register_instructions_keep_memory_witness :
  ∃ vm', exec 0x1021 (vm_with 0x3000 0xBEEF) tty_key_a = Ok (vm', tty_key_a, true)
         ∧ memory_ vm' = memory_ (vm_with 0x3000 0xBEEF).
Proof.
  apply (register_instructions_keep_memory 0x1021). left. reflexivity.
Defined.

(** X7.  ST, STI and STR never change a register, the condition flags
    included, and leave [running] set; ST and STR do not read the keyboard
    (STI reads the cell that holds its address, through MemRead).  ST and
    STR complete when their address is inside the array and then the cell
    holds the source register. *)
Theorem stores_keep_registers (instr : Z) (vm : VM) (t : Terminal) :
  VM_wf vm = true →
  Z.shiftr instr 12 = kOpSt ∨ Z.shiftr instr 12 = kOpSti
  ∨ Z.shiftr instr 12 = kOpStr →
  (∀ vm' t' running,
     exec instr vm t = Ok (vm', t', running) →
     reg_ vm' = reg_ vm ∧ running = true ∧ stdout t' = stdout t
     ∧ (Z.shiftr instr 12 ≠ kOpSti → t' = t))
  ∧ (Z.shiftr instr 12 = kOpSt → pc_offset9 instr vm < kMaxMemory →
     ∃ vm', exec instr vm t = Ok (vm', t, true)
            ∧ memory_ vm' !! Z.to_nat (pc_offset9 instr vm)
              = Some (reg vm (R0 instr)))
  ∧ (Z.shiftr instr 12 = kOpStr → base_offset6 instr vm < kMaxMemory →
     ∃ vm', exec instr vm t = Ok (vm', t, true)
            ∧ memory_ vm' !! Z.to_nat (base_offset6 instr vm)
              = Some (reg vm (R0 instr))).
Proof.
  intros Hwf Hop. pose proof (mem_length_wf vm Hwf) as Hl.
  split; [| split].
  - intros vm' t' running H.
    destruct Hop as [Hop | [Hop | Hop]]; exec_case Hop H; inv_result H;
      try match goal with
          | E : MemRead _ vm _ = Ok _ |- _ =>
              pose proof (proj1 (proj2 (MemRead_inv _ _ _ _ _ _ Hwf E)))
          end;
      use_reads;
      repeat match goal with
             | E : mem_store _ _ _ = Ok _ |- _ =>
                 apply mem_store_inv in E as (_ & ->)
             end;
      cbn [reg_]; repeat split; try congruence; try reflexivity.
  - intros Hst Hea. exec_case_goal Hst.
    assert (Hin : (Z.to_nat (pc_offset9 instr vm) < length (memory_ vm))%nat).
    { pose proof (wrap16_range (reg vm kRPC + SignExtend (Z.land instr 511) 9)).
      unfold pc_offset9 in *. rewrite Hl. idx. }
    rewrite (mem_store_in_bounds vm _ _ Hin). cbn [mbind result_bind].
    eexists. split; [reflexivity |]. cbn [memory_].
    apply list_lookup_insert_eq, Hin.
  - intros Hst Hea. exec_case_goal Hst.
    assert (Hin : (Z.to_nat (base_offset6 instr vm) < length (memory_ vm))%nat).
    { pose proof (wrap16_range
                    (reg vm (R1 instr) + SignExtend (Z.land instr 63) 6)).
      unfold base_offset6 in *. rewrite Hl. idx. }
    rewrite (mem_store_in_bounds vm _ _ Hin). cbn [mbind result_bind].
    eexists. split; [reflexivity |]. cbn [memory_].
    apply list_lookup_insert_eq, Hin.
Qed.

Lemma stores_keep_registers_witness :
  ∃ vm', exec 0x3002 (Run_init VM_init) tty_key_a = Ok (vm', tty_key_a, true)
         ∧ memory_ vm' !! Z.to_nat (pc_offset9 0x3002 (Run_init VM_init))
           = Some (reg (Run_init VM_init) (R0 0x3002)).
Proof.
  destruct (stores_keep_registers 0x3002 (Run_init VM_init) tty_key_a)
    as (_ & Hst & _).
  - reflexivity.
  - left. reflexivity.
  - apply Hst; reflexivity.
Defined.
(** ** Control flow *)

(** A flag value tests the condition bit of its own position. *)
Lemma flag_tests_its_bit (f m : Z) :
  f = kFlPos ∨ f = kFlZro ∨ f = kFlNeg →
  truthy (Z.land f m)
  = (Z.testbit m 2 && (f =? kFlNeg))
    || (Z.testbit m 1 && (f =? kFlZro))
    || (Z.testbit m 0 && (f =? kFlPos)).
Proof.
  assert (Hbit : ∀ k, 0 <= k →
            truthy (Z.land (2 ^ k) m) = Z.testbit m k).
  { intros k Hk. replace (Z.land (2 ^ k) m)
      with (if Z.testbit m k then 2 ^ k else 0).
    - destruct (Z.testbit m k); [| reflexivity].
      unfold truthy. destruct (Z.eqb_spec (2 ^ k) 0) as [E | _]; [| reflexivity].
      pose proof (Z.pow_pos_nonneg 2 k). lia.
    - apply Z.bits_inj'. intros i Hi. rewrite Z.land_spec, Z.pow2_bits_eqb by lia.
      destruct (Z.eqb_spec k i) as [-> | Hne].
      + destruct (Z.testbit m i); [| apply Z.bits_0].
        rewrite Z.pow2_bits_true by lia. reflexivity.
      + destruct (Z.testbit m k); [| apply Z.bits_0].
        rewrite Z.pow2_bits_false by lia. reflexivity. }
  intros [-> | [-> | ->]].
  - change kFlPos with (2 ^ 0). rewrite Hbit by lia.
    destruct (Z.testbit m 2), (Z.testbit m 1), (Z.testbit m 0); reflexivity.
  - change kFlZro with (2 ^ 1). rewrite Hbit by lia.
    destruct (Z.testbit m 2), (Z.testbit m 1), (Z.testbit m 0); reflexivity.
  - change kFlNeg with (2 ^ 2). rewrite Hbit by lia.
    destruct (Z.testbit m 2), (Z.testbit m 1), (Z.testbit m 0); reflexivity.
Qed.

Lemma testbit_land_shiftr_7 (instr k : Z) :
  0 <= k < 3 →
  Z.testbit (Z.land (Z.shiftr instr 9) 0x7) k = Z.testbit instr (k + 9).
Proof.
  intros Hk. change 7 with (Z.ones 3).
  rewrite Z.land_spec, Z.shiftr_spec, Z.ones_spec_low by lia.
  apply andb_true_r.
Qed.

(** X8.  In a reachable state BR branches exactly when the one flag that
    is set is among the condition bits of the instruction (bit 11 for NEG,
    bit 10 for ZERO, bit 9 for POS); the target is the incremented counter
    plus the signed offset.  With no condition bit (as in a zero word) the
    step only increments the counter, with all three it always branches. *)
Theorem branch_follows_the_flag
  (vm vm1 : VM) (t t1 : Terminal) (instr : Z) :
  reachable vm t → fetch vm t = Ok (instr, vm1, t1) →
  Z.shiftr instr 12 = kOpBr →
  step vm t
  = Ok (if (Z.testbit instr 11 && (reg vm kRCond =? kFlNeg))
           || (Z.testbit instr 10 && (reg vm kRCond =? kFlZro))
           || (Z.testbit instr 9 && (reg vm kRCond =? kFlPos))
        then set_reg kRPC (pc_offset9 instr vm1) vm1 else vm1,
        t1, true)
  ∧ (Z.land (Z.shiftr instr 9) 0x7 = 0 → step vm t = Ok (vm1, t1, true))
  ∧ (Z.land (Z.shiftr instr 9) 0x7 = 7 →
     step vm t = Ok (set_reg kRPC (pc_offset9 instr vm1) vm1, t1, true)).
Proof.
  intros Hreach Hf Hop. pose proof (reachable_wf vm t Hreach) as Hwf.
  pose proof (reachable_flags_one_hot vm t Hreach) as Hoh.
  destruct (fetch_inv vm vm1 t t1 instr Hwf Hf) as (_ & _ & _ & Hregs & _).
  assert (Hflags : reg vm1 kRCond = reg vm kRCond) by (apply Hregs; idx).
  assert (Hstep : step vm t
                  = Ok (if truthy (Z.land (reg vm kRCond)
                                     (Z.land (Z.shiftr instr 9) 0x7))
                        then set_reg kRPC (pc_offset9 instr vm1) vm1 else vm1,
                        t1, true)).
  { unfold step. rewrite Hf. cbn [mbind result_bind]. exec_case_goal Hop.
    rewrite Hflags. destruct (truthy _); reflexivity. }
  rewrite (flag_tests_its_bit _ _ Hoh) in Hstep.
  split; [| split].
  - rewrite Hstep, !testbit_land_shiftr_7 by lia. reflexivity.
  - intros Hz. rewrite Hstep, Hz, !Z.bits_0. reflexivity.
  - intros H7. rewrite Hstep, H7.
    destruct Hoh as [-> | [-> | ->]]; reflexivity.
Qed.

Lemma branch_follows_the_flag_witness :
  step (Run_init (vm_one 0x0403)) tty_idle
  = Ok (set_reg kRPC 0x3004 (set_reg kRPC 0x3001 (Run_init (vm_one 0x0403))),
        tty_idle, true).
Proof.
  refine (proj1 (branch_follows_the_flag (Run_init (vm_one 0x0403))
                   (set_reg kRPC 0x3001 (Run_init (vm_one 0x0403)))
                   tty_idle tty_idle 0x0403 _ _ _)).
  - apply reach_init. reflexivity.
  - reflexivity.
  - reflexivity.
Defined.
(** X9.  JSR and JSRR save the address of the next instruction in R7, and
    a later JMP through R7 (RET) brings the program counter back to it,
    whatever the subroutine's address.  One case apart: JSRR through R7
    itself does not jump at all, because R7 is overwritten with the return
    address before the target is read from it. *)
Theorem call_and_return (call ret : Z) (vm : VM) (t : Terminal) :
  VM_wf vm = true →
  Z.shiftr call 12 = kOpJsr →
  Z.shiftr ret 12 = kOpJmp → R1 ret = kR7 →
  ∃ vm1 vm2,
    exec call vm t = Ok (vm1, t, true)
    ∧ reg vm1 kR7 = reg vm kRPC
    ∧ (truthy (Z.land (Z.shiftr call 11) 0x1) = true →
       reg vm1 kRPC
       = wrap16 (reg vm kRPC + SignExtend (Z.land call 0x7FF) 11))
    ∧ (truthy (Z.land (Z.shiftr call 11) 0x1) = false →
       reg vm1 kRPC = if R1 call =? kR7 then reg vm kRPC
                      else reg vm (R1 call))
    ∧ exec ret vm1 t = Ok (vm2, t, true)
    ∧ reg vm2 kRPC = reg vm kRPC.
Proof.
  intros Hwf Hcall Hret Hr7.
  pose proof (reg_length_wf vm Hwf) as Hl.
  pose proof (R1_range call) as Hr1.
  assert (H7 : ∀ v, reg (set_reg kR7 v vm) kR7 = v)
    by (intros v; apply reg_set_reg_eq; rewrite Hl; idx).
  assert (Hpc : ∀ v w, reg (set_reg kRPC w (set_reg kR7 v vm)) kRPC = w).
  { intros v w. apply reg_set_reg_eq. cbn [set_reg reg_].
    rewrite length_insert, Hl. idx. }
  assert (Hret' : ∀ vm1, (Z.to_nat kRPC < length (reg_ vm1))%nat →
            exec ret vm1 t = Ok (set_reg kRPC (reg vm1 kR7) vm1, t, true)
            ∧ reg (set_reg kRPC (reg vm1 kR7) vm1) kRPC = reg vm1 kR7).
  { intros vm1 Hlen. split.
    - exec_case_goal Hret. rewrite Hr7. reflexivity.
    - apply reg_set_reg_eq, Hlen. }
  destruct (truthy (Z.land (Z.shiftr call 11) 0x1)) eqn:Hmode.
  - destruct (Hret' (set_reg kRPC
                       (wrap16 (reg (set_reg kR7 (reg vm kRPC) vm) kRPC
                                + SignExtend (Z.land call 0x7FF) 11))
                       (set_reg kR7 (reg vm kRPC) vm))) as [He Hp].
    { cbn [set_reg reg_]. rewrite !length_insert, Hl. idx. }
    do 2 eexists. split; [exec_case_goal Hcall; rewrite Hmode; reflexivity |].
    split; [rewrite reg_set_reg_ne by idx; apply H7 |].
    split; [intros _; rewrite Hpc, reg_set_reg_ne by idx; reflexivity |].
    split; [discriminate |]. split; [exact He |].
    rewrite Hp. rewrite reg_set_reg_ne by idx. apply H7.
  - destruct (Hret' (set_reg kRPC
                       (reg (set_reg kR7 (reg vm kRPC) vm) (R1 call))
                       (set_reg kR7 (reg vm kRPC) vm))) as [He Hp].
    { cbn [set_reg reg_]. rewrite !length_insert, Hl. idx. }
    do 2 eexists. split; [exec_case_goal Hcall; rewrite Hmode; reflexivity |].
    split; [rewrite reg_set_reg_ne by idx; apply H7 |].
    split; [discriminate |].
    split.
    { intros _. rewrite Hpc.
      destruct (Z.eqb_spec (R1 call) kR7) as [-> | Hne]; [apply H7 |].
      apply reg_set_reg_ne; idx. }
    split; [exact He |].
    rewrite Hp. rewrite reg_set_reg_ne by idx. apply H7.
Qed.

Lemma call_and_return_witness :
  ∃ vm1 vm2,
    exec 0x4805 (Run_init VM_init) tty_idle = Ok (vm1, tty_idle, true)
    ∧ reg vm1 kR7 = 0x3000
    ∧ exec 0xC1C0 vm1 tty_idle = Ok (vm2, tty_idle, true)
    ∧ reg vm2 kRPC = 0x3000.
Proof.
  destruct (call_and_return 0x4805 0xC1C0 (Run_init VM_init) tty_idle)
    as (vm1 & vm2 & H1 & H2 & _ & _ & H3 & H4); try reflexivity.
  exists vm1, vm2. auto.
Defined.

(** ** Arithmetic *)

(** X10.  ADD writes the sum modulo 2^16 of the first source register and
    either the second source register or the signed five-bit immediate,
    which ranges over -16 to 15 (so ADD with immediate 0x16 subtracts 10);
    the other general registers and the program counter are unchanged. *)
Theorem add_is_signed_addition (instr : Z) (vm : VM) (t : Terminal) :
  VM_wf vm = true → Z.shiftr instr 12 = kOpAdd →
  ∃ vm',
    exec instr vm t = Ok (vm', t, true)
    ∧ reg vm' (R0 instr)
      = (reg vm (R1 instr)
         + (if truthy (Z.land (Z.shiftr instr 5) 0x1)
            then (if 16 <=? Z.land instr 0x1F
                  then Z.land instr 0x1F - 32 else Z.land instr 0x1F)
            else reg vm (R2 instr))) mod 65536
    ∧ (∀ r, 0 <= r <= kRPC → r ≠ R0 instr → reg vm' r = reg vm r).
Proof.
  intros Hwf Hop. pose proof (reg_length_wf vm Hwf) as Hl.
  pose proof (R0_range instr) as Hr0.
  pose proof (land_ones_range instr 5 ltac:(lia)) as H5.
  change (Z.ones 5) with 0x1F in H5. change (2 ^ 5) with 32 in H5.
  eexists. split; [exec_case_goal Hop; reflexivity |]. split.
  - rewrite UpdateFlag_reg by idx.
    destruct (truthy (Z.land (Z.shiftr instr 5) 0x1));
      rewrite reg_set_reg_eq by (rewrite Hl; idx).
    + apply (add_SignExtend _ _ 5); [lia | exact H5].
    + reflexivity.
  - intros r Hr Hne. rewrite UpdateFlag_reg by idx.
    destruct (truthy (Z.land (Z.shiftr instr 5) 0x1));
      apply reg_set_reg_ne; idx.
Qed.

Lemma add_is_signed_addition_witness :
  ∃ vm', exec 0x1236 (set_reg kR0 10 VM_init) tty_idle = Ok (vm', tty_idle, true)
         ∧ reg vm' kR1 = 0.
Proof.
  destruct (add_is_signed_addition 0x1236 (set_reg kR0 10 VM_init) tty_idle)
    as (vm' & He & Hv & _); try reflexivity.
  exists vm'. split; [exact He |]. exact Hv.
Defined.

(** X11.  AND with the immediate 0 clears its destination register,
    whatever the source register holds, and sets the ZERO flag (the idiom
    the head of main.cc uses to clear R0). *)
Theorem and_zero_clears (instr : Z) (vm : VM) (t : Terminal) :
  VM_wf vm = true → Z.shiftr instr 12 = kOpAnd →
  truthy (Z.land (Z.shiftr instr 5) 0x1) = true → Z.land instr 0x1F = 0 →
  ∃ vm',
    exec instr vm t = Ok (vm', t, true)
    ∧ reg vm' (R0 instr) = 0
    ∧ reg vm' kRCond = kFlZro.
Proof.
  intros Hwf Hop Hmode Himm. pose proof (reg_length_wf vm Hwf) as Hl.
  pose proof (R0_range instr) as Hr0.
  assert (Hv : reg (set_reg (R0 instr)
                      (wrap16 (Z.land (reg vm (R1 instr))
                                 (SignExtend (Z.land instr 0x1F) 5))) vm)
                 (R0 instr) = 0).
  { rewrite reg_set_reg_eq by (rewrite Hl; idx).
    rewrite Himm. change (SignExtend 0 5) with 0. rewrite Z.land_0_r.
    reflexivity. }
  eexists. split; [exec_case_goal Hop; rewrite Hmode; reflexivity |]. split.
  - rewrite UpdateFlag_reg by idx. exact Hv.
  - unfold UpdateFlag. rewrite Hv. cbn [Z.eqb].
    apply reg_set_reg_eq. cbn [set_reg reg_]. rewrite length_insert, Hl. idx.
Qed.

Lemma and_zero_clears_witness :
  ∃ vm', exec 0x5020 (set_reg kR0 0xBEEF VM_init) tty_idle
         = Ok (vm', tty_idle, true)
         ∧ reg vm' (R0 0x5020) = 0 ∧ reg vm' kRCond = kFlZro.
Proof.
  apply (and_zero_clears 0x5020 (set_reg kR0 0xBEEF VM_init) tty_idle);
    reflexivity.
Defined.
(** ** Traps *)

Lemma byte_of_Z_mod (z : Z) : byte_of_Z (z mod 256) = byte_of_Z z.
Proof. unfold byte_of_Z. rewrite Z.mod_mod by lia. reflexivity. Qed.

Lemma byte_of_Z_to_char (z : Z) : byte_of_Z (to_char z) = byte_of_Z z.
Proof.
  unfold byte_of_Z, to_char.
  replace (((z + 128) mod 256 - 128) mod 256) with (z mod 256);
    [reflexivity |].
  rewrite Zminus_mod, Z.mod_mod by lia. rewrite <- Zminus_mod.
  f_equal. lia.
Qed.

Lemma byte_of_Z_byte_val (b : byte) : byte_of_Z (byte_val b) = b.
Proof.
  unfold byte_of_Z, byte_val.
  rewrite Z.mod_small by (pose proof (Byte.to_N_bounded b); lia).
  rewrite N2Z.id, Byte.of_to_N. reflexivity.
Qed.

Lemma to_char_zero_iff (z : Z) : 0 <= z < 256 → truthy (to_char z) = negb (z =? 0).
Proof.
  intros Hz. unfold truthy, to_char. f_equal.
  destruct (Z.eqb_spec z 0) as [-> | Hne]; [reflexivity |].
  apply Z.eqb_neq.
  destruct (Z_lt_le_dec z 128).
  - rewrite Z.mod_small by lia. lia.
  - replace (z + 128) with (z - 128 + 1 * 256) by ring.
    rewrite Z_mod_plus_full, Z.mod_small by lia. lia.
Qed.

(** The terminal after the bytes [bs] have been written. *)
Lemma putc_stdout (c : Z) (t : Terminal) :
  putc c t = {| stdin := stdin t; stdout := stdout t ++ [byte_of_Z c] |}.
Proof. reflexivity. Qed.

Lemma puts_loop_string (ws : list Z) :
  ∀ (rest : list Z) (c : Z) (t : Terminal),
    Forall (λ w, w ≠ 0) ws →
    puts_loop (ws ++ 0 :: rest) c t
    = Ok {| stdin := stdin t; stdout := stdout t ++ (byte_of_Z <$> ws) |}.
Proof.
  induction ws as [| w ws IH]; intros rest c t Hnz; cbn [app puts_loop fmap list_fmap].
  - cbn. rewrite app_nil_r. destruct t; reflexivity.
  - apply Forall_cons in Hnz as [Hw Hnz]. unfold truthy at 1.
    destruct (Z.eqb_spec w 0) as [E | _]; [contradiction |]. cbn [negb].
    rewrite IH by exact Hnz. cbn [putc stdin stdout].
    rewrite byte_of_Z_to_char, <- app_assoc. reflexivity.
Qed.

Lemma puts_loop_unterminated (ws : list Z) :
  ∀ (c : Z) (t : Terminal),
    Forall (λ w, w ≠ 0) ws →
    puts_loop ws c t = Err (OobRead (c + Z.of_nat (length ws))).
Proof.
  induction ws as [| w ws IH]; intros c t Hnz; cbn [puts_loop length].
  - rewrite Z.add_0_r. reflexivity.
  - apply Forall_cons in Hnz as [Hw Hnz]. unfold truthy.
    destruct (Z.eqb_spec w 0) as [E | _]; [contradiction |]. cbn [negb].
    rewrite IH by exact Hnz. do 2 f_equal. lia.
Qed.

(** X12.  TRAP PUTS writes the low byte of each word from Memory[R0] up to
    the first zero word, which it does not write, and changes neither the
    machine nor the pending input.  When no word from Memory[R0] to the end
    of the array is zero, the scan runs off the array at index 65535. *)
Theorem puts_writes_up_to_zero
  (instr : Z) (vm : VM) (t : Terminal) (ws rest : list Z) :
  VM_wf vm = true →
  Z.shiftr instr 12 = kOpTrap → Z.land instr 0xFF = kTrapPuts →
  Forall (λ w, w ≠ 0) ws →
  (drop (Z.to_nat (reg vm kR0)) (memory_ vm) = ws ++ 0 :: rest →
   exec instr vm t
   = Ok (vm, {| stdin := stdin t; stdout := stdout t ++ (byte_of_Z <$> ws) |},
         true))
  ∧ (drop (Z.to_nat (reg vm kR0)) (memory_ vm) = ws →
     exec instr vm t = Err (OobRead kMaxMemory)).
Proof.
  intros Hwf Hop Hcode Hnz. pose proof (mem_length_wf vm Hwf) as Hl.
  pose proof (reg_u16 vm kR0 Hwf) as Hr.
  assert (Hexec : exec instr vm t
                  = (t1 ← puts_loop (drop (Z.to_nat (reg vm kR0)) (memory_ vm))
                            (reg vm kR0) t;
                     Ok (vm, t1, true))).
  { exec_case_goal Hop. unfold trap. rewrite Hcode. reflexivity. }
  rewrite Hexec. split; intros Hmem; rewrite Hmem.
  - rewrite (puts_loop_string ws rest _ t Hnz). reflexivity.
  - rewrite (puts_loop_unterminated ws _ t Hnz). cbn [mbind result_bind].
    do 2 f_equal. rewrite <- Hmem, length_drop, Hl. idx.
Qed.

Lemma puts_writes_up_to_zero_witness :
  exec 0xF022
    (set_reg kR0 0x3003
       {| memory_ := <[Z.to_nat 0x3003 := 72]>
                       (<[Z.to_nat 0x3004 := 105]> (memory_ VM_init));
          reg_ := reg_ VM_init |}) tty_idle
  = Ok (set_reg kR0 0x3003
          {| memory_ := <[Z.to_nat 0x3003 := 72]>
                          (<[Z.to_nat 0x3004 := 105]> (memory_ VM_init));
             reg_ := reg_ VM_init |},
        {| stdin := []; stdout := [x48; x69] |}, true).
Proof.
  refine (proj1 (puts_writes_up_to_zero 0xF022 _ tty_idle [72; 105]
                   (replicate (Z.to_nat (kMaxMemory - 0x3006)) 0) _ _ _ _) _).
  - reflexivity.
  - reflexivity.
  - reflexivity.
  - repeat constructor; discriminate.
  - reflexivity.
Defined.
(** The bytes TRAP PUTSP writes for one word: the low byte, then the high
    byte when it is not zero. *)
Lemma putsp_loop_string (ws : list Z) :
  ∀ (rest : list Z) (c : Z) (t : Terminal),
    Forall (λ w, 0 < w < 65536) ws →
    putsp_loop (ws ++ 0 :: rest) c t
    = Ok {| stdin := stdin t;
            stdout := stdout t
                      ++ concat ((λ w, byte_of_Z w
                                       :: if w <? 256 then []
                                          else [byte_of_Z (w / 256)])
                                 <$> ws) |}.
Proof.
  induction ws as [| w ws IH]; intros rest c t Hnz;
    cbn [app putsp_loop fmap list_fmap concat].
  - cbn. rewrite app_nil_r. destruct t; reflexivity.
  - apply Forall_cons in Hnz as [Hw Hnz]. unfold truthy at 1.
    destruct (Z.eqb_spec w 0) as [E | _]; [lia |]. cbn [negb].
    rewrite IH by exact Hnz. clear IH.
    assert (Hq : 0 <= Z.shiftr w 8 < 256).
    { rewrite Z.shiftr_div_pow2 by lia. change (2 ^ 8) with 256.
      split; [apply Z.div_pos; lia | apply Z.div_lt_upper_bound; lia]. }
    rewrite (to_char_zero_iff _ Hq).
    assert (Hlow : byte_of_Z (to_char (Z.land w 0xFF)) = byte_of_Z w).
    { rewrite byte_of_Z_to_char. change 0xFF with (Z.ones 8).
      rewrite Z.land_ones by lia. apply byte_of_Z_mod. }
    rewrite Z.shiftr_div_pow2 in * by lia. change (2 ^ 8) with 256 in *.
    destruct (Z.ltb_spec w 256) as [Hlt | Hge].
    + rewrite Z.div_small by lia. cbn [Z.eqb negb putc stdin stdout].
      rewrite Hlow, <- app_assoc. reflexivity.
    + destruct (Z.eqb_spec (w / 256) 0) as [E | _].
      { apply Z.div_small_iff in E; lia. }
      cbn [negb putc stdin stdout].
      rewrite Hlow, byte_of_Z_to_char, <- !app_assoc. reflexivity.
Qed.

(** X13.  TRAP PUTSP writes, for each word from Memory[R0] up to the first
    zero word, the low byte and then the high byte when it is not zero; a
    word with a zero low byte and a non-zero high byte gives a NUL byte
    followed by the high byte.  The machine and the pending input are
    unchanged. *)
Theorem putsp_writes_packed_bytes
  (instr : Z) (vm : VM) (t : Terminal) (ws rest : list Z) :
  VM_wf vm = true →
  Z.shiftr instr 12 = kOpTrap → Z.land instr 0xFF = kTrapPutsp →
  Forall (λ w, w ≠ 0) ws →
  drop (Z.to_nat (reg vm kR0)) (memory_ vm) = ws ++ 0 :: rest →
  exec instr vm t
  = Ok (vm,
        {| stdin := stdin t;
           stdout := stdout t
                     ++ concat ((λ w, byte_of_Z w
                                      :: if w <? 256 then []
                                         else [byte_of_Z (w / 256)])
                                <$> ws) |},
        true).
Proof.
  intros Hwf Hop Hcode Hnz Hmem.
  assert (Hu : Forall (λ w, 0 < w < 65536) ws).
  { apply VM_wf_spec in Hwf as (_ & _ & Hmu & _).
    apply (Forall_drop _ (Z.to_nat (reg vm kR0))) in Hmu.
    rewrite Hmem in Hmu. apply Forall_app in Hmu as [Hmu _].
    apply Forall_forall. intros w Hin.
    pose proof (proj1 (Forall_forall _ _) Hmu w Hin) as H1.
    pose proof (proj1 (Forall_forall _ _) Hnz w Hin) as H2.
    cbv beta in H1, H2. apply is_u16_spec in H1. lia. }
  exec_case_goal Hop. unfold trap. rewrite Hcode. cbn [Z.eqb Pos.eqb].
  change (kTrapPutsp =? kTrapGetc) with false.
  rewrite Hmem, (putsp_loop_string ws rest _ t Hu). reflexivity.
Qed.

Lemma putsp_writes_packed_bytes_witness :
  exec 0xF024
    (set_reg kR0 0x3003
       {| memory_ := <[Z.to_nat 0x3003 := 0x6948]>
                       (<[Z.to_nat 0x3004 := 0x0021]> (memory_ VM_init));
          reg_ := reg_ VM_init |}) tty_idle
  = Ok (set_reg kR0 0x3003
          {| memory_ := <[Z.to_nat 0x3003 := 0x6948]>
                          (<[Z.to_nat 0x3004 := 0x0021]> (memory_ VM_init));
             reg_ := reg_ VM_init |},
        {| stdin := []; stdout := [x48; x69; x21] |}, true).
Proof.
  refine (putsp_writes_packed_bytes 0xF024 _ tty_idle [0x6948; 0x21]
            (replicate (Z.to_nat (kMaxMemory - 0x3006)) 0) _ _ _ _ _).
  - reflexivity.
  - reflexivity.
  - reflexivity.
  - repeat constructor; discriminate.
  - reflexivity.
Defined.
Lemma UpdateFlag_after_write (v : Z) (vm : VM) :
  VM_wf vm = true → 0 <= v < 65536 →
  UpdateFlag kR0 (set_reg kR0 v vm)
  = set_reg kRCond
      (if v =? 0 then kFlZro else if v <? 32768 then kFlPos else kFlNeg)
      (set_reg kR0 v vm).
Proof.
  intros Hwf Hv. unfold UpdateFlag.
  rewrite reg_set_reg_eq by (rewrite (reg_length_wf vm Hwf); idx).
  destruct (Z.eqb_spec v 0) as [_ | Hnz]; [reflexivity |].
  rewrite Z.shiftr_div_pow2 by lia. change (2 ^ 15) with 32768.
  unfold truthy.
  destruct (Z.ltb_spec v 32768) as [Hlt | Hge].
  - rewrite Z.div_small by lia. reflexivity.
  - destruct (Z.eqb_spec (v / 32768) 0) as [E | _]; [| reflexivity].
    apply Z.div_small_iff in E; lia.
Qed.

Lemma exec_trap (instr : Z) (vm : VM) (t : Terminal) :
  Z.shiftr instr 12 = kOpTrap → exec instr vm t = trap instr vm t.
Proof. intros Hop. exec_case_goal Hop. reflexivity. Qed.

(** X14.  The two input traps differ on the same pending byte.  TRAP GETC
    puts the byte in R0 as a value in 0..255, writes nothing and never sets
    the negative flag.  TRAP IN writes the prompt and echoes the byte, and
    stores it through a [char]: a byte of 128 or more lands in R0 with the
    high byte 0xFF and sets the negative flag. *)
Theorem input_traps
  (instr : Z) (vm : VM) (t : Terminal) (c : byte) (rest : list byte) :
  VM_wf vm = true →
  Z.shiftr instr 12 = kOpTrap →
  stdin t = c :: rest →
  (Z.land instr 0xFF = kTrapGetc →
   exec instr vm t
   = Ok (set_reg kRCond (if byte_val c =? 0 then kFlZro else kFlPos)
           (set_reg kR0 (byte_val c) vm),
         {| stdin := rest; stdout := stdout t |}, true))
  ∧ (Z.land instr 0xFF = kTrapIn →
     exec instr vm t
     = Ok (set_reg kRCond
             (if byte_val c =? 0 then kFlZro
              else if byte_val c <? 128 then kFlPos else kFlNeg)
             (set_reg kR0
                (if byte_val c <? 128 then byte_val c
                 else 0xFF00 + byte_val c) vm),
           {| stdin := rest;
              stdout := stdout t
                        ++ list_byte_of_string "Enter a character: "
                        ++ [c] |},
           true)).
Proof.
  intros Hwf Hop Hin. pose proof (byte_val_range c) as Hc.
  split; intros Hcode; rewrite (exec_trap _ _ _ Hop); unfold trap;
    rewrite Hcode.
  - change (kTrapGetc =? kTrapGetc) with true. cbv iota.
    unfold getchar. rewrite Hin. cbn [mbind result_bind].
    rewrite wrap16_small by lia.
    rewrite UpdateFlag_after_write by (assumption || lia).
    destruct (Z.eqb_spec (byte_val c) 0) as [_ | _]; [reflexivity |].
    destruct (Z.ltb_spec (byte_val c) 32768) as [_ | Hge]; [reflexivity | lia].
  - change (kTrapIn =? kTrapGetc) with false.
    change (kTrapIn =? kTrapOut) with false.
    change (kTrapIn =? kTrapPuts) with false.
    change (kTrapIn =? kTrapIn) with true. cbv iota.
    unfold getchar, printf. cbn [stdin stdout]. rewrite Hin.
    cbn [mbind result_bind]. unfold putc. cbn [stdin stdout].
    rewrite byte_of_Z_to_char, byte_of_Z_byte_val, <- app_assoc.
    assert (Hv : wrap16 (to_char (byte_val c))
                 = if byte_val c <? 128 then byte_val c
                   else 0xFF00 + byte_val c).
    { unfold wrap16, to_char.
      destruct (Z.ltb_spec (byte_val c) 128) as [Hlt | Hge].
      - rewrite (Z.mod_small (byte_val c + 128)) by lia.
        rewrite Z.mod_small by lia. lia.
      - replace ((byte_val c + 128) mod 256) with (byte_val c - 128).
        + symmetry. apply Z.mod_unique with (q := -1); lia.
        + apply Z.mod_unique with (q := 1); lia. }
    rewrite Hv.
    rewrite UpdateFlag_after_write
      by (assumption || destruct (byte_val c <? 128); lia).
    do 3 f_equal.
    destruct (Z.ltb_spec (byte_val c) 128) as [Hlt | Hge].
    + destruct (Z.ltb_spec (byte_val c) 32768); [reflexivity | lia].
    + destruct (Z.eqb_spec (byte_val c) 0); [lia |].
      destruct (Z.eqb_spec (0xFF00 + byte_val c) 0); [lia |].
      destruct (Z.ltb_spec (0xFF00 + byte_val c) 32768); [lia | reflexivity].
Qed.

Lemma input_traps_witness :
  exec 0xF020 VM_init {| stdin := [xe9]; stdout := [] |}
  = Ok (set_reg kRCond kFlPos (set_reg kR0 0xE9 VM_init),
        {| stdin := []; stdout := [] |}, true)
  ∧ exec 0xF023 VM_init {| stdin := [xe9]; stdout := [] |}
    = Ok (set_reg kRCond kFlNeg (set_reg kR0 0xFFE9 VM_init),
          {| stdin := [];
             stdout := list_byte_of_string "Enter a character: " ++ [xe9] |},
          true).
Proof.
  split.
  - exact (proj1 (input_traps 0xF020 VM_init
                    {| stdin := [xe9]; stdout := [] |} xe9 []
                    eq_refl eq_refl eq_refl) eq_refl).
  - exact (proj2 (input_traps 0xF023 VM_init
                    {| stdin := [xe9]; stdout := [] |} xe9 []
                    eq_refl eq_refl eq_refl) eq_refl).
Defined.
(** X15.  A TRAP changes nothing but R0, the flags and the terminal: memory,
    R1..R7 (R7 is not used as a link register) and the already incremented PC
    are kept.  Only vector 0x25 stops the loop, and a vector outside
    0x20..0x25 is skipped without any effect. *)
Theorem trap_keeps_memory_and_link
  (instr : Z) (vm vm' : VM) (t t' : Terminal) (running : bool) :
  VM_wf vm = true →
  Z.shiftr instr 12 = kOpTrap →
  exec instr vm t = Ok (vm', t', running) →
  memory_ vm' = memory_ vm
  ∧ (∀ r, 1 <= r <= 8 → reg vm' r = reg vm r)
  ∧ (running = false ↔ Z.land instr 0xFF = kTrapHalt)
  ∧ (Z.land instr 0xFF < 0x20 ∨ 0x25 < Z.land instr 0xFF →
     vm' = vm ∧ t' = t ∧ running = true).
Proof.
  intros Hwf Hop H. rewrite (exec_trap _ _ _ Hop) in H.
  destruct (trap_inv _ _ _ _ _ _ Hwf H) as (_ & Hm & Hr & Hrun & _).
  split; [exact Hm |]. split; [exact Hr |]. split.
  - rewrite Hrun. destruct (Z.eqb_spec (Z.land instr 255) kTrapHalt);
      cbn [negb]; split; (congruence || discriminate).
  - intros Hout. unfold trap in H.
    destruct (Z.eqb_spec (Z.land instr 255) kTrapGetc) as [E | _];
      [unfold kTrapGetc in E; lia |].
    destruct (Z.eqb_spec (Z.land instr 255) kTrapOut) as [E | _];
      [unfold kTrapOut in E; lia |].
    destruct (Z.eqb_spec (Z.land instr 255) kTrapPuts) as [E | _];
      [unfold kTrapPuts in E; lia |].
    destruct (Z.eqb_spec (Z.land instr 255) kTrapIn) as [E | _];
      [unfold kTrapIn in E; lia |].
    destruct (Z.eqb_spec (Z.land instr 255) kTrapPutsp) as [E | _];
      [unfold kTrapPutsp in E; lia |].
    destruct (Z.eqb_spec (Z.land instr 255) kTrapHalt) as [E | _];
      [unfold kTrapHalt in E; lia |].
    injection H as <- <- <-. auto.
Qed.

Lemma trap_keeps_memory_and_link_witness :
  memory_ VM_init = memory_ VM_init
  ∧ (∀ r, 1 <= r <= 8 → reg VM_init r = reg VM_init r)
  ∧ (true = false ↔ Z.land 0xF0FF 0xFF = kTrapHalt)
  ∧ (Z.land 0xF0FF 0xFF < 0x20 ∨ 0x25 < Z.land 0xF0FF 0xFF →
     VM_init = VM_init ∧ tty_idle = tty_idle ∧ true = true).
Proof.
  exact (trap_keeps_memory_and_link 0xF0FF VM_init VM_init tty_idle tty_idle
           true eq_refl eq_refl eq_refl).
Defined.
(** ** Running through zeroed memory *)

(** The word 0 is BR with no condition bit: it never branches. *)
Lemma exec_zero (vm : VM) (t : Terminal) : exec 0 vm t = Ok (vm, t, true).
Proof.
  assert (Hop : Z.shiftr 0 12 = kOpBr) by reflexivity.
  exec_case_goal Hop. change (Z.land (Z.shiftr 0 9) 7) with 0.
  rewrite Z.land_0_r. reflexivity.
Qed.

Lemma set_reg_set_reg (r v v' : Z) (vm : VM) :
  set_reg r v' (set_reg r v vm) = set_reg r v' vm.
Proof. unfold set_reg. cbn [memory_ reg_]. rewrite list_insert_insert_eq. reflexivity. Qed.

Lemma set_reg_same (r : Z) (vm : VM) :
  (Z.to_nat r < length (reg_ vm))%nat → set_reg r (reg vm r) vm = vm.
Proof.
  intros Hr. unfold set_reg, reg.
  destruct (lookup_lt_is_Some_2 (reg_ vm) (Z.to_nat r) Hr) as [v Hv].
  rewrite Hv. cbn [default]. rewrite list_insert_id by exact Hv.
  destruct vm; reflexivity.
Qed.

Lemma step_zero_cell (vm : VM) (t : Terminal) :
  VM_wf vm = true →
  memory_ vm !! Z.to_nat (reg vm kRPC) = Some 0 →
  (reg vm kRPC = kKeyboardStatus → stdin t = []) →
  step vm t = Ok (set_reg kRPC (reg vm kRPC + 1) vm, t, true).
Proof.
  intros Hwf Hcell Hidle. pose proof (reg_u16 vm kRPC Hwf) as Hp.
  pose proof (mem_length_wf vm Hwf) as Hl.
  apply lookup_lt_Some in Hcell as Hlt.
  assert (Hp' : reg vm kRPC < 65535) by idx.
  unfold step, fetch. rewrite wrap16_small by lia.
  assert (Hwf1 : VM_wf (set_reg kRPC (reg vm kRPC + 1) vm) = true)
    by (apply set_reg_wf; [exact Hwf | lia]).
  destruct (Z.eq_dec (reg vm kRPC) kKeyboardStatus) as [E | Hne].
  - rewrite E at 1.
    rewrite (MemRead_status_idle _ t Hwf1 (Hidle E)).
    cbn [mbind result_bind memory_ set_reg reg_].
    rewrite list_insert_id by (rewrite <- E; exact Hcell).
    apply exec_zero.
  - rewrite MemRead_plain by exact Hne. unfold load.
    cbn [memory_ set_reg]. rewrite Hcell. cbn [mbind result_bind].
    apply exec_zero.
Qed.

(** The fetch at PC = 65535 reads the cell after the last one. *)
Lemma step_past_end (vm : VM) (t : Terminal) :
  VM_wf vm = true → reg vm kRPC = kMaxMemory →
  step vm t = Err (OobRead kMaxMemory).
Proof.
  intros Hwf Hp. pose proof (mem_length_wf vm Hwf) as Hl.
  unfold step, fetch. rewrite Hp.
  rewrite MemRead_plain by (unfold kMaxMemory, UINT16_MAX; discriminate).
  rewrite load_out_of_bounds by (cbn [memory_ set_reg]; rewrite Hl; lia).
  reflexivity.
Qed.

(** [n] zero cells from PC on take [n] iterations and move PC by [n]. *)
Lemma zero_cells_slide (n : nat) :
  ∀ (vm : VM) (t : Terminal) (fuel : nat),
    VM_wf vm = true →
    reg vm kRPC + Z.of_nat n <= kMaxMemory →
    (∀ a, reg vm kRPC <= a < reg vm kRPC + Z.of_nat n →
          memory_ vm !! Z.to_nat a = Some 0
          ∧ (a = kKeyboardStatus → stdin t = [])) →
    run_loop (n + fuel) vm t
    = run_loop fuel (set_reg kRPC (reg vm kRPC + Z.of_nat n) vm) t.
Proof.
  induction n as [| n IH]; intros vm t fuel Hwf Hend Hzero.
  - rewrite Z.add_0_r, set_reg_same by (rewrite (reg_length_wf vm Hwf); idx).
    reflexivity.
  - pose proof (reg_u16 vm kRPC Hwf) as Hp.
    destruct (Hzero (reg vm kRPC) ltac:(lia)) as [Hcell Hidle].
    change (S n + fuel)%nat with (S (n + fuel)). cbn [run_loop].
    rewrite (step_zero_cell vm t Hwf Hcell Hidle). cbn [mbind result_bind].
    assert (Hpc : reg (set_reg kRPC (reg vm kRPC + 1) vm) kRPC
                  = reg vm kRPC + 1)
      by (apply reg_set_reg_eq; rewrite (reg_length_wf vm Hwf); idx).
    rewrite IH.
    + rewrite Hpc, set_reg_set_reg.
      replace (reg vm kRPC + 1 + Z.of_nat n)
        with (reg vm kRPC + Z.of_nat (S n)) by lia.
      reflexivity.
    + apply set_reg_wf; [exact Hwf | idx].
    + rewrite Hpc. lia.
    + rewrite Hpc. intros a Ha. apply Hzero. lia.
Qed.

Lemma Run_init_pc (vm : VM) : VM_wf vm = true → reg (Run_init vm) kRPC = 0x3000.
Proof.
  intros Hwf. unfold Run_init. apply reg_set_reg_eq.
  cbn [set_reg reg_]. rewrite length_insert, (reg_length_wf vm Hwf). idx.
Qed.

Lemma Run_zero_idle (vm : VM) (t : Terminal) (fuel : nat) :
  VM_wf vm = true →
  (∀ a, 0x3000 <= a < kMaxMemory → memory_ vm !! Z.to_nat a = Some 0) →
  stdin t = [] →
  kMaxMemory - 0x3000 < Z.of_nat fuel →
  Run fuel vm t = Err (OobRead kMaxMemory).
Proof.
  intros Hwf Hzero Hidle Hfuel. unfold Run.
  pose proof (Run_init_wf vm Hwf) as Hwf0.
  pose proof (Run_init_pc vm Hwf) as Hpc.
  set (n := Z.to_nat (kMaxMemory - 0x3000)).
  assert (Hn : Z.of_nat n = kMaxMemory - 0x3000) by (subst n; idx).
  replace fuel with (n + S (fuel - n - 1))%nat by lia.
  rewrite zero_cells_slide.
  - cbn [run_loop]. rewrite step_past_end; [reflexivity | |].
    + apply set_reg_wf; [exact Hwf0 | idx].
    + rewrite reg_set_reg_eq by (rewrite (reg_length_wf _ Hwf0); idx). lia.
  - exact Hwf0.
  - lia.
  - intros a Ha. split; [apply Hzero; lia | intros _; exact Hidle].
Qed.

Lemma Run_zero_key
  (vm : VM) (t : Terminal) (c : byte) (rest : list byte) (fuel : nat) :
  VM_wf vm = true →
  (∀ a, 0x3000 <= a < kKeyboardStatus → memory_ vm !! Z.to_nat a = Some 0) →
  stdin t = c :: rest →
  kKeyboardStatus - 0x3000 < Z.of_nat fuel →
  Run fuel vm t
  = Ok (set_reg kRPC (kKeyboardStatus + 1)
          (Run_init
             {| memory_ := <[Z.to_nat kKeyboardData := byte_val c]>
                             (<[Z.to_nat kKeyboardStatus := 0x8000]>
                                (memory_ vm));
                reg_ := reg_ vm |}),
        {| stdin := rest;
           stdout := stdout t ++ list_byte_of_string "bad opcode" |}).
Proof.
  intros Hwf Hzero Hkey Hfuel. unfold Run.
  pose proof (Run_init_wf vm Hwf) as Hwf0.
  pose proof (Run_init_pc vm Hwf) as Hpc.
  set (n := Z.to_nat (kKeyboardStatus - 0x3000)).
  assert (Hn : Z.of_nat n = kKeyboardStatus - 0x3000) by (subst n; idx).
  replace fuel with (n + S (fuel - n - 1))%nat by lia.
  rewrite zero_cells_slide.
  - rewrite Hpc, Hn.
    replace (0x3000 + (kKeyboardStatus - 0x3000)) with kKeyboardStatus by lia.
    assert (Hwf1 : VM_wf (set_reg kRPC kKeyboardStatus (Run_init vm)) = true)
      by (apply set_reg_wf; [exact Hwf0 | idx]).
    cbn [run_loop]. unfold step, fetch.
    rewrite reg_set_reg_eq by (rewrite (reg_length_wf _ Hwf0); idx).
    rewrite set_reg_set_reg, wrap16_small by idx.
    rewrite (MemRead_status_pending _ t c rest) by
      (assumption || (apply set_reg_wf; [exact Hwf0 | idx])).
    cbn [mbind result_bind].
    assert (Hop : Z.shiftr 0x8000 12 = kOpRti) by reflexivity.
    exec_case_goal Hop. reflexivity.
  - exact Hwf0.
  - idx.
  - rewrite Hpc, Hn. intros a Ha.
    split; [apply Hzero; lia | intros ->; lia].
Qed.

(** X16.  With every cell from x3000 on holding zero, Run executes BR
    instructions that never branch and reaches the device registers.  With
    a key pending, the fetch at xFE00 polls the keyboard and the status
    word x8000 it returns is executed as an RTI: the loop stops with the
    message for a bad opcode and the key is consumed.  With no key pending
    PC reaches xFFFF and the fetch reads the cell after the last one. *)
Theorem zero_memory_is_executed (vm : VM) (t : Terminal) (fuel : nat) :
  VM_wf vm = true →
  (∀ a, 0x3000 <= a < kMaxMemory → memory_ vm !! Z.to_nat a = Some 0) →
  kMaxMemory - 0x3000 < Z.of_nat fuel →
  (stdin t = [] → Run fuel vm t = Err (OobRead kMaxMemory))
  ∧ (∀ c rest,
       stdin t = c :: rest →
       Run fuel vm t
       = Ok (set_reg kRPC 0xFE01
               (Run_init
                  {| memory_ := <[Z.to_nat kKeyboardData := byte_val c]>
                                  (<[Z.to_nat kKeyboardStatus := 0x8000]>
                                     (memory_ vm));
                     reg_ := reg_ vm |}),
             {| stdin := rest;
                stdout := stdout t ++ list_byte_of_string "bad opcode" |})).
Proof.
  intros Hwf Hzero Hfuel. split.
  - intros Hidle. apply Run_zero_idle; assumption.
  - intros c rest Hkey.
    apply (Run_zero_key vm t c rest fuel Hwf); [| exact Hkey | idx].
    intros a Ha. apply Hzero. idx.
Qed.

Lemma VM_init_zero (a : Z) :
  0 <= a < kMaxMemory → memory_ VM_init !! Z.to_nat a = Some 0.
Proof.
  intros Ha. unfold VM_init. cbn [memory_].
  apply lookup_replicate_2. idx.
Qed.

Lemma zero_memory_is_executed_witness :
  Run (Z.to_nat 60000) VM_init tty_idle = Err (OobRead kMaxMemory)
  ∧ Run (Z.to_nat 60000) VM_init tty_key_a
    = Ok (set_reg kRPC 0xFE01
            (Run_init
               {| memory_ := <[Z.to_nat kKeyboardData := 0x61]>
                               (<[Z.to_nat kKeyboardStatus := 0x8000]>
                                  (memory_ VM_init));
                  reg_ := reg_ VM_init |}),
          {| stdin := []; stdout := list_byte_of_string "bad opcode" |}).
Proof.
  assert (Hfuel : kMaxMemory - 0x3000 < Z.of_nat (Z.to_nat 60000)) by idx.
  split.
  - exact (proj1 (zero_memory_is_executed VM_init tty_idle (Z.to_nat 60000)
                    eq_refl (λ a Ha, VM_init_zero a ltac:(lia)) Hfuel)
             eq_refl).
  - exact (proj2 (zero_memory_is_executed VM_init tty_key_a (Z.to_nat 60000)
                    eq_refl (λ a Ha, VM_init_zero a ltac:(lia)) Hfuel)
             x61 [] eq_refl).
Defined.

(** ** main *)

Lemma wrap_int_small (z : Z) : 0 <= z < 2 ^ 31 → wrap_int z = z.
Proof. intros Hz. unfold wrap_int. rewrite Z.mod_small by lia. lia. Qed.

Lemma session_settings (ICANON ECHO : Z) (h : Host) :
  RestoreInputBuffering (DisableInputBuffering ICANON ECHO h)
  = {| tty_settings := tty_settings h; original_tio := tty_settings h |}.
Proof. reflexivity. Qed.



Lemma list_byte_of_string_append (a b : string) :
  list_byte_of_string (String.append a b)
  = list_byte_of_string a ++ list_byte_of_string b.
Proof.
  induction a as [| ch a IH]; [reflexivity |].
  cbn [String.append]. unfold list_byte_of_string in *.
  cbn [list_ascii_of_string List.map]. rewrite IH. reflexivity.
Qed.

(** X18.  Whenever main returns, it returns 0 and the terminal settings are
    those it found, also on its two error paths: a wrong number of
    arguments gives the usage line and a file that cannot be opened gives a
    message with its name, each appended to the output as it is and ended
    by a newline, and in both cases nothing else is touched. *)
Theorem main_returns_zero
  (ICANON ECHO : Z) (fuel : nat) (fopen : string → option (list byte))
  (pad : byte) (t : Terminal) (h : Host) :
  (∀ argv,
     length argv ≠ 2%nat →
     main ICANON ECHO fuel argv fopen pad t h
     = Ok (0, printf (String.append "Usage: lc3 <image-file>" nl) t, h))
  ∧ (∀ name path,
       fopen path = None →
       main ICANON ECHO fuel [name; path] fopen pad t h
       = Ok (0,
             printf (String.append "can't open file: "
                       (String.append path nl)) t,
             h))
  ∧ (∀ argv status t' h',
       main ICANON ECHO fuel argv fopen pad t h = Ok (status, t', h') →
       status = 0 ∧ tty_settings h' = tty_settings h)
  ∧ printf (String.append "Usage: lc3 <image-file>" nl) t
    = {| stdin := stdin t;
         stdout := stdout t
                   ++ [x55; x73; x61; x67; x65; x3a; x20; x6c; x63; x33; x20;
                       x3c; x69; x6d; x61; x67; x65; x2d; x66; x69; x6c; x65;
                       x3e; x0a] |}
  ∧ (∀ path,
       printf (String.append "can't open file: " (String.append path nl)) t
       = {| stdin := stdin t;
            stdout := stdout t
                      ++ [x63; x61; x6e; x27; x74; x20; x6f; x70; x65; x6e;
                          x20; x66; x69; x6c; x65; x3a; x20]
                      ++ list_byte_of_string path ++ [x0a] |}).
Proof.
  split; [| split; [| split; [| split]]].
  - intros argv Hlen.
    destruct argv as [| a0 [| a1 [| a2 argv]]]; try reflexivity.
    cbn [length] in Hlen. congruence.
  - intros name path Hnone. unfold main. rewrite Hnone. reflexivity.
  - intros argv status t' h' H. unfold main in H.
    destruct argv as [| a0 [| a1 [| a2 argv]]];
      try (injection H as <- <- <-; split; reflexivity).
    destruct (fopen a1) as [file |] eqn:Hopen.
    + inv_result H.
      match goal with
      | E : Run_session _ _ _ _ _ _ = Ok _ |- _ =>
          unfold Run_session in E; inv_result E
      end.
      split; reflexivity.
    + injection H as <- <- <-. split; reflexivity.
  - reflexivity.
  - intros path. unfold printf.
    rewrite !list_byte_of_string_append. reflexivity.
Qed.

Lemma main_returns_zero_witness :
  main 2 8 1 ["lc3"]%string (λ _, None) x00 tty_idle host_cooked
  = Ok (0, printf (String.append "Usage: lc3 <image-file>" nl) tty_idle,
        host_cooked)
  ∧ main 2 8 1 ["lc3"; "nofile"]%string (λ _, None) x00 tty_idle host_cooked
    = Ok (0,
          printf (String.append "can't open file: "
                    (String.append "nofile" nl)) tty_idle,
          host_cooked).
Proof.
  destruct (main_returns_zero 2 8 1 (λ _, None) x00 tty_idle host_cooked)
    as (Husage & Hopen & _).
  split.
  - apply Husage. discriminate.
  - apply Hopen. reflexivity.
Defined.
(** ** Terminal settings *)

(** X19.  DisableInputBuffering clears the bits of ICANON and ECHO in
    [c_lflag] and no other bit, keeps the other fields, and saves the
    settings it found; RestoreInputBuffering, and HandleInterrupt on
    SIGINT, then put exactly these back, whatever [original_tio] held
    before.  HandleInterrupt also writes a newline and exits with -2. *)
Theorem input_buffering_round_trip
  (ICANON ECHO : Z) (h : Host) (t : Terminal) :
  0 <= c_lflag (tty_settings h) < 2 ^ 32 →
  (∀ i, 0 <= i →
        Z.testbit (c_lflag (tty_settings (DisableInputBuffering ICANON ECHO h))) i
        = Z.testbit (c_lflag (tty_settings h)) i
          && negb (Z.testbit ICANON i) && negb (Z.testbit ECHO i))
  ∧ 0 <= c_lflag (tty_settings (DisableInputBuffering ICANON ECHO h)) < 2 ^ 32
  ∧ (let new_tio := tty_settings (DisableInputBuffering ICANON ECHO h) in
     c_iflag new_tio = c_iflag (tty_settings h)
     ∧ c_oflag new_tio = c_oflag (tty_settings h)
     ∧ c_cflag new_tio = c_cflag (tty_settings h)
     ∧ c_cc new_tio = c_cc (tty_settings h))
  ∧ tty_settings (RestoreInputBuffering (DisableInputBuffering ICANON ECHO h))
    = tty_settings h
  ∧ HandleInterrupt (DisableInputBuffering ICANON ECHO h) t
    = ({| tty_settings := tty_settings h; original_tio := tty_settings h |},
       {| stdin := stdin t; stdout := stdout t ++ [x0a] |}, -2).
Proof.
  intros Hl.
  assert (Hbits : ∀ i, 0 <= i →
    Z.testbit (Z.land (c_lflag (tty_settings h))
                 (wrap_tcflag (Z.land (Z.lnot ICANON) (Z.lnot ECHO)))) i
    = Z.testbit (c_lflag (tty_settings h)) i
      && negb (Z.testbit ICANON i) && negb (Z.testbit ECHO i)).
  { intros i Hi. rewrite Z.land_spec, <- andb_assoc. unfold wrap_tcflag.
    destruct (Z.lt_ge_cases i 32) as [Hlow | Hhigh].
    - rewrite Z.mod_pow2_bits_low by lia.
      rewrite Z.land_spec, !Z.lnot_spec by lia. reflexivity.
    - rewrite (testbit_above _ 32 i) by lia. reflexivity. }
  split; [exact Hbits |]. split; [| repeat split].
  cbn [DisableInputBuffering tty_settings c_lflag].
  set (x := Z.land (c_lflag (tty_settings h))
              (wrap_tcflag (Z.land (Z.lnot ICANON) (Z.lnot ECHO)))) in *.
  assert (Hnn : 0 <= x) by (apply Z.land_nonneg; left; lia).
  split; [exact Hnn |].
  destruct (Z.eq_dec x 0) as [-> | Hnz]; [lia |].
  assert (Hpos : 0 < x) by lia.
  apply Z.log2_lt_pow2; [exact Hpos |].
  apply Z.nle_gt. intros Hlog.
  pose proof (Z.bit_log2 x Hpos) as Hb.
  rewrite Hbits in Hb by apply Z.log2_nonneg.
  rewrite (testbit_above _ 32) in Hb by lia. discriminate.
Qed.

Lemma input_buffering_round_trip_witness :
  c_lflag (tty_settings (DisableInputBuffering 2 8 host_cooked)) = 0x8A31
  ∧ HandleInterrupt (DisableInputBuffering 2 8 host_cooked) tty_idle
    = ({| tty_settings := tty_settings host_cooked;
          original_tio := tty_settings host_cooked |},
       {| stdin := []; stdout := [x0a] |}, -2).
Proof.
  split; [reflexivity |].
  refine (proj2 (proj2 (proj2 (proj2
            (input_buffering_round_trip 2 8 host_cooked tty_idle _))))).
  cbn. lia.
Defined.
(** ** From the image file to the first instruction *)

Lemma LoadImage_cell
  (vm : VM) (b0 b1 : byte) (body extra : list byte) (k : Z) (hi lo : byte) :
  VM_wf vm = true →
  Z.of_nat (length body) + 2 <= kMaxMemory →
  256 * byte_val b0 + byte_val b1 + Z.of_nat (length body) <= kMaxMemory →
  0 <= k →
  body !! Z.to_nat (2 * k) = Some hi →
  body !! Z.to_nat (2 * k + 1) = Some lo →
  ∃ vm',
    LoadImage (Some (b0 :: b1 :: body ++ extra)) (Z.of_nat (length body) + 2) vm
    = Ok (true, vm')
    ∧ VM_wf vm' = true
    ∧ reg_ vm' = reg_ vm
    ∧ memory_ vm' !! Z.to_nat (256 * byte_val b0 + byte_val b1 + k)
      = Some (256 * byte_val hi + byte_val lo).
Proof.
  intros Hwf Hsize Hfit Hk0 Hhi Hlo.
  pose proof (byte_val_range b0) as H0. pose proof (byte_val_range b1) as H1.
  pose proof (mem_length_wf vm Hwf) as Hl.
  destruct (LoadImage_fits vm b0 b1 body extra Hwf Hsize Hfit)
    as (mem1 & _ & Hl1 & Hb & _ & Hload).
  set (O := 256 * byte_val b0 + byte_val b1) in *.
  assert (Hin : (Z.to_nat O + length body <= length mem1)%nat)
    by (rewrite Hl1, Hl; idx).
  pose proof (lookup_lt_Some _ _ _ Hlo) as Hkn.
  eexists. split; [exact Hload |].
  split; [exact (LoadImage_wf _ _ _ _ _ Hwf Hload) |].
  split; [reflexivity |]. cbn [memory_].
  rewrite swapped_lookup by exact Hin. rewrite decide_True by lia.
  rewrite (word_of_bytes mem1 (O + k) (byte_val hi) (byte_val lo)); try lia.
  - cbn [fmap option_fmap option_map].
    rewrite u16Swap_pair by apply byte_val_range. reflexivity.
  - replace (2 * (O + k)) with (2 * O + 2 * k) by ring.
    apply Hb; [lia | exact Hhi].
  - replace (2 * (O + k) + 1) with (2 * O + (2 * k + 1)) by ring.
    apply Hb; [lia | exact Hlo].
Qed.

Lemma fetch_cell (vm : VM) (t : Terminal) (w : Z) :
  reg vm kRPC ≠ kKeyboardStatus →
  memory_ vm !! Z.to_nat (reg vm kRPC) = Some w →
  fetch vm t = Ok (w, set_reg kRPC (wrap16 (reg vm kRPC + 1)) vm, t).
Proof.
  intros Hne Hcell. unfold fetch.
  rewrite MemRead_plain by exact Hne. unfold load.
  cbn [memory_ set_reg]. rewrite Hcell. reflexivity.
Qed.

Lemma Run_init_memory (vm : VM) : memory_ (Run_init vm) = memory_ vm.
Proof. reflexivity. Qed.

(** X20.  What Run fetches first is what the file holds for address x3000:
    after LoadImage has accepted an image with origin O that fits, the
    first fetch of Run returns the big-endian value of the two file bytes
    of the word O + k = x3000, without reading the keyboard, and leaves PC
    at x3001. *)
Theorem loaded_program_is_fetched
  (vm : VM) (b0 b1 : byte) (body extra : list byte) (k : Z) (hi lo : byte)
  (t : Terminal) :
  VM_wf vm = true →
  Z.of_nat (length body) + 2 <= kMaxMemory →
  256 * byte_val b0 + byte_val b1 + Z.of_nat (length body) <= kMaxMemory →
  0 <= k → 256 * byte_val b0 + byte_val b1 + k = 0x3000 →
  body !! Z.to_nat (2 * k) = Some hi →
  body !! Z.to_nat (2 * k + 1) = Some lo →
  ∃ vm',
    LoadImage (Some (b0 :: b1 :: body ++ extra)) (Z.of_nat (length body) + 2) vm
    = Ok (true, vm')
    ∧ fetch (Run_init vm') t
      = Ok (256 * byte_val hi + byte_val lo,
            set_reg kRPC 0x3001 (Run_init vm'), t).
Proof.
  intros Hwf Hsize Hfit Hk0 Hk Hhi Hlo.
  destruct (LoadImage_cell vm b0 b1 body extra k hi lo
              Hwf Hsize Hfit Hk0 Hhi Hlo) as (vm' & Hload & Hwf' & _ & Hcell).
  exists vm'. split; [exact Hload |].
  pose proof (Run_init_pc vm' Hwf') as Hpc. rewrite Hk in Hcell.
  rewrite (fetch_cell (Run_init vm') t (256 * byte_val hi + byte_val lo)).
  - rewrite Hpc. reflexivity.
  - rewrite Hpc. discriminate.
  - rewrite Hpc, Run_init_memory. exact Hcell.
Qed.

Lemma loaded_program_is_fetched_witness :
  ∃ vm',
    LoadImage (Some (image_count_to_ten ++ [x00])) 12 VM_init = Ok (true, vm')
    ∧ fetch (Run_init vm') tty_key_a
      = Ok (0x5020, set_reg kRPC 0x3001 (Run_init vm'), tty_key_a).
Proof.
  refine (loaded_program_is_fetched VM_init x30 x00
            [x50; x20; x10; x21; x12; x36; x09; xfd; xf0; x25] [x00]
            0 x50 x20 tty_key_a _ _ _ _ _ _ _).
  - reflexivity.
  - cbn [length]. idx.
  - cbn [length]. change (byte_val x30) with 48. change (byte_val x00) with 0.
    idx.
  - lia.
  - reflexivity.
  - reflexivity.
  - reflexivity.
Defined.

(** X21.  End to end, for a file that LoadImage accepts and whose body
    ends inside the array (at most 65535 bytes, origin plus body length at
    most 65535): when the word of the file that lands on x3000 is xF025,
    main loads the image, prints the line of HALT and returns 0 with the
    terminal settings restored, whatever the other bytes of the file, the
    byte after it in the buffer and the pending input are. *)
Theorem main_halts_on_halt_image
  (ICANON ECHO : Z) (fuel : nat) (name path : string)
  (fopen : string → option (list byte)) (b0 b1 : byte) (body : list byte)
  (k : Z) (pad : byte) (t : Terminal) (h : Host) :
  fopen path = Some (b0 :: b1 :: body) →
  Z.of_nat (length body) + 2 <= kMaxMemory →
  256 * byte_val b0 + byte_val b1 + Z.of_nat (length body) <= kMaxMemory →
  0 <= k → 256 * byte_val b0 + byte_val b1 + k = 0x3000 →
  body !! Z.to_nat (2 * k) = Some xf0 →
  body !! Z.to_nat (2 * k + 1) = Some x25 →
  (0 < fuel)%nat →
  main ICANON ECHO fuel [name; path] fopen pad t h
  = Ok (0,
        {| stdin := stdin t;
           stdout := stdout t ++ list_byte_of_string "halt" ++ [x0a] |},
        {| tty_settings := tty_settings h; original_tio := tty_settings h |}).
Proof.
  intros Hopen Hsize Hfit Hk0 Hk Hhi Hlo Hfuel.
  pose proof (byte_val_range b0) as H0. pose proof (byte_val_range b1) as H1.
  pose proof (lookup_lt_Some _ _ _ Hlo) as Hkn.
  assert (Hwf : VM_wf VM_init = true) by reflexivity.
  destruct (LoadImage_cell VM_init b0 b1 body [pad] k xf0 x25
              Hwf Hsize Hfit Hk0 Hhi Hlo) as (vm' & Hload & Hwf' & _ & Hcell).
  rewrite Hk in Hcell. pose proof (Run_init_pc vm' Hwf') as Hpc.
  unfold main. rewrite Hopen.
  replace (wrap_int (Z.of_nat (length (b0 :: b1 :: body))))
    with (Z.of_nat (length body) + 2)
    by (rewrite wrap_int_small by (cbn [length]; idx); cbn [length]; lia).
  change ((b0 :: b1 :: body) ++ [pad]) with (b0 :: b1 :: body ++ [pad]).
  rewrite Hload. cbn [mbind result_bind]. unfold Run_session, Run.
  destruct fuel as [| fuel]; [lia |]. cbn [run_loop]. unfold step.
  rewrite (fetch_cell (Run_init vm') t 0xF025);
    [| rewrite Hpc; discriminate
     | rewrite Hpc, Run_init_memory; exact Hcell].
  cbn [mbind result_bind].
  rewrite exec_trap by reflexivity.
  unfold trap. change (Z.land 0xF025 0xFF) with kTrapHalt.
  cbn [Z.eqb Pos.eqb kTrapHalt kTrapGetc kTrapOut kTrapPuts kTrapIn kTrapPutsp].
  cbn [mbind result_bind]. unfold puts, printf, putc. cbn [stdin stdout].
  rewrite <- app_assoc. reflexivity.
Qed.

Lemma main_halts_on_halt_image_witness :
  main 2 8 1 ["lc3"; "halt.obj"]%string
    (λ _, Some [x2f; xff; x12; x34; xf0; x25; x56]) x00
    tty_key_a host_cooked
  = Ok (0,
        {| stdin := [x61]; stdout := list_byte_of_string "halt" ++ [x0a] |},
        {| tty_settings := tty_settings host_cooked;
           original_tio := tty_settings host_cooked |}).
Proof.
  refine (main_halts_on_halt_image 2 8 1 "lc3" "halt.obj" _
            x2f xff [x12; x34; xf0; x25; x56] 1 x00 tty_key_a host_cooked
            eq_refl _ _ _ _ _ _ _).
  - cbn [length]. idx.
  - cbn [length]. change (byte_val x2f) with 47.
    change (byte_val xff) with 255. idx.
  - lia.
  - reflexivity.
  - reflexivity.
  - reflexivity.
  - lia.
Defined.
(** ** What can go wrong in Run *)

Lemma bind_Err_inv {A B : Type} (k : A → result B) (m : result A) (f : fault) :
  m ≫= k = Err f → m = Err f ∨ ∃ a, m = Ok a ∧ k a = Err f.
Proof. destruct m as [a | f']; cbn; [eauto | intros [= ->]; auto]. Qed.

Lemma MemRead_fault (addr : Z) (vm : VM) (t : Terminal) (f : fault) :
  VM_wf vm = true → 0 <= addr < 65536 → MemRead addr vm t = Err f →
  addr = kMaxMemory ∧ f = OobRead kMaxMemory.
Proof.
  intros Hwf Ha H. pose proof (mem_length_wf vm Hwf) as Hl.
  destruct (Z.lt_ge_cases addr kMaxMemory) as [Hin | Hout].
  - destruct (MemRead_in_bounds addr vm t Hwf ltac:(lia)) as (w & vm' & t' & E).
    congruence.
  - assert (addr = kMaxMemory) as -> by idx. split; [reflexivity |].
    rewrite MemRead_plain in H by (unfold kMaxMemory, UINT16_MAX; discriminate).
    rewrite load_out_of_bounds in H by (rewrite Hl; lia).
    cbn in H. congruence.
Qed.

Lemma mem_store_fault (i v : Z) (vm : VM) (f : fault) :
  VM_wf vm = true → 0 <= i < 65536 → mem_store i v vm = Err f →
  i = kMaxMemory ∧ f = OobWrite kMaxMemory.
Proof.
  intros Hwf Hi H. pose proof (mem_length_wf vm Hwf) as Hl.
  destruct (Z.lt_ge_cases i kMaxMemory) as [Hin | Hout].
  - rewrite mem_store_in_bounds in H by (rewrite Hl; idx). discriminate.
  - assert (i = kMaxMemory) as -> by idx. split; [reflexivity |].
    unfold mem_store in H.
    rewrite store_out_of_bounds in H by (rewrite Hl; lia).
    cbn in H. congruence.
Qed.

Lemma puts_loop_fault (cells : list Z) :
  ∀ (c : Z) (t : Terminal) (f : fault),
    puts_loop cells c t = Err f → f = OobRead (c + Z.of_nat (length cells)).
Proof.
  induction cells as [| w cells IH]; intros c t f H; cbn [puts_loop length] in *.
  - rewrite Z.add_0_r. congruence.
  - destruct (truthy w); [| discriminate].
    apply IH in H. rewrite H. f_equal. lia.
Qed.

Lemma putsp_loop_fault (cells : list Z) :
  ∀ (c : Z) (t : Terminal) (f : fault),
    putsp_loop cells c t = Err f → f = OobRead (c + Z.of_nat (length cells)).
Proof.
  induction cells as [| w cells IH]; intros c t f H; cbn [putsp_loop length] in *.
  - rewrite Z.add_0_r. congruence.
  - destruct (truthy w); [| discriminate].
    apply IH in H. rewrite H. f_equal. lia.
Qed.

Lemma string_end (vm : VM) :
  VM_wf vm = true →
  reg vm kR0 + Z.of_nat (length (drop (Z.to_nat (reg vm kR0)) (memory_ vm)))
  = kMaxMemory.
Proof.
  intros Hwf. pose proof (reg_u16 vm kR0 Hwf) as Hr.
  rewrite length_drop, (mem_length_wf vm Hwf). idx.
Qed.

Lemma getchar_fault (t : Terminal) (f : fault) :
  getchar t = Err f → f = WouldBlock.
Proof. unfold getchar. destruct (stdin t); congruence. Qed.

(** Splits an [Err] result of a sequence of binds into its steps. *)
Ltac err_inv H :=
  repeat first
    [ progress (cbn beta iota in H)
    | match type of H with
      | (let '(_, _) := ?p in _) = _ => destruct p
      | _ ≫= _ = Err _ =>
          let a := fresh "a" in
          let E := fresh "E" in
          apply bind_Err_inv in H; destruct H as [H | (a & E & H)]
      end ].

Ltac fault_cases :=
  match goal with
  | H : Ok _ = Err _ |- _ => discriminate H
  | H : getchar _ = Err _ |- _ =>
      apply getchar_fault in H; subst; auto
  | Hwf : VM_wf ?vm = true, H : MemRead _ ?vm _ = Err _ |- _ =>
      apply MemRead_fault in H;
      [destruct H as [_ ->]; auto | exact Hwf | ]
  | Hwf : VM_wf ?vm = true, H : mem_store _ _ ?vm = Err _ |- _ =>
      apply mem_store_fault in H;
      [destruct H as [_ ->]; auto | exact Hwf | ]
  end.

Lemma trap_fault (instr : Z) (vm : VM) (t : Terminal) (f : fault) :
  VM_wf vm = true → trap instr vm t = Err f →
  f = OobRead kMaxMemory ∨ f = OobWrite kMaxMemory ∨ f = WouldBlock.
Proof.
  intros Hwf H. unfold trap in H.
  split_tests H; err_inv H; try fault_cases.
  - apply puts_loop_fault in H. rewrite string_end in H by exact Hwf. auto.
  - apply putsp_loop_fault in H. rewrite string_end in H by exact Hwf. auto.
Qed.

Lemma exec_fault (instr : Z) (vm : VM) (t : Terminal) (f : fault) :
  VM_wf vm = true → exec instr vm t = Err f →
  f = OobRead kMaxMemory ∨ f = OobWrite kMaxMemory ∨ f = WouldBlock.
Proof.
  intros Hwf H. unfold exec in H.
  split_tests H; err_inv H; use_reads;
    unfold pc_offset9, base_offset6 in *;
    try (fault_cases; first [apply wrap16_range | assumption]).
  eapply trap_fault; eassumption.
Qed.

Lemma step_fault (vm : VM) (t : Terminal) (f : fault) :
  VM_wf vm = true → step vm t = Err f →
  f = OobRead kMaxMemory ∨ f = OobWrite kMaxMemory ∨ f = WouldBlock.
Proof.
  intros Hwf H. unfold step, fetch in H.
  assert (Hwf1 : VM_wf (set_reg kRPC (wrap16 (reg vm kRPC + 1)) vm) = true)
    by wf_tac.
  err_inv H.
  - fault_cases. apply reg_u16, Hwf.
  - use_reads. eapply exec_fault; [| exact H]. assumption.
Qed.

Lemma run_loop_outcome (fuel : nat) :
  ∀ (vm : VM) (t : Terminal),
    VM_wf vm = true →
    match run_loop fuel vm t with
    | Ok (vm', _) => VM_wf vm' = true
    | Err f => f = OobRead kMaxMemory ∨ f = OobWrite kMaxMemory
               ∨ f = WouldBlock ∨ f = OutOfFuel
    end.
Proof.
  induction fuel as [| fuel IH]; intros vm t Hwf; cbn [run_loop]; [auto |].
  destruct (step vm t) as [[[vm1 t1] running] | f] eqn:Hstep;
    cbn [mbind result_bind].
  - pose proof (step_wf _ _ _ _ _ Hwf Hstep) as Hwf1.
    destruct running; [apply IH, Hwf1 | exact Hwf1].
  - destruct (step_fault vm t f Hwf Hstep) as [-> | [-> | ->]]; auto.
Qed.

(** X22.  Run on a well-formed machine leaves the arrays in one way only:
    through index 65535, the one address of the machine that the array of
    65535 words does not have (by a fetch, a load, a store or a string
    trap).  Apart from that it can only wait for a key or go on; when it
    returns, the machine is well-formed. *)
Theorem run_leaves_the_array_only_at_its_end
  (fuel : nat) (vm : VM) (t : Terminal) :
  VM_wf vm = true →
  (∀ f, Run fuel vm t = Err f →
        f = OobRead kMaxMemory ∨ f = OobWrite kMaxMemory
        ∨ f = WouldBlock ∨ f = OutOfFuel)
  ∧ (∀ vm' t', Run fuel vm t = Ok (vm', t') → VM_wf vm' = true).
Proof.
  intros Hwf. unfold Run.
  pose proof (run_loop_outcome fuel (Run_init vm) t (Run_init_wf vm Hwf)) as H.
  split.
  - intros f E. rewrite E in H. exact H.
  - intros vm' t' E. rewrite E in H. exact H.
Qed.

Lemma run_leaves_the_array_only_at_its_end_witness :
  Run 1 (vm_one 0x607F) tty_idle = Err (OobRead kMaxMemory)
  ∧ (OobRead kMaxMemory = OobRead kMaxMemory
     ∨ OobRead kMaxMemory = OobWrite kMaxMemory
     ∨ OobRead kMaxMemory = WouldBlock ∨ OobRead kMaxMemory = OutOfFuel).
Proof.
  assert (E : Run 1 (vm_one 0x607F) tty_idle = Err (OobRead kMaxMemory))
    by reflexivity.
  split; [exact E |].
  exact (proj1 (run_leaves_the_array_only_at_its_end 1 (vm_one 0x607F)
                  tty_idle eq_refl) _ E).
Defined.
(** ** The terminal only moves forward *)

Create HintDb io.

Lemma io_refl (t : Terminal) : io_extends t t.
Proof. split; [exists [] | exists []]; [reflexivity | symmetry; apply app_nil_r]. Qed.

Lemma io_trans (t1 t2 t3 : Terminal) :
  io_extends t1 t2 → io_extends t2 t3 → io_extends t1 t3.
Proof.
  intros [[c1 Hc1] [o1 Ho1]] [[c2 Hc2] [o2 Ho2]]. split.
  - exists (c1 ++ c2). rewrite Hc1, Hc2, app_assoc. reflexivity.
  - exists (o1 ++ o2). rewrite Ho2, Ho1, app_assoc. reflexivity.
Qed.

Lemma putc_io (c : Z) (t : Terminal) : io_extends t (putc c t).
Proof. split; [exists [] | eexists]; reflexivity. Qed.

Lemma printf_io (s : string) (t : Terminal) : io_extends t (printf s t).
Proof. split; [exists [] | eexists]; reflexivity. Qed.

Lemma puts_io (s : string) (t : Terminal) : io_extends t (puts s t).
Proof. unfold puts. eapply io_trans; [apply printf_io | apply putc_io]. Qed.

Lemma getchar_io (t t' : Terminal) (c : Z) :
  getchar t = Ok (c, t') → io_extends t t'.
Proof.
  unfold getchar. destruct (stdin t) as [| b rest] eqn:E; [discriminate |].
  intros [= _ <-]. split; cbn [stdin stdout].
  - exists [b]. exact E.
  - exists []. symmetry. apply app_nil_r.
Qed.

#[local] Hint Resolve io_refl putc_io printf_io puts_io : io.

Lemma poll_keyboard_io (vm vm' : VM) (t t' : Terminal) :
  poll_keyboard vm t = Ok (vm', t') → io_extends t t'.
Proof.
  intros H. unfold poll_keyboard in H.
  destruct (CheckKey t); inv_result H; injection H as _ <-.
  - eapply getchar_io; eassumption.
  - apply io_refl.
Qed.

Lemma MemRead_io (addr w : Z) (vm vm' : VM) (t t' : Terminal) :
  MemRead addr vm t = Ok (w, vm', t') → io_extends t t'.
Proof.
  intros H. unfold MemRead in H.
  destruct (addr =? kKeyboardStatus); inv_result H.
  - eapply poll_keyboard_io; eassumption.
  - match goal with
    | E : Ok _ = Ok _ |- _ => injection E as _ <-
    end.
    apply io_refl.
Qed.

Lemma puts_loop_io (cells : list Z) :
  ∀ (c : Z) (t t' : Terminal),
    puts_loop cells c t = Ok t' → io_extends t t'.
Proof.
  induction cells as [| w cells IH]; intros c t t' H; cbn [puts_loop] in H;
    [discriminate |].
  destruct (truthy w).
  - eapply io_trans; [apply putc_io | eapply IH, H].
  - injection H as <-. apply io_refl.
Qed.

Lemma putsp_loop_io (cells : list Z) :
  ∀ (c : Z) (t t' : Terminal),
    putsp_loop cells c t = Ok t' → io_extends t t'.
Proof.
  induction cells as [| w cells IH]; intros c t t' H; cbn [putsp_loop] in H;
    [discriminate |].
  destruct (truthy w).
  - eapply io_trans; [| eapply IH, H].
    destruct (truthy _); eauto using io_trans with io.
  - injection H as <-. apply io_refl.
Qed.

(** Turns the completed reads of the context into facts on the terminal. *)
Ltac io_facts :=
  repeat match goal with
         | E : MemRead _ _ _ = Ok _ |- _ => apply MemRead_io in E
         | E : getchar _ = Ok _ |- _ => apply getchar_io in E
         | E : puts_loop _ _ _ = Ok _ |- _ => apply puts_loop_io in E
         | E : putsp_loop _ _ _ = Ok _ |- _ => apply putsp_loop_io in E
         end.

Lemma trap_io (instr : Z) (vm vm' : VM) (t t' : Terminal) (running : bool) :
  trap instr vm t = Ok (vm', t', running) → io_extends t t'.
Proof.
  intros H. unfold trap in H.
  split_tests H; inv_result H; io_facts; eauto 6 using io_trans with io.
Qed.

Lemma exec_io (instr : Z) (vm vm' : VM) (t t' : Terminal) (running : bool) :
  exec instr vm t = Ok (vm', t', running) → io_extends t t'.
Proof.
  intros H. unfold exec in H.
  split_tests H; inv_result H; io_facts;
    eauto 6 using io_trans, trap_io with io.
Qed.

Lemma step_io (vm vm' : VM) (t t' : Terminal) (running : bool) :
  step vm t = Ok (vm', t', running) → io_extends t t'.
Proof.
  intros H. unfold step, fetch in H. inv_result H. io_facts.
  eauto using io_trans, exec_io.
Qed.

Lemma run_loop_io (fuel : nat) :
  ∀ (vm vm' : VM) (t t' : Terminal),
    run_loop fuel vm t = Ok (vm', t') → io_extends t t'.
Proof.
  induction fuel as [| fuel IH]; intros vm vm' t t' H; cbn [run_loop] in H;
    [discriminate |].
  inv_result H.
  match goal with
  | E : step _ _ = Ok _ |- _ => apply step_io in E
  end.
  destruct b.
  - eapply io_trans; [eassumption | eapply IH, H].
  - injection H as _ <-. assumption.
Qed.

(** X23.  Over a whole run the terminal only moves forward: what is left
    of the input is a tail of what was pending at the start (keys are taken
    from the front, by the two input traps and by reads of the keyboard
    status register), and the output at the end is the output at the start
    followed by what the run wrote. *)
Theorem run_consumes_input_and_appends_output
  (fuel : nat) (vm vm' : VM) (t t' : Terminal) :
  Run fuel vm t = Ok (vm', t') →
  ∃ consumed out,
    stdin t = consumed ++ stdin t' ∧ stdout t' = stdout t ++ out.
Proof.
  intros H. unfold Run in H. apply run_loop_io in H.
  destruct H as [[consumed Hin] [out Hout]]. eauto.
Qed.

Lemma run_consumes_input_and_appends_output_witness :
  ∃ consumed out,
    [x61; x62] = consumed ++ [x62]
    ∧ list_byte_of_string "halt" ++ [x0a] = [] ++ out.
Proof.
  refine (run_consumes_input_and_appends_output 2
            {| memory_ := <[Z.to_nat 0x3000 := 0xF020]>
                            (<[Z.to_nat 0x3001 := 0xF025]> (memory_ VM_init));
               reg_ := reg_ VM_init |}
            {| memory_ := <[Z.to_nat 0x3000 := 0xF020]>
                            (<[Z.to_nat 0x3001 := 0xF025]> (memory_ VM_init));
               reg_ := [0x61; 0; 0; 0; 0; 0; 0; 0; 0x3002; 1] |}
            {| stdin := [x61; x62]; stdout := [] |}
            {| stdin := [x62]; stdout := list_byte_of_string "halt" ++ [x0a] |}
            _).
  reflexivity.
Defined.
(** ** Loads *)

Lemma MemRead_plain_inv (addr w : Z) (vm vm' : VM) (t t' : Terminal) :
  addr ≠ kKeyboardStatus → MemRead addr vm t = Ok (w, vm', t') →
  memory_ vm !! Z.to_nat addr = Some w ∧ vm' = vm ∧ t' = t.
Proof.
  intros Hne H. rewrite MemRead_plain in H by exact Hne. unfold load in H.
  destruct (memory_ vm !! Z.to_nat addr) as [w' |]; [| discriminate].
  cbn in H. injection H as -> <- <-. auto.
Qed.

Lemma loaded_register (r w : Z) (vm : VM) :
  VM_wf vm = true → 0 <= r <= 7 →
  reg (UpdateFlag r (set_reg r w vm)) r = w.
Proof.
  intros Hwf Hr. rewrite UpdateFlag_reg by idx.
  apply reg_set_reg_eq. rewrite (reg_length_wf vm Hwf). idx.
Qed.

Lemma loaded_frame (r0 r w : Z) (vm : VM) :
  0 <= r0 <= 7 → 0 <= r <= 8 → r ≠ r0 →
  reg (UpdateFlag r0 (set_reg r0 w vm)) r = reg vm r.
Proof.
  intros Hr0 Hr Hne. rewrite UpdateFlag_reg by idx.
  apply reg_set_reg_ne; lia.
Qed.

(** X24.  LD, LDI and LDR write the destination register and the flags and
    nothing else: the other registers, the output and every cell but the two
    keyboard registers are kept.  Away from the status register, LD and LDR
    load the cell at the effective address, and LDI the cell whose address
    that cell holds, and they change neither memory nor the input. *)
Theorem loads_write_destination_only
  (instr : Z) (vm vm' : VM) (t t' : Terminal) (running : bool) :
  VM_wf vm = true →
  Z.shiftr instr 12 = kOpLd ∨ Z.shiftr instr 12 = kOpLdi
  ∨ Z.shiftr instr 12 = kOpLdr →
  exec instr vm t = Ok (vm', t', running) →
  running = true ∧ stdout t' = stdout t
  ∧ (∀ r, 0 <= r <= 8 → r ≠ R0 instr → reg vm' r = reg vm r)
  ∧ (∀ a, 0 <= a → a ≠ kKeyboardStatus → a ≠ kKeyboardData →
          memory_ vm' !! Z.to_nat a = memory_ vm !! Z.to_nat a)
  ∧ (Z.shiftr instr 12 = kOpLd → pc_offset9 instr vm ≠ kKeyboardStatus →
     memory_ vm !! Z.to_nat (pc_offset9 instr vm) = Some (reg vm' (R0 instr))
     ∧ memory_ vm' = memory_ vm ∧ t' = t)
  ∧ (Z.shiftr instr 12 = kOpLdr → base_offset6 instr vm ≠ kKeyboardStatus →
     memory_ vm !! Z.to_nat (base_offset6 instr vm) = Some (reg vm' (R0 instr))
     ∧ memory_ vm' = memory_ vm ∧ t' = t)
  ∧ (Z.shiftr instr 12 = kOpLdi → pc_offset9 instr vm ≠ kKeyboardStatus →
     ∃ p, memory_ vm !! Z.to_nat (pc_offset9 instr vm) = Some p
          ∧ (p ≠ kKeyboardStatus →
             memory_ vm !! Z.to_nat p = Some (reg vm' (R0 instr))
             ∧ memory_ vm' = memory_ vm ∧ t' = t)).
Proof.
  intros Hwf Hop H. pose proof (R0_range instr) as Hr0.
  destruct Hop as [Hop | [Hop | Hop]]; exec_case Hop H; inv_result H.
  - (* LD *)
    pose proof (MemRead_cells _ _ _ _ _ _ Hwf E) as Hcells.
    pose proof (λ r, MemRead_reg _ _ _ _ _ _ r Hwf E) as Hregs.
    destruct (MemRead_inv _ _ _ _ _ _ Hwf E) as (Hwf1 & _ & Hout & _ & _).
    split; [reflexivity |]. split; [exact Hout |].
    split; [intros r Hr Hne; rewrite loaded_frame by lia; apply Hregs |].
    split; [intros a Ha Hs Hd; rewrite UpdateFlag_memory; apply Hcells; assumption |].
    split; [| split; intros Hop'; exfalso; revert Hop'; rewrite Hop; discriminate].
    intros _ Hne. apply MemRead_plain_inv in E as (Hcell & -> & ->); [| exact Hne].
    rewrite loaded_register by (assumption || lia).
    rewrite UpdateFlag_memory. auto.
  - (* LDI *)
    pose proof (MemRead_cells _ _ _ _ _ _ Hwf E) as Hcells.
    pose proof (λ r, MemRead_reg _ _ _ _ _ _ r Hwf E) as Hregs.
    destruct (MemRead_inv _ _ _ _ _ _ Hwf E) as (Hwf1 & _ & Hout & _ & _).
    pose proof (MemRead_cells _ _ _ _ _ _ Hwf1 E0) as Hcells0.
    pose proof (λ r, MemRead_reg _ _ _ _ _ _ r Hwf1 E0) as Hregs0.
    destruct (MemRead_inv _ _ _ _ _ _ Hwf1 E0) as (Hwf2 & _ & Hout0 & _ & _).
    split; [reflexivity |]. split; [congruence |].
    split; [intros r Hr Hne; rewrite loaded_frame by lia;
            rewrite Hregs0; apply Hregs |].
    split; [intros a Ha Hs Hd; rewrite UpdateFlag_memory; cbn [memory_ set_reg];
            rewrite Hcells0 by assumption; apply Hcells; assumption |].
    split; [intros Hop'; exfalso; revert Hop'; rewrite Hop; discriminate |].
    split; [intros Hop'; exfalso; revert Hop'; rewrite Hop; discriminate |].
    intros _ Hne. apply MemRead_plain_inv in E as (Hcell & -> & ->); [| exact Hne].
    eexists. split; [exact Hcell |]. intros Hp.
    apply MemRead_plain_inv in E0 as (Hcell0 & -> & ->); [| exact Hp].
    rewrite loaded_register by (assumption || lia).
    rewrite UpdateFlag_memory. auto.
  - (* LDR *)
    pose proof (MemRead_cells _ _ _ _ _ _ Hwf E) as Hcells.
    pose proof (λ r, MemRead_reg _ _ _ _ _ _ r Hwf E) as Hregs.
    destruct (MemRead_inv _ _ _ _ _ _ Hwf E) as (Hwf1 & _ & Hout & _ & _).
    split; [reflexivity |]. split; [exact Hout |].
    split; [intros r Hr Hne; rewrite loaded_frame by lia; apply Hregs |].
    split; [intros a Ha Hs Hd; rewrite UpdateFlag_memory; apply Hcells; assumption |].
    split; [intros Hop'; exfalso; revert Hop'; rewrite Hop; discriminate |].
    split; [| intros Hop'; exfalso; revert Hop'; rewrite Hop; discriminate].
    intros _ Hne. apply MemRead_plain_inv in E as (Hcell & -> & ->); [| exact Hne].
    rewrite loaded_register by (assumption || lia).
    rewrite UpdateFlag_memory. auto.
Qed.

Lemma loads_write_destination_only_witness :
  memory_ (set_reg kRPC 0x3001 (vm_with 0x3002 0xBEEF))
    !! Z.to_nat (pc_offset9 0x2201 (set_reg kRPC 0x3001 (vm_with 0x3002 0xBEEF)))
  = Some (reg (set_reg kRCond kFlNeg
                 (set_reg kR1 0xBEEF
                    (set_reg kRPC 0x3001 (vm_with 0x3002 0xBEEF))))
            (R0 0x2201))
  ∧ memory_ (set_reg kRCond kFlNeg
               (set_reg kR1 0xBEEF
                  (set_reg kRPC 0x3001 (vm_with 0x3002 0xBEEF))))
    = memory_ (set_reg kRPC 0x3001 (vm_with 0x3002 0xBEEF))
  ∧ tty_key_a = tty_key_a.
Proof.
  refine (proj1 (proj2 (proj2 (proj2 (proj2
            (loads_write_destination_only 0x2201
               (set_reg kRPC 0x3001 (vm_with 0x3002 0xBEEF))
               (set_reg kRCond kFlNeg
                  (set_reg kR1 0xBEEF
                     (set_reg kRPC 0x3001 (vm_with 0x3002 0xBEEF))))
               tty_key_a tty_key_a true _ _ _))))) _ _).
  - reflexivity.
  - left. reflexivity.
  - reflexivity.
  - reflexivity.
  - discriminate.
Defined.

(** ** NOT *)

Lemma wrap16_lnot (x : Z) : 0 <= x < 65536 → wrap16 (Z.lnot x) = 65535 - x.
Proof.
  intros Hx. unfold wrap16, Z.lnot.
  symmetry. apply Z.mod_unique with (q := -1); lia.
Qed.

Lemma exec_not (instr : Z) (vm : VM) (t : Terminal) :
  Z.shiftr instr 12 = kOpNot →
  exec instr vm t
  = Ok (UpdateFlag (R0 instr)
          (set_reg (R0 instr) (wrap16 (Z.lnot (reg vm (R1 instr)))) vm),
        t, true).
Proof. intros Hop. exec_case_goal Hop. reflexivity. Qed.

(** X25.  NOT writes the 16-bit complement of its source: 65535 minus the
    value, each of the 16 bits flipped.  No other general register and no
    cell changes, and NOT applied twice to one register gives the first
    value back. *)
Theorem not_is_complement (instr : Z) (vm : VM) (t : Terminal) :
  VM_wf vm = true → Z.shiftr instr 12 = kOpNot →
  ∃ vm',
    exec instr vm t = Ok (vm', t, true)
    ∧ reg vm' (R0 instr) = 65535 - reg vm (R1 instr)
    ∧ (∀ i, 0 <= i < 16 →
            Z.testbit (reg vm' (R0 instr)) i
            = negb (Z.testbit (reg vm (R1 instr)) i))
    ∧ (∀ r, 0 <= r <= 8 → r ≠ R0 instr → reg vm' r = reg vm r)
    ∧ memory_ vm' = memory_ vm
    ∧ (R0 instr = R1 instr →
       ∃ vm'', exec instr vm' t = Ok (vm'', t, true)
               ∧ reg vm'' (R0 instr) = reg vm (R0 instr)).
Proof.
  intros Hwf Hop. pose proof (R0_range instr) as Hr0.
  pose proof (reg_u16 vm (R1 instr) Hwf) as Hv.
  rewrite (exec_not instr vm t Hop).
  set (vm' := UpdateFlag (R0 instr)
                (set_reg (R0 instr) (wrap16 (Z.lnot (reg vm (R1 instr)))) vm)).
  assert (Hwf' : VM_wf vm' = true) by (subst vm'; wf_tac).
  assert (Hval : reg vm' (R0 instr) = 65535 - reg vm (R1 instr)).
  { subst vm'. rewrite loaded_register by (assumption || lia).
    apply wrap16_lnot, Hv. }
  exists vm'. split; [reflexivity |].
  split; [exact Hval |]. split; [| split; [| split]].
  - intros i Hi. subst vm'. rewrite loaded_register by (assumption || lia).
    unfold wrap16. change 65536 with (2 ^ 16).
    rewrite Z.mod_pow2_bits_low by lia. apply Z.lnot_spec. lia.
  - intros r Hr Hne. subst vm'. apply loaded_frame; lia.
  - subst vm'. rewrite UpdateFlag_memory. reflexivity.
  - intros Hsame. rewrite (exec_not instr vm' t Hop).
    eexists. split; [reflexivity |].
    rewrite loaded_register by (assumption || lia).
    rewrite <- Hsame, Hval, wrap16_lnot by lia. rewrite Hsame. lia.
Qed.

Lemma not_is_complement_witness :
  ∃ vm',
    exec 0x927F (set_reg kR1 0x1234 VM_init) tty_idle = Ok (vm', tty_idle, true)
    ∧ reg vm' (R0 0x927F) = 65535 - reg (set_reg kR1 0x1234 VM_init) (R1 0x927F).
Proof.
  destruct (not_is_complement 0x927F (set_reg kR1 0x1234 VM_init) tty_idle)
    as (vm' & Hexec & Hval & _).
  - reflexivity.
  - reflexivity.
  - exists vm'. split; [exact Hexec | exact Hval].
Defined.
